(** * Unit tracker: canonicalization, snapshot and diff engine

    A shallow embedding of the key normalizers, the unit-map builders, the
    diff functions and the event writers of the scraper scripts, together
    with the properties the specification states about them.

    Source files embedded here:
    - [diff_snapshots_to_unit_events.js]             (module [DiffSnapshots])
    - the second diff script, which follows the ProspectPortal scraper in
      [push_prospectportal_snapshot_to_supabase_v2.js] (module [DiffSnapshotsV2])
    - [run_rentcafe_all_with_events.js]              (module [RentCafe])
    - [push_prospectportal_snapshot_to_supabase_v2.js] (module [ProspectPortal])
*)

From stdpp Require Import base gmap sets list strings sorting.
From Stdlib Require Import Ascii String.

Open Scope string_scope.
Open Scope list_scope.

(* ===================================================================== *)
(** * JavaScript values and containers *)
(* ===================================================================== *)

Module JS.

(** Strings are sequences of code units; the model keeps the code units
    0..255.  [String.prototype.trim] strips WhiteSpace and LineTerminator
    code points; the ones in this range are TAB, LF, VT, FF, CR, SP and
    NBSP. *)
Definition is_space (c : ascii) : bool :=
  let n := nat_of_ascii c in
  (n =? 9)%nat || (n =? 10)%nat || (n =? 11)%nat || (n =? 12)%nat ||
  (n =? 13)%nat || (n =? 32)%nat || (n =? 160)%nat.

Fixpoint trimStart (s : string) : string :=
  match s with
  | EmptyString => EmptyString
  | String c s' => if is_space c then trimStart s' else s
  end.

Fixpoint trimEnd (s : string) : string :=
  match s with
  | EmptyString => EmptyString
  | String c s' =>
      match trimEnd s' with
      | EmptyString => if is_space c then EmptyString else String c EmptyString
      | t => String c t
      end
  end.

(** [s.trim()] *)
Definition trim (s : string) : string := trimEnd (trimStart s).

(** [s.startsWith(p)] *)
Fixpoint startsWith (s p : string) {struct p} : bool :=
  match p with
  | EmptyString => true
  | String a p' =>
      match s with
      | EmptyString => false
      | String b s' => Ascii.eqb a b && startsWith s' p'
      end
  end.
Global Arguments startsWith : simpl never.

(** [s.slice(n)] for [n >= 0]. *)
Fixpoint slice (n : nat) (s : string) : string :=
  match n, s with
  | O, _ => s
  | S n', String _ s' => slice n' s'
  | S _, EmptyString => EmptyString
  end.

(** A string made of whitespace only. *)
Fixpoint all_space (s : string) : bool :=
  match s with
  | EmptyString => true
  | String c s' => is_space c && all_space s'
  end.

(** Truthiness of a string: non-empty. *)
Definition truthy (s : string) : bool :=
  match s with EmptyString => false | _ => true end.

(** A field of a JSON unit object that holds a string, or is [null] or
    missing: [None] stands for both nullish values. *)
Definition field := option string.

(** [x || null] for a string [x]: the empty string is falsy. *)
Definition or_null (s : string) : field :=
  if truthy s then Some s else None.

(** [a || b] where both sides are a string or [null]. *)
Definition or_else (a b : field) : field :=
  match a with
  | Some s => if truthy s then a else b
  | None => b
  end.

(** [String(x ?? "")] *)
Definition str_or_empty (x : field) : string := default "" x.

(** A [Map] with string keys iterates in insertion order; [set] on a key
    that is present replaces the value and keeps the key's position. *)
Section MapSet.
Context {V : Type}.

Fixpoint map_set (k : string) (v : V) (m : list (string * V)) : list (string * V) :=
  match m with
  | [] => [(k, v)]
  | (k', v') :: m' =>
      if String.eqb k' k then (k, v) :: m' else (k', v') :: map_set k v m'
  end.

Fixpoint map_get (k : string) (m : list (string * V)) : option V :=
  match m with
  | [] => None
  | (k', v') :: m' => if String.eqb k' k then Some v' else map_get k m'
  end.

Definition map_keys (m : list (string * V)) : list string := m.*1.
End MapSet.

(** A [Set] of strings iterates in insertion order; [add] of a member
    does nothing. *)
Definition set_has (k : string) (s : list string) : bool :=
  existsb (String.eqb k) s.

Definition set_add (k : string) (s : list string) : list string :=
  if set_has k s then s else s ++ [k].

(** [new Set(iterable)] *)
Definition new_Set (l : list string) : list string :=
  fold_left (fun s k => set_add k s) l [].

(** [arr.filter(Boolean)] on an array of strings and nulls. *)
Definition filter_Boolean (l : list field) : list string :=
  omap (fun x => match x with
                 | Some s => if truthy s then Some s else None
                 | None => None
                 end) l.

(** [s.split(",")]: the pieces between the separators; the empty string
    gives one empty piece. *)
Fixpoint split_on (sep : ascii) (s : string) : list string :=
  match s with
  | EmptyString => [EmptyString]
  | String a s' =>
      if Ascii.eqb a sep then EmptyString :: split_on sep s'
      else match split_on sep s' with
           | piece :: pieces => String a piece :: pieces
           | [] => [String a EmptyString]
           end
  end.

(** [pieces.join(",")] *)
Fixpoint join_with (sep : ascii) (pieces : list string) : string :=
  match pieces with
  | [] => EmptyString
  | [piece] => piece
  | piece :: rest => piece +:+ String sep (join_with sep rest)
  end.

End JS.

(* ===================================================================== *)
(** * Snapshot units *)
(* ===================================================================== *)

(** One element of [units_json].  [price] is computed from the price text
    kept in [meta], and [floor_plan_id] is [null] in the adapters below;
    neither is read by the engine, so the record keeps the identifying
    fields, the availability text and the three [meta] fields. *)
Record unit := Unit {
  unit_key : JS.field;
  unit_id : JS.field;
  unit_number : JS.field;
  available_on : JS.field;
  meta_page_url : JS.field;
  meta_price_text : JS.field;
  meta_raw : JS.field
}.

(** Calendar days, ordered as the store orders its [date] columns. *)
Definition date := nat.

Inductive event_type := appeared | disappeared.

(** A row of [unit_events].  [ev_unit_key] and [ev_unit_number] are the
    columns [unit_key] and [unit_number]. *)
Record event := Event {
  property_id : string;
  event_date : date;
  ev_unit_key : string;
  ev_unit_number : JS.field;
  ev_type : event_type;
  source : string
}.

(** A row of [unit_snapshots]. *)
Record snapshot := Snapshot {
  s_property_id : string;
  snapshot_date : date;
  units_json : list unit
}.

(** A row of [properties]; [p_urls] is the URL list that
    [normalizeUrlListFromRow] reads off the row. *)
Record property := Property {
  p_id : string;
  p_name : string;
  p_platform : string;
  p_urls : list string
}.

(* ===================================================================== *)
(** * The store, the web and the effects of a script *)
(* ===================================================================== *)

Module Supabase.

(** Lines the scripts print that tell what happened to a property. *)
Inductive log_line :=
| LogSkip (id : string)
| LogDiff (id : string) (d : date) (n_appeared n_disappeared inserted : nat)
| LogError (id : string) (message : string)
| LogDone (total : nat)
| LogProperty (id : string)
| LogNoUrls (id : string)
| LogSnapshot (id : string)
| LogEvents (id : string) (inserted n_appeared n_disappeared : nat)
| LogAllDone.

(** What a script run can see and change: the three tables, the pages
    the browser can open ([None]: the navigation throws), the answer of
    the store to the n-th request ([Some message]: the request comes
    back with [error] set), the number of requests made so far, and the
    console.  [properties] is kept newest first, the order in which
    [.order("created_at", { ascending: false })] returns its rows. *)
Record world := World {
  unit_snapshots : list snapshot;
  unit_events : list event;
  properties : list property;
  web : string -> option (list unit);
  faults : nat -> option string;
  clock : nat;
  console : list log_line
}.

Inductive outcome (A : Type) :=
| Ok (a : A)
| Throw (err : string).
Arguments Ok {A} a.
Arguments Throw {A} err.

(** An [async] function: it returns or throws, and changes the world. *)
Definition M (A : Type) : Type := world -> outcome A * world.

Definition ret {A} (a : A) : M A := fun w => (Ok a, w).

Definition bind {A B} (c : M A) (k : A -> M B) : M B :=
  fun w => match c w with
           | (Ok a, w') => k a w'
           | (Throw e, w') => (Throw e, w')
           end.

Definition throw {A} (e : string) : M A := fun w => (Throw e, w).

(** [try { c } catch (err) { h err }] *)
Definition try_catch {A} (c : M A) (h : string -> M A) : M A :=
  fun w => match c w with
           | (Ok a, w') => (Ok a, w')
           | (Throw e, w') => h e w'
           end.

Definition log (l : log_line) : M () :=
  fun w => (Ok (), World (unit_snapshots w) (unit_events w) (properties w)
                         (web w) (faults w) (clock w) (console w ++ [l])).

Definition tick (w : world) : world :=
  World (unit_snapshots w) (unit_events w) (properties w)
        (web w) (faults w) (S (clock w)) (console w).

Definition set_events (evs : list event) (w : world) : world :=
  World (unit_snapshots w) evs (properties w)
        (web w) (faults w) (clock w) (console w).

Definition set_snapshots (sn : list snapshot) (w : world) : world :=
  World sn (unit_events w) (properties w)
        (web w) (faults w) (clock w) (console w).

(** One request to the store: [const { data, error } = await q;
    if (error) throw error;]. *)
Definition request {A} (q : world -> A * world) : M A :=
  fun w => match faults w (clock w) with
           | Some e => (Throw e, tick w)
           | None => let '(a, w') := q w in (Ok a, tick w')
           end.

(** [page.goto(url)] followed by the in-page extraction. *)
Definition open_page (url : string) : M (list unit) :=
  fun w => match web w url with
           | Some units => (Ok units, w)
           | None => (Throw "page.goto: Timeout", w)
           end.

(** [.eq("property_id", p).eq("event_date", d).eq("source", s)] *)
Definition event_matches (p : string) (d : date) (s : string) (e : event) : bool :=
  String.eqb (property_id e) p && Nat.eqb (event_date e) d && String.eqb (source e) s.

(** [.from("unit_events").delete().eq(..).eq(..).eq(..)] *)
Definition delete_events (p : string) (d : date) (s : string) : M () :=
  request (fun w =>
    ((), set_events (List.filter (fun e => negb (event_matches p d s e)) (unit_events w)) w)).

(** [.from("unit_events").insert(rows)] *)
Definition insert_events (rows : list event) : M () :=
  request (fun w => ((), set_events (unit_events w ++ rows) w)).

(** [.order("snapshot_date", { ascending: false })] *)
Fixpoint insert_desc (r : snapshot) (l : list snapshot) : list snapshot :=
  match l with
  | [] => [r]
  | x :: l' =>
      if Nat.leb (snapshot_date x) (snapshot_date r) then r :: l
      else x :: insert_desc r l'
  end.

Definition order_desc (l : list snapshot) : list snapshot :=
  fold_right insert_desc [] l.

(** [.upsert(row, { onConflict: "property_id,snapshot_date" })] *)
Fixpoint upsert_row (r : snapshot) (t : list snapshot) : list snapshot :=
  match t with
  | [] => [r]
  | x :: t' =>
      if String.eqb (s_property_id x) (s_property_id r) &&
         Nat.eqb (snapshot_date x) (snapshot_date r)
      then r :: t' else x :: upsert_row r t'
  end.

Definition upsert_snapshot (r : snapshot) : M () :=
  request (fun w => ((), set_snapshots (upsert_row r (unit_snapshots w)) w)).

End Supabase.

Notation "x <- c ;; k" := (Supabase.bind c (fun x => k))
  (at level 100, c at next level, right associativity).
Notation "c ;;; k" := (Supabase.bind c (fun _ => k))
  (at level 100, right associativity).

(* ===================================================================== *)
(** * diff_snapshots_to_unit_events.js *)
(* ===================================================================== *)

Module DiffSnapshots.
Import JS.

Definition normalizeUnitKey (u : unit) : field :=
  let unitId := match unit_id u with Some s => s | None => "" end in
  let unitNumber := match unit_number u with Some s => trim s | None => "" end in
  if startsWith unitId "unit:" then Some unitId
  else if truthy unitNumber then Some ("unit:" +:+ unitNumber)
  else if truthy unitId then Some ("id:" +:+ unitId)
  else None.

Definition unitNumberFromKey (unitKey : field) : field :=
  match unitKey with
  | None => None
  | Some s =>
      if truthy s then
        if startsWith s "unit:" then or_null (slice 5 s) else None
      else None
  end.

(** The value stored in the map: [{ unit_number, raw }]. *)
Record entry := Entry { e_unit_number : field; e_raw : unit }.

(** The body of the loop of [buildMap] for one unit: the key and the
    value it is about to store, or nothing when it [continue]s. *)
Definition buildMap_entry (u : unit) : option (string * entry) :=
  match normalizeUnitKey u with
  | None => None
  | Some key =>
      if negb (truthy key) then None
      else
        let unit_number :=
          or_else
            (or_else (match unit_number u with
                      | Some s => Some (trim s)
                      | None => None
                      end)
                     (unitNumberFromKey (Some key)))
            None in
        Some (key, Entry unit_number u)
  end.

Definition buildMap_step (m : list (string * entry)) (u : unit) : list (string * entry) :=
  match buildMap_entry u with
  | None => m
  | Some (key, e) => map_set key e m
  end.

Definition buildMap (units : list unit) : list (string * entry) :=
  fold_left buildMap_step units [].

Definition diffKeys {V W} (prevMap : list (string * V)) (currMap : list (string * W))
  : list string * list string :=
  let prevKeys := new_Set (map_keys prevMap) in
  let currKeys := new_Set (map_keys currMap) in
  let appeared := filter (fun k => negb (set_has k prevKeys)) currKeys in
  let disappeared := filter (fun k => negb (set_has k currKeys)) prevKeys in
  (appeared, disappeared).

(** The environment variables the script reads. *)
Record env := Env {
  PROPERTY_ID : string;
  SNAPSHOT_DATE : option date;
  EVENT_SOURCE : string
}.

Import Supabase.

Definition getPropertiesToProcess (cfg : env) : M (list string) :=
  if truthy (PROPERTY_ID cfg) then ret [PROPERTY_ID cfg]
  else
    (* .limit(10000) *)
    data <- request (fun w =>
              (map s_property_id (take (100 * 100) (unit_snapshots w)), w)) ;;
    ret (new_Set data).

Definition getLastTwoSnapshots (cfg : env) (propertyId : string) : M (list snapshot) :=
  request (fun w =>
    let q := List.filter (fun r => String.eqb (s_property_id r) propertyId)
                         (unit_snapshots w) in
    let q := match SNAPSHOT_DATE cfg with
             | Some d => List.filter (fun r => Nat.leb (snapshot_date r) d) q
             | None => q
             end in
    (take 2 (order_desc q), w)).

(** The array [rows] that [writeEvents] builds between the delete and
    the insert. *)
Definition event_rows (cfg : env) (propertyId : string) (eventDate : date)
    (appearedKeys disappearedKeys : list string) (currMap : list (string * entry))
  : list event :=
  map (fun k =>
         let unit_number :=
           or_else (or_else (map_get k currMap ≫= e_unit_number)
                            (unitNumberFromKey (Some k)))
                   None in
         Event propertyId eventDate k unit_number appeared (EVENT_SOURCE cfg))
      appearedKeys ++
  map (fun k =>
         let unit_number := or_else (unitNumberFromKey (Some k)) None in
         Event propertyId eventDate k unit_number disappeared (EVENT_SOURCE cfg))
      disappearedKeys.

Definition writeEvents (cfg : env) (propertyId : string) (eventDate : date)
    (appearedKeys disappearedKeys : list string) (currMap : list (string * entry))
  : M nat :=
  delete_events propertyId eventDate (EVENT_SOURCE cfg) ;;;
  let rows := event_rows cfg propertyId eventDate appearedKeys disappearedKeys currMap in
  if Nat.eqb (List.length rows) 0 then ret 0
  else insert_events rows ;;; ret (List.length rows).

(** The body of the [try] block of [main] for one property; the result
    is the number added to [totalInserted]. *)
Definition main_try (cfg : env) (p : string) : M nat :=
  snaps <- getLastTwoSnapshots cfg p ;;
  match snaps with
  | latest :: prev :: _ =>
      let latestDate := snapshot_date latest in
      let prevMap := buildMap (units_json prev) in
      let currMap := buildMap (units_json latest) in
      let '(appearedKeys, disappearedKeys) := diffKeys prevMap currMap in
      inserted <- writeEvents cfg p latestDate appearedKeys disappearedKeys currMap ;;
      log (LogDiff p latestDate (List.length appearedKeys) (List.length disappearedKeys) inserted) ;;;
      ret inserted
  | _ => log (LogSkip p) ;;; ret 0
  end.

(** The [for] loop of [main], with [totalInserted] as accumulator. *)
Fixpoint main_loop (cfg : env) (props : list string) (totalInserted : nat) : M nat :=
  match props with
  | [] => ret totalInserted
  | p :: props' =>
      inserted <- try_catch (main_try cfg p)
                            (fun err => log (LogError p err) ;;; ret 0) ;;
      main_loop cfg props' (totalInserted + inserted)
  end.

(** The lines [main] prints before the loop and the pause after each
    property change nothing the engine reads and are left out. *)
Definition main (cfg : env) : M () :=
  props <- getPropertiesToProcess cfg ;;
  totalInserted <- main_loop cfg props 0 ;;
  log (LogDone totalInserted).

End DiffSnapshots.

(* ===================================================================== *)
(** * The second diff script ("Diff snapshots -> unit_events (v2)")

    [normalizeUnitKey], [unitNumberFromKey], [buildMap] and [diffKeys] are
    repeated there word for word; [writeEvents] takes [prevMap] too. *)
(* ===================================================================== *)

Module DiffSnapshotsV2.
Import JS Supabase.
Export DiffSnapshots.

Definition event_rows (EVENT_SOURCE propertyId : string) (eventDate : date)
    (appearedKeys disappearedKeys : list string)
    (currMap prevMap : list (string * entry)) : list event :=
  map (fun k =>
         let unit_number :=
           or_else (or_else (map_get k currMap ≫= e_unit_number)
                            (unitNumberFromKey (Some k)))
                   None in
         Event propertyId eventDate k unit_number appeared EVENT_SOURCE)
      appearedKeys ++
  map (fun k =>
         let unit_number :=
           or_else (or_else (map_get k prevMap ≫= e_unit_number)
                            (unitNumberFromKey (Some k)))
                   None in
         Event propertyId eventDate k unit_number disappeared EVENT_SOURCE)
      disappearedKeys.

Definition writeEvents (EVENT_SOURCE propertyId : string) (eventDate : date)
    (appearedKeys disappearedKeys : list string)
    (currMap prevMap : list (string * entry)) : M nat :=
  delete_events propertyId eventDate EVENT_SOURCE ;;;
  let rows := event_rows EVENT_SOURCE propertyId eventDate
                         appearedKeys disappearedKeys currMap prevMap in
  if Nat.eqb (List.length rows) 0 then ret 0
  else insert_events rows ;;; ret (List.length rows).

End DiffSnapshotsV2.

(* ===================================================================== *)
(** * run_rentcafe_all_with_events.js *)
(* ===================================================================== *)

Module RentCafe.
Import JS.

Definition unitKeyForEvents (u : unit) : field :=
  or_null (trim (str_or_empty
    (or_else (or_else (unit_id u) (unit_number u)) (Some "")))).

Definition diffUnitKeys (prevUnits currUnits : list unit) : list string * list string :=
  let prevKeys := new_Set (filter_Boolean (map unitKeyForEvents prevUnits)) in
  let currKeys := new_Set (filter_Boolean (map unitKeyForEvents currUnits)) in
  let appeared := filter (fun k => negb (set_has k prevKeys)) currKeys in
  let disappeared := filter (fun k => negb (set_has k currKeys)) prevKeys in
  (appeared, disappeared).

(** The key of the cross-page dedupe in [scrapeRentCafeUrls]:
    [u.unit_id || `${page_url || ""}|${u.unit_number || ""}`]. *)
Definition dedupe_key (u : unit) : string :=
  match or_else (unit_id u) None with
  | Some s => s
  | None =>
      str_or_empty (or_else (meta_page_url u) (Some "")) +:+ "|" +:+
      str_or_empty (or_else (unit_number u) (Some ""))
  end.

(** The inner loop of [scrapeRentCafeUrls] for one unit; the state is
    the pair of the array [all] and the set [seen]. *)
Definition dedupe_step (st : list unit * list string) (u : unit)
  : list unit * list string :=
  let '(all, seen) := st in
  let k := dedupe_key u in
  if negb (truthy k) then st
  else if set_has k seen then st
  else (all ++ [u], set_add k seen).

Definition dedupe_units (st : list unit * list string) (units : list unit)
  : list unit * list string :=
  fold_left dedupe_step units st.

(** The rows built by [writeEvents] before the insert. *)
Definition event_number (unit_key : string) : field :=
  if startsWith unit_key "unit:" then Some (slice 5 unit_key) else None.

Definition event_rows (EVENT_SOURCE propertyId : string) (today : date)
    (appearedKeys disappearedKeys : list string) : list event :=
  map (fun k => Event propertyId today k (event_number k) appeared EVENT_SOURCE)
      appearedKeys ++
  map (fun k => Event propertyId today k (event_number k) disappeared EVENT_SOURCE)
      disappearedKeys.

(** The environment variables the script reads; [RENTCAFE_URLS] is kept
    as the list [parseCsvUrls] makes of it, and [todayYYYYMMDDLocal] is
    the local calendar day of the run. *)
Record env := Env {
  RENTCAFE_PROPERTY_ID : string;
  RENTCAFE_URLS : list string;
  EVENT_SOURCE : string;
  LIMIT : nat;
  SNAPSHOT_DATE : option date;
  todayYYYYMMDDLocal : date
}.

Import Supabase.

(** The loop of [scrapeRentCafeUrls] over the URLs. *)
Fixpoint scrape_loop (urls : list string) (st : list unit * list string)
  : M (list unit * list string) :=
  match urls with
  | [] => ret st
  | url :: urls' =>
      units <- open_page url ;;
      scrape_loop urls' (dedupe_units st units)
  end.

Definition scrapeRentCafeUrls (urls : list string) : M (list unit) :=
  st <- scrape_loop urls ([], []) ;;
  ret st.1.

Definition upsertSnapshot (propertyId : string) (snapshotDate : date)
    (units : list unit) : M () :=
  upsert_snapshot (Snapshot propertyId snapshotDate units).

Definition getPreviousSnapshot (propertyId : string) (today : date)
  : M (option snapshot) :=
  request (fun w =>
    let q := List.filter
               (fun r => String.eqb (s_property_id r) propertyId &&
                         Nat.ltb (snapshot_date r) today)
               (unit_snapshots w) in
    (head (take 1 (order_desc q)), w)).

Definition writeEvents (cfg : env) (propertyId : string) (today : date)
    (appearedKeys disappearedKeys : list string) : M nat :=
  delete_events propertyId today (EVENT_SOURCE cfg) ;;;
  let events := event_rows (EVENT_SOURCE cfg) propertyId today
                           appearedKeys disappearedKeys in
  if Nat.eqb (List.length events) 0 then ret 0
  else insert_events events ;;; ret (List.length events).

Definition runOneProperty (cfg : env) (id : string) (urls : list string) : M () :=
  let today := default (todayYYYYMMDDLocal cfg) (SNAPSHOT_DATE cfg) in
  log (LogProperty id) ;;;
  if Nat.eqb (List.length urls) 0 then log (LogNoUrls id)
  else
    units <- scrapeRentCafeUrls urls ;;
    upsertSnapshot id today units ;;;
    log (LogSnapshot id) ;;;
    prev <- getPreviousSnapshot id today ;;
    let prevUnits := match prev with Some r => units_json r | None => [] end in
    let '(appearedKeys, disappearedKeys) := diffUnitKeys prevUnits units in
    inserted <- writeEvents cfg id today appearedKeys disappearedKeys ;;
    log (LogEvents id inserted (List.length appearedKeys) (List.length disappearedKeys)).

(** The [for] loop of the all-properties mode of [main]. *)
Fixpoint main_loop (cfg : env) (props : list property) : M () :=
  match props with
  | [] => ret ()
  | p :: props' =>
      runOneProperty cfg (p_id p) (p_urls p) ;;;
      main_loop cfg props'
  end.

Definition main (cfg : env) : M () :=
  if truthy (RENTCAFE_PROPERTY_ID cfg) then
    finalUrls <-
      (if Nat.eqb (List.length (RENTCAFE_URLS cfg)) 0 then
         data <- request (fun w =>
                   (List.filter (fun p => String.eqb (p_id p) (RENTCAFE_PROPERTY_ID cfg))
                                (properties w), w)) ;;
         (* .single() *)
         match data with
         | [row] => ret (p_urls row)
         | _ => throw "JSON object requested, multiple (or no) rows returned"
         end
       else ret (RENTCAFE_URLS cfg)) ;;
    runOneProperty cfg (RENTCAFE_PROPERTY_ID cfg) finalUrls
  else
    props <- request (fun w =>
               let q := List.filter
                          (fun p => String.eqb (p_platform p) "RentCafe" ||
                                    String.eqb (p_platform p) "rentcafe")
                          (properties w) in
               ((if Nat.ltb 0 (LIMIT cfg) then take (LIMIT cfg) q else q), w)) ;;
    match props with
    | [] => ret ()
    | _ => main_loop cfg props ;;; log LogAllDone
    end.

(** The two columns of a [properties] row that hold URLs. *)
Record url_row := UrlRow {
  rentcafe_urls : field;
  url : field
}.

Definition parseCsvUrls (raw : field) : list string :=
  new_Set
    (List.filter truthy
       (map trim (split_on "," (str_or_empty (or_else raw (Some "")))))).

Definition normalizeUrlListFromRow (row : url_row) : list string :=
  let raw :=
    match or_else (rentcafe_urls row) None with
    | Some s => if truthy (trim s) then s else str_or_empty (or_else (url row) (Some ""))
    | None => str_or_empty (or_else (url row) (Some ""))
    end in
  parseCsvUrls (Some raw).

End RentCafe.

(* ===================================================================== *)
(** * push_prospectportal_snapshot_to_supabase_v2.js *)
(* ===================================================================== *)

Module ProspectPortal.
Import JS.

Definition normalizeUnitNumber (x : field) : field :=
  or_null (trim (str_or_empty x)).

Definition normalizeUnitKeyFromNumber (unitNumber : field) : field :=
  match normalizeUnitNumber unitNumber with
  | None => None
  | Some n =>
      if negb (truthy n) then None
      else if startsWith n "unit:" then Some n else Some ("unit:" +:+ n)
  end.

Definition unitNumberFromUnitKey (unitKey : field) : field :=
  match unitKey with
  | None => None
  | Some s =>
      if negb (truthy s) then None
      else if startsWith s "unit:" then or_null (slice 5 s)
      else or_null s
  end.

Definition diffKeys (prevUnits currUnits : list unit) : list string * list string :=
  let prevSet := new_Set (filter_Boolean (map unit_key prevUnits)) in
  let currSet := new_Set (filter_Boolean (map unit_key currUnits)) in
  let appeared := filter (fun k => negb (set_has k prevSet)) currSet in
  let disappeared := filter (fun k => negb (set_has k currSet)) prevSet in
  (appeared, disappeared).

(** A row returned by the in-page extraction. *)
Record extracted := Extracted {
  r_unit_number : field;
  r_price_text : field;
  r_available_on : field;
  r_raw : field;
  r_page_url : field
}.

(** The unit that the loop of [scrapeProspectPortalUnits] makes of one
    extracted row, or nothing when the row has no key. *)
Definition canonical_unit (r : extracted) : option unit :=
  let unit_number := normalizeUnitNumber (r_unit_number r) in
  match normalizeUnitKeyFromNumber unit_number with
  | None => None
  | Some unit_key =>
      if negb (truthy unit_key) then None
      else Some {| unit_key := Some unit_key;
                   unit_id := Some unit_key;
                   unit_number := unit_number;
                   available_on := or_else (r_available_on r) None;
                   meta_page_url := r_page_url r;
                   meta_price_text := or_else (r_price_text r) None;
                   meta_raw := or_else (r_raw r) None |}
  end.

(** The loop of [scrapeProspectPortalUnits] over the extracted rows; the
    state is the pair of the array [units] and the set [seen]. *)
Definition canonical_step (st : list unit * list string) (r : extracted)
  : list unit * list string :=
  let '(units, seen) := st in
  match canonical_unit r with
  | None => st
  | Some u =>
      let k := str_or_empty (unit_key u) in
      if set_has k seen then st
      else (units ++ [u], set_add k seen)
  end.

Definition canonical_units (st : list unit * list string) (rows : list extracted)
  : list unit * list string :=
  fold_left canonical_step rows st.

(** [main]: the previous snapshot's units, re-keyed. *)
Definition rekey (u : unit) : unit :=
  let unit_key' :=
    or_else (or_else (unit_key u) (normalizeUnitKeyFromNumber (unit_number u)))
            (match unit_id u with
             | Some s => if startsWith s "unit:" then Some s else None
             | None => None
             end) in
  let unit_number' :=
    or_else (or_else (unit_number u) (unitNumberFromUnitKey unit_key'))
            (unitNumberFromUnitKey (unit_id u)) in
  {| unit_key := unit_key'; unit_id := unit_id u; unit_number := unit_number';
     available_on := available_on u; meta_page_url := meta_page_url u;
     meta_price_text := meta_price_text u; meta_raw := meta_raw u |}.

Definition field_truthy (x : field) : bool :=
  match x with Some s => truthy s | None => false end.

Definition prevUnits_of (prevUnitsRaw : list unit) : list unit :=
  filter (fun u => field_truthy (unit_key u)) (map rekey prevUnitsRaw).

(** [main]: the lookup [unitKeyToNumber], built from today's units. *)
Definition unitKeyToNumber_step (m : list (string * string)) (u : unit)
  : list (string * string) :=
  match unit_key u, unit_number u with
  | Some k, Some n => if truthy k && truthy n then map_set k n m else m
  | _, _ => m
  end.

Definition unitKeyToNumber (unitsToday : list unit) : list (string * string) :=
  fold_left unitKeyToNumber_step unitsToday [].

(** [main]: the array [events]. *)
Definition main_events (PROPERTY_ID EVENT_SOURCE : string) (snapshotDate : date)
    (prevUnitsRaw unitsToday : list unit) : list event :=
  let prevUnits := prevUnits_of prevUnitsRaw in
  let '(appearedKeys, disappearedKeys) := diffKeys prevUnits unitsToday in
  let m := unitKeyToNumber unitsToday in
  let number k := or_else (map_get k m) (unitNumberFromUnitKey (Some k)) in
  map (fun k => Event PROPERTY_ID snapshotDate k (number k) appeared EVENT_SOURCE)
      appearedKeys ++
  map (fun k => Event PROPERTY_ID snapshotDate k (number k) disappeared EVENT_SOURCE)
      disappearedKeys.

Import Supabase.

Definition replaceEventsForDay (propertyId : string) (eventDate : date)
    (source : string) (events : list event) : M () :=
  delete_events propertyId eventDate source ;;;
  if Nat.eqb (List.length events) 0 then ret ()
  else insert_events events.

(** The environment variables [main] reads, and the local calendar day. *)
Record env := Env {
  PROPERTY_ID : string;
  EVENT_SOURCE : string;
  SNAPSHOT_DATE : option date;
  todayYYYYMMDD : date
}.

Definition getLatestSnapshot (propertyId : string) (upToDateISO : date)
  : M (option snapshot) :=
  request (fun w =>
    let q := List.filter
               (fun r => String.eqb (s_property_id r) propertyId &&
                         Nat.leb (snapshot_date r) upToDateISO)
               (unit_snapshots w) in
    (head (take 1 (order_desc q)), w)).

Definition upsertSnapshot (propertyId : string) (snapshotDate : date)
    (units : list unit) : M () :=
  upsert_snapshot (Snapshot propertyId snapshotDate units).

(** How [main] ends: it runs to its last line, or calls [process.exit]. *)
Inductive ending :=
| Finished
| Exit (code : nat).

(** [main], from the line after [scrapeProspectPortalUnits] has returned
    [unitsToday]. *)
Definition main (cfg : env) (unitsToday : list unit) : M ending :=
  let snapshotDate := default (todayYYYYMMDD cfg) (SNAPSHOT_DATE cfg) in
  if Nat.eqb (List.length unitsToday) 0 then ret (Exit 2)
  else
    prevSnap <- getLatestSnapshot (PROPERTY_ID cfg) snapshotDate ;;
    let prevUnitsRaw := match prevSnap with Some r => units_json r | None => [] end in
    let events := main_events (PROPERTY_ID cfg) (EVENT_SOURCE cfg) snapshotDate
                              prevUnitsRaw unitsToday in
    upsertSnapshot (PROPERTY_ID cfg) snapshotDate unitsToday ;;;
    replaceEventsForDay (PROPERTY_ID cfg) snapshotDate (EVENT_SOURCE cfg) events ;;;
    ret Finished.

End ProspectPortal.

(* ===================================================================== *)
(** * The SightMap scraper that follows the first diff script in
      [diff_snapshots_to_unit_events.js] *)
(* ===================================================================== *)

Module SightMap.
Import JS Supabase.

(** One element of [payload.data.units], with the fields [extractUnits]
    copies into a unit; [u_id] is [String(u.id)]. *)
Record api_unit := ApiUnit {
  u_id : string;
  u_unit_number : field;
  u_available_on : field
}.

Definition normalizeUnitNumber (n : field) : field :=
  or_null (trim (str_or_empty n)).

Definition normalizeUnitKeyFromUnitNumber (unitNumber : field) : field :=
  match normalizeUnitNumber unitNumber with
  | Some n => if truthy n then Some ("unit:" +:+ n) else None
  | None => None
  end.

(** [payload] is [payload?.data?.units] when that is an array. *)
Definition extractUnits (payload : option (list api_unit)) : list unit :=
  match payload with
  | None => []
  | Some units =>
      List.filter
        (fun u => match unit_number u with Some n => truthy n | None => false end)
        (map (fun u =>
                let unitNumber := normalizeUnitNumber (u_unit_number u) in
                let unitKey := normalizeUnitKeyFromUnitNumber unitNumber in
                {| unit_key := unitKey;
                   unit_id := Some (u_id u);
                   unit_number := unitNumber;
                   available_on := u_available_on u;
                   meta_page_url := None;
                   meta_price_text := None;
                   meta_raw := None |})
             units)
  end.

Definition diffUnits (prevUnits currUnits : list unit) : list string * list string :=
  let prevSet := new_Set (filter_Boolean (map unit_key prevUnits)) in
  let currSet := new_Set (filter_Boolean (map unit_key currUnits)) in
  let appeared := filter (fun k => negb (set_has k prevSet)) currSet in
  let disappeared := filter (fun k => negb (set_has k currSet)) prevSet in
  (appeared, disappeared).

(** The loop of [fetchSightmapLandingPage] with [n] attempts left; the
    API is one more remote service, so a call to it is a request, and
    [payload] is what it sends when it answers.  The pause between two
    attempts is left out. *)
Fixpoint attempts_loop (n : nat) (lastErr : string) (payload : option (list api_unit))
  : M (option (list api_unit)) :=
  match n with
  | O => throw lastErr
  | S n' =>
      try_catch (request (fun w => (payload, w)))
                (fun err => attempts_loop n' err payload)
  end.

Definition fetchSightmapLandingPage (payload : option (list api_unit))
  : M (option (list api_unit)) :=
  attempts_loop 3 "" payload.

Definition upsertSnapshot (propertyId : string) (snapshotDate : date)
    (units : list unit) : M () :=
  upsert_snapshot (Snapshot propertyId snapshotDate units).

(** [data?.[0]?.units_json || []] of the newest row dated [snapshotDate]
    or before. *)
Definition loadLatestSnapshotUnits (propertyId : string) (snapshotDate : date)
  : M (list unit) :=
  request (fun w =>
    let q := List.filter
               (fun r => String.eqb (s_property_id r) propertyId &&
                         Nat.leb (snapshot_date r) snapshotDate)
               (unit_snapshots w) in
    (match head (take 1 (order_desc q)) with
     | Some r => units_json r
     | None => []
     end, w)).

Definition deleteEventsForDay (propertyId : string) (snapshotDate : date)
    (source : string) : M () :=
  delete_events propertyId snapshotDate source.

Definition insertEvents (events : list event) : M () :=
  if Nat.eqb (List.length events) 0 then ret ()
  else insert_events events.

(** [main]: the lookup [keyToNum], built from today's units. *)
Definition keyToNum_step (m : list (string * string)) (u : unit)
  : list (string * string) :=
  match unit_key u, unit_number u with
  | Some k, Some n => if truthy k && truthy n then map_set k n m else m
  | _, _ => m
  end.

Definition keyToNum (unitsToday : list unit) : list (string * string) :=
  fold_left keyToNum_step unitsToday [].

(** [keyToNum.get(unit_key) ||
     (unit_key.startsWith("unit:") ? unit_key.slice(5) : null)] *)
Definition event_number (m : list (string * string)) (unit_key : string) : field :=
  or_else (map_get unit_key m)
          (if startsWith unit_key "unit:" then Some (slice 5 unit_key) else None).

(** [main]: the array [events]; [appearedKeys] and [disappearedKeys] are
    the arrays [appeared] and [disappeared] of the diff. *)
Definition main_events (propertyId : string) (snapshotDate : date) (source : string)
    (appearedKeys disappearedKeys : list string) (unitsToday : list unit) : list event :=
  let m := keyToNum unitsToday in
  map (fun k => Event propertyId snapshotDate k (event_number m k) appeared source)
      appearedKeys ++
  map (fun k => Event propertyId snapshotDate k (event_number m k) disappeared source)
      disappearedKeys.

(** The environment variables [main] reads, and the local calendar day. *)
Record env := Env {
  SIGHTMAP_PROPERTY_ID : string;
  SNAPSHOT_DATE : option date;
  todayYYYYMMDD : date
}.

(** How [main] ends: it runs to its last line, or calls [process.exit]. *)
Inductive ending :=
| Finished
| Exit (code : nat).

(** [main]; [payload] is what the SightMap API sends when it answers. *)
Definition main (cfg : env) (payload : option (list api_unit)) : M ending :=
  let source := "sightmap" in
  let snapshotDate := default (todayYYYYMMDD cfg) (SNAPSHOT_DATE cfg) in
  payload <- fetchSightmapLandingPage payload ;;
  let unitsToday := extractUnits payload in
  if Nat.eqb (List.length unitsToday) 0 then ret (Exit 2)
  else
    prevUnits <- loadLatestSnapshotUnits (SIGHTMAP_PROPERTY_ID cfg) snapshotDate ;;
    let '(appearedKeys, disappearedKeys) := diffUnits prevUnits unitsToday in
    upsertSnapshot (SIGHTMAP_PROPERTY_ID cfg) snapshotDate unitsToday ;;;
    deleteEventsForDay (SIGHTMAP_PROPERTY_ID cfg) snapshotDate source ;;;
    insertEvents (main_events (SIGHTMAP_PROPERTY_ID cfg) snapshotDate source
                              appearedKeys disappearedKeys unitsToday) ;;;
    ret Finished.

End SightMap.

(* ===================================================================== *)
(** * Specification predicates *)
(* ===================================================================== *)

(** What the specification asks of a diff [r = (appeared, disappeared)] of
    the key sets [A] (previous) and [B] (current). *)
Definition diff_correct (A B : gset string) (r : list string * list string) : Prop :=
  list_to_set r.1 = B ∖ A ∧
  list_to_set r.2 = A ∖ B ∧
  list_to_set r.1 ## (list_to_set r.2 : gset string) ∧
  (A ∖ list_to_set r.2) ∪ list_to_set r.1 = B ∧
  NoDup r.1 ∧ NoDup r.2.

(** The key set of a unit list under each script's way of keying a unit. *)
Definition map_key_set (units : list unit) : gset string :=
  list_to_set (JS.map_keys (DiffSnapshots.buildMap units)).

Definition rentcafe_key_set (units : list unit) : gset string :=
  list_to_set (JS.filter_Boolean (map RentCafe.unitKeyForEvents units)).

Definition prospectportal_key_set (units : list unit) : gset string :=
  list_to_set (JS.filter_Boolean (map unit_key units)).

(** [with_unit_number u n] is [{ ...u, unit_number: n }]. *)
Definition with_unit_number (u : unit) (n : JS.field) : unit :=
  {| unit_key := unit_key u; unit_id := unit_id u; unit_number := n;
     available_on := available_on u; meta_page_url := meta_page_url u;
     meta_price_text := meta_price_text u; meta_raw := meta_raw u |}.

(** [{ unit_number: n }], every other field missing. *)
Definition only_unit_number (n : string) : unit :=
  {| unit_key := None; unit_id := None; unit_number := Some n;
     available_on := None; meta_page_url := None;
     meta_price_text := None; meta_raw := None |}.

(** The first element of [l] whose key is [k]. *)
Definition first_with {A} (key : A → string) (k : string) (l : list A) : option A :=
  List.find (fun a => String.eqb (key a) k) l.

(** The values [buildMap] is about to store under [k], in input order. *)
Definition entries_for (k : string) (units : list unit) : list DiffSnapshots.entry :=
  omap (fun u => match DiffSnapshots.buildMap_entry u with
                 | Some (k', e) => if String.eqb k' k then Some e else None
                 | None => None
                 end) units.

(** The shape the two scrapers' dedupe loops share: [item] decides whether
    an input is skipped, [key] is the key it is remembered under. *)
Definition keep_first_step {A B} (item : A → option B) (key : B → string)
    (st : list B * list string) (a : A) : list B * list string :=
  match item a with
  | None => st
  | Some b => if JS.set_has (key b) st.2 then st
              else (st.1 ++ [b], JS.set_add (key b) st.2)
  end.

(** The invariant of such a loop: the set [seen] holds the keys of the
    records kept so far, each once. *)
Definition seen_ok {B} (key : B → string) (st : list B * list string) : Prop :=
  (∀ k, k ∈ st.2 ↔ k ∈ map key st.1) ∧ NoDup (map key st.1).

(** [scrapeRentCafeUrls] skips a record whose key is empty. *)
Definition rentcafe_item (u : unit) : option unit :=
  if negb (JS.truthy (RentCafe.dedupe_key u)) then None else Some u.

(** The key [scrapeProspectPortalUnits] remembers a unit under. *)
Definition prospectportal_key (u : unit) : string := JS.str_or_empty (unit_key u).

(** [{ unit_id: id, unit_number: number }] with the given availability
    text, every other field missing. *)
Definition raw_unit (id number availability : JS.field) : unit :=
  {| unit_key := None; unit_id := id; unit_number := number;
     available_on := availability; meta_page_url := None;
     meta_price_text := None; meta_raw := None |}.

(** The store answers every request without an error. *)
Definition no_faults (w : Supabase.world) : Prop :=
  ∀ t, Supabase.faults w t = None.

(** [rerun n c]: the step [c] run [n] times in a row. *)
Fixpoint rerun {A} (n : nat) (c : Supabase.M A) : Supabase.M () :=
  match n with
  | O => Supabase.ret ()
  | S n' => c ;;; rerun n' c
  end.

(** The stored event rows of one (property, day, source), and the rest. *)
Definition rows_of (p : string) (d : date) (s : string) (w : Supabase.world) : list event :=
  List.filter (Supabase.event_matches p d s) (Supabase.unit_events w).

Definition rows_not_of (p : string) (d : date) (s : string) (w : Supabase.world)
  : list event :=
  List.filter (fun e => negb (Supabase.event_matches p d s e)) (Supabase.unit_events w).

(** A step that, on a store that answers, returns and leaves the rows of
    (p, d, s) equal to [rows], after the rows it found for other tuples. *)
Definition replaces {A} (p : string) (d : date) (s : string) (rows : list event)
    (c : Supabase.M A) : Prop :=
  ∀ w, no_faults w →
    ∃ a w', c w = (Supabase.Ok a, w') ∧
            Supabase.unit_events w' = rows_not_of p d s w ++ rows ∧
            no_faults w'.

(** The units [scrapeRentCafeUrls] returns when every page opens:
    [pages url] is what the extraction finds on the page at [url]. *)
Definition scraped_units (pages : string → option (list unit)) (urls : list string)
  : list unit :=
  (fold_left (fun st url => RentCafe.dedupe_units st (default [] (pages url)))
             urls ([], [])).1.

(** A world with the given tables and pages, a store that answers every
    request, and an empty console. *)
Definition healthy_world (snapshots : list snapshot) (events : list event)
    (props : list property) (pages : string → option (list unit)) : Supabase.world :=
  Supabase.World snapshots events props pages (fun _ => None) 0 [].

(** The property a console line of the diff script reports on. *)
Definition line_property (l : Supabase.log_line) : option string :=
  match l with
  | Supabase.LogSkip id => Some id
  | Supabase.LogDiff id _ _ _ _ => Some id
  | Supabase.LogError id _ => Some id
  | _ => None
  end.

(** ** Sample data *)

Definition unit_101 : unit := raw_unit (Some "unit:101") (Some "101") (Some "Available Now").
Definition unit_102 : unit := raw_unit (Some "unit:102") (Some "102") (Some "Available Now").
Definition unit_103 : unit := raw_unit (Some "unit:103") None None.

(** A unit whose [unit_id] is a [unit:] key and whose unit number differs
    from the number in the key. *)
Definition unit_217A : unit := raw_unit (Some "unit:217") (Some "217A") None.

Definition diff_cfg : DiffSnapshots.env :=
  DiffSnapshots.Env "" None "snapshot".

Definition rentcafe_cfg : RentCafe.env :=
  RentCafe.Env "" [] "snapshot" 0 (Some 20) 20.

(** Two RentCafe properties; the page of the first does not open. *)
Definition property_1 : property :=
  Property "p1" "First" "RentCafe" ["https://first.example/availability"].
Definition property_2 : property :=
  Property "p2" "Second" "RentCafe" ["https://second.example/availability"].

Definition first_page_down (url : string) : option (list unit) :=
  if String.eqb url "https://second.example/availability"
  then Some [unit_102; unit_103] else None.

Definition both_pages_up (url : string) : option (list unit) :=
  if String.eqb url "https://first.example/availability" then Some [unit_101]
  else if String.eqb url "https://second.example/availability"
       then Some [unit_102; unit_103] else None.

(** ** Predicates for the further properties *)

(** The character [c] occurs in [s]. *)
Fixpoint has_char (c : ascii) (s : string) : bool :=
  match s with
  | EmptyString => false
  | String a s' => Ascii.eqb a c || has_char c s'
  end.

(** A URL as [parseCsvUrls] returns it: not empty, trimmed, without a comma. *)
Definition clean_url (x : string) : Prop :=
  x ≠ "" ∧ JS.trim x = x ∧ has_char "," x = false.

(** The columns of the uniqueness constraint of [unit_snapshots]. *)
Definition snapshot_key (r : snapshot) : string * date :=
  (s_property_id r, snapshot_date r).

Definition keys_unique (t : list snapshot) : Prop := NoDup (map snapshot_key t).

(** The row [r] has the key [k]. *)
Definition has_key (k : string * date) (r : snapshot) : bool :=
  String.eqb (s_property_id r) k.1 && Nat.eqb (snapshot_date r) k.2.

(** Rows in the order the newest comes first. *)
Definition newest_first (l : list snapshot) : Prop :=
  StronglySorted (fun a b => (snapshot_date b <= snapshot_date a)%nat) l.

(** The rows [getLastTwoSnapshots] chooses from: the rows of the property,
    not newer than [SNAPSHOT_DATE] when that is set. *)
Definition selected (cfg : DiffSnapshots.env) (p : string) (w : Supabase.world)
    (x : snapshot) : Prop :=
  x ∈ Supabase.unit_snapshots w ∧ s_property_id x = p ∧
  match DiffSnapshots.SNAPSHOT_DATE cfg with
  | Some d => (snapshot_date x <= d)%nat
  | None => True
  end.

(** The event rows that do not come from the source [src]. *)
Definition rows_not_from (src : string) (w : Supabase.world) : list event :=
  List.filter (fun e => negb (String.eqb (source e) src)) (Supabase.unit_events w).

(** A store that answers its first request and fails the second. *)
Definition second_request_fails (t : nat) : option string :=
  if Nat.eqb t 1 then Some "insert failed" else None.

(** The units the RentCafe runner diffs against: those of the newest
    snapshot of the property dated before [today], or none. *)
Definition rentcafe_baseline (id : string) (today : date) (t : list snapshot) : list unit :=
  match head (Supabase.order_desc
                (List.filter (fun r => String.eqb (s_property_id r) id &&
                                       Nat.ltb (snapshot_date r) today) t)) with
  | Some r => units_json r
  | None => []
  end.

(** The units the ProspectPortal and SightMap scrapers diff against:
    those of the newest snapshot of the property dated [day] or before,
    or none. *)
Definition baseline_up_to (id : string) (day : date) (t : list snapshot)
  : list unit :=
  match head (Supabase.order_desc
                (List.filter (fun r => String.eqb (s_property_id r) id &&
                                       Nat.leb (snapshot_date r) day) t)) with
  | Some r => units_json r
  | None => []
  end.

(** A store that fails its request number [n] (counted from 0) and
    answers all the others. *)
Definition request_fails (n : nat) (t : nat) : option string :=
  if Nat.eqb t n then Some "store unavailable" else None.

(** The keys [buildMap] meets, in input order, one per keyed unit. *)
Definition keys_met (units : list unit) : list string :=
  (omap DiffSnapshots.buildMap_entry units).*1.

Definition prospectportal_cfg : ProspectPortal.env :=
  ProspectPortal.Env "p1" "prospectportal" (Some 20) 20.

(** Two units as [scrapeProspectPortalUnits] writes them. *)
Definition canonical_102 : unit :=
  Unit (Some "unit:102") (Some "unit:102") (Some "102") (Some "Available") None None None.
Definition canonical_103 : unit :=
  Unit (Some "unit:103") (Some "unit:103") (Some "103") (Some "Available") None None None.

(** A store with three snapshots of [p1] and one of [p2], in no order. *)
Definition four_snapshots : Supabase.world :=
  healthy_world [Snapshot "p1" 18 [unit_101]; Snapshot "p1" 20 [unit_102];
                 Snapshot "p2" 21 []; Snapshot "p1" 19 [unit_101; unit_102]]
                [] [] (fun _ => None).

(** A unit as [extractUnits] of the SightMap scraper writes it: a
    non-empty unit number [n] and the key [unit:n]. *)
Definition keyed_by_number (u : unit) : Prop :=
  ∃ n, unit_number u = Some n ∧ n ≠ "" ∧ unit_key u = Some ("unit:" +:+ n).

(** The number an event row gets from its key alone. *)
Definition number_in_key (k : string) : JS.field :=
  if JS.startsWith k "unit:" then Some (JS.slice 5 k) else None.

Definition sightmap_cfg : SightMap.env := SightMap.Env "p1" (Some 20) 20.

Definition payload_102_103 : option (list SightMap.api_unit) :=
  Some [SightMap.ApiUnit "945458" (Some " 102 ") (Some "2026-01-05");
        SightMap.ApiUnit "945459" (Some "103") None;
        SightMap.ApiUnit "945460" None None].

(** A payload without usable units: no unit has a unit number. *)
Definition payload_no_numbers : option (list SightMap.api_unit) :=
  Some [SightMap.ApiUnit "945460" None None;
        SightMap.ApiUnit "945461" (Some "  ") None].

(* ===================================================================== *)
(** * Facts about the containers *)
(* ===================================================================== *)

Section Containers.
Import JS.

Lemma set_has_elem (k : string) (s : list string) : set_has k s = true ↔ k ∈ s.
Proof.
  unfold set_has. rewrite existsb_exists. split.
  - intros (x & Hx & Heq). apply String.eqb_eq in Heq. subst.
    by apply list_elem_of_In.
  - intros Hk. exists k. split; [by apply list_elem_of_In | apply String.eqb_refl].
Qed.

Lemma set_has_not_elem (k : string) (s : list string) :
  negb (set_has k s) ↔ k ∉ s.
Proof.
  rewrite <- set_has_elem. destruct (set_has k s); simpl; split; try done.
Qed.

Lemma set_add_elem (k x : string) (s : list string) :
  x ∈ set_add k s ↔ x = k ∨ x ∈ s.
Proof.
  unfold set_add. destruct (set_has k s) eqn:E.
  - apply set_has_elem in E. split; [by right | intros [-> | ?]; done].
  - rewrite elem_of_app, list_elem_of_singleton. tauto.
Qed.

Lemma set_add_NoDup (k : string) (s : list string) : NoDup s → NoDup (set_add k s).
Proof.
  intros Hs. unfold set_add. destruct (set_has k s) eqn:E; [done |].
  apply NoDup_app. split_and!; [done | | apply NoDup_singleton].
  intros x Hx Hk. apply list_elem_of_singleton in Hk. subst.
  apply set_has_elem in Hx. congruence.
Qed.

Lemma fold_set_add_elem (l s : list string) (x : string) :
  x ∈ fold_left (fun s k => set_add k s) l s ↔ x ∈ l ∨ x ∈ s.
Proof.
  revert s. induction l as [| k l IH]; intros s; simpl.
  - rewrite elem_of_nil. tauto.
  - rewrite IH, set_add_elem, elem_of_cons. tauto.
Qed.

Lemma fold_set_add_NoDup (l s : list string) :
  NoDup s → NoDup (fold_left (fun s k => set_add k s) l s).
Proof.
  revert s. induction l as [| k l IH]; intros s Hs; simpl; [done |].
  by apply IH, set_add_NoDup.
Qed.

Lemma new_Set_elem (l : list string) (x : string) : x ∈ new_Set l ↔ x ∈ l.
Proof. unfold new_Set. rewrite fold_set_add_elem, elem_of_nil. tauto. Qed.

Lemma new_Set_NoDup (l : list string) : NoDup (new_Set l).
Proof. apply fold_set_add_NoDup, NoDup_nil_2. Qed.

(** The two filters every diff function ends with compute the two set
    differences. *)
Lemma set_difference_correct (a b : list string) :
  diff_correct (list_to_set a) (list_to_set b)
    (filter (fun k => negb (set_has k (new_Set a))) (new_Set b),
     filter (fun k => negb (set_has k (new_Set b))) (new_Set a)).
Proof.
  assert (Happ : list_to_set
                   (filter (fun k => negb (set_has k (new_Set a))) (new_Set b))
                 =@{gset string} list_to_set b ∖ list_to_set a).
  { apply set_eq. intros x. simpl.
    rewrite elem_of_list_to_set, list_elem_of_filter, set_has_not_elem,
      !new_Set_elem, elem_of_difference, !elem_of_list_to_set. tauto. }
  assert (Hdis : list_to_set
                   (filter (fun k => negb (set_has k (new_Set b))) (new_Set a))
                 =@{gset string} list_to_set a ∖ list_to_set b).
  { apply set_eq. intros x. simpl.
    rewrite elem_of_list_to_set, list_elem_of_filter, set_has_not_elem,
      !new_Set_elem, elem_of_difference, !elem_of_list_to_set. tauto. }
  unfold diff_correct. simpl. rewrite Happ, Hdis. split_and!; try done.
  - apply elem_of_disjoint. intros x. rewrite !elem_of_difference. tauto.
  - apply set_eq. intros x.
    rewrite elem_of_union, !elem_of_difference.
    destruct (decide (x ∈ (list_to_set a : gset string)));
      destruct (decide (x ∈ (list_to_set b : gset string))); tauto.
  - apply NoDup_filter, new_Set_NoDup.
  - apply NoDup_filter, new_Set_NoDup.
Qed.

End Containers.

(* ===================================================================== *)
(** * The diff engine *)
(* ===================================================================== *)

Section DiffEngine.
Import JS.

Lemma diffKeys_correct {V W} (prevMap : list (string * V)) (currMap : list (string * W)) :
  diff_correct (list_to_set (map_keys prevMap)) (list_to_set (map_keys currMap))
               (DiffSnapshots.diffKeys prevMap currMap).
Proof. apply set_difference_correct. Qed.

(** C1.  For every pair of unit lists [prev] and [curr], each of the
    three diff functions returns [appeared] equal to the set of keys of
    [curr] not in [prev] and [disappeared] equal to the set of keys of
    [prev] not in [curr]; the two results are disjoint, and removing
    [disappeared] from the keys of [prev] and adding [appeared] gives
    exactly the keys of [curr]. *)
Theorem diff_engine_set_algebra (prev curr : list unit) :
  diff_correct (map_key_set prev) (map_key_set curr)
    (DiffSnapshots.diffKeys (DiffSnapshots.buildMap prev) (DiffSnapshots.buildMap curr)) ∧
  diff_correct (rentcafe_key_set prev) (rentcafe_key_set curr)
    (RentCafe.diffUnitKeys prev curr) ∧
  diff_correct (prospectportal_key_set prev) (prospectportal_key_set curr)
    (ProspectPortal.diffKeys prev curr).
Proof.
  split_and!.
  - apply diffKeys_correct.
  - apply set_difference_correct.
  - apply set_difference_correct.
Qed.

End DiffEngine.

(* ===================================================================== *)
(** * Trimming *)
(* ===================================================================== *)

Section Trim.
Import JS.

Lemma append_nil (t : string) : "" +:+ t = t.
Proof. reflexivity. Qed.

Lemma append_cons (c : ascii) (s t : string) : String c s +:+ t = String c (s +:+ t).
Proof. reflexivity. Qed.

Lemma trimStart_all_space (s : string) : all_space s = true → trimStart s = "".
Proof.
  induction s as [| c s IH]; simpl; [done |].
  intros [Hc Hs]%andb_true_iff. rewrite Hc. by apply IH.
Qed.

Lemma trimStart_pad (ws s : string) :
  all_space ws = true → trimStart (ws +:+ s) = trimStart s.
Proof.
  induction ws as [| c ws IH]; simpl; [done |].
  intros [Hc Hs]%andb_true_iff. rewrite ?append_cons. simpl. rewrite Hc. by apply IH.
Qed.

Lemma trimEnd_all_space (s : string) : all_space s = true → trimEnd s = "".
Proof.
  induction s as [| c s IH]; simpl; [done |].
  intros [Hc Hs]%andb_true_iff. rewrite (IH Hs), Hc. done.
Qed.

Lemma trimEnd_pad (s ws : string) :
  all_space ws = true → trimEnd (s +:+ ws) = trimEnd s.
Proof.
  intros Hws. induction s as [| c s IH].
  - rewrite append_nil. by apply trimEnd_all_space.
  - rewrite ?append_cons. simpl. by rewrite IH.
Qed.

Lemma trimStart_append (s t : string) :
  trimStart (s +:+ t) = if all_space s then trimStart t else trimStart s +:+ t.
Proof.
  induction s as [| c s IH]; [done |].
  rewrite ?append_cons. simpl.
  destruct (is_space c); simpl; [apply IH | done].
Qed.

(** Padding a string with whitespace on both sides does not change what
    [trim] returns. *)
Lemma trim_pad (a s b : string) :
  all_space a = true → all_space b = true → trim (a +:+ s +:+ b) = trim s.
Proof.
  intros Ha Hb. unfold trim. rewrite (trimStart_pad a _ Ha), trimStart_append.
  destruct (all_space s) eqn:Hs.
  - by rewrite (trimStart_all_space b Hb), (trimStart_all_space s Hs).
  - by apply trimEnd_pad.
Qed.

Lemma trimEnd_cons (c : ascii) (s : string) :
  trimEnd s ≠ "" → trimEnd (String c s) = String c (trimEnd s).
Proof. simpl. destruct (trimEnd s); done. Qed.

Lemma trimEnd_idem (s : string) : trimEnd (trimEnd s) = trimEnd s.
Proof.
  induction s as [| c s IH]; simpl; [done |].
  destruct (trimEnd s) as [| d t] eqn:E.
  - destruct (is_space c) eqn:Hc; simpl; [done | by rewrite Hc].
  - change (trimEnd (String c (String d t)) = String c (String d t)).
    rewrite trimEnd_cons; rewrite IH; done.
Qed.

(** A string that does not begin with whitespace keeps its first
    character under [trimEnd]. *)
Lemma trimStart_trimEnd (s : string) :
  trimStart s = s → trimStart (trimEnd s) = trimEnd s.
Proof.
  destruct s as [| c s]; simpl; [done |].
  destruct (is_space c) eqn:Hc.
  - intros H. exfalso.
    assert (Hlen : (String.length (trimStart s) <= String.length s)%nat).
    { clear. induction s as [| d s IH]; simpl; [lia |].
      destruct (is_space d); simpl; lia. }
    rewrite H in Hlen. simpl in Hlen. lia.
  - intros _. destruct (trimEnd s); simpl; by rewrite Hc.
Qed.

Lemma trimStart_idem (s : string) : trimStart (trimStart s) = trimStart s.
Proof.
  induction s as [| c s IH]; simpl; [done |].
  destruct (is_space c) eqn:Hc; [done | simpl; by rewrite Hc].
Qed.

Lemma trim_idem (s : string) : trim (trim s) = trim s.
Proof.
  unfold trim. rewrite trimStart_trimEnd by apply trimStart_idem.
  apply trimEnd_idem.
Qed.

End Trim.

(* ===================================================================== *)
(** * The key normalizers *)
(* ===================================================================== *)

Section KeyNormalizer.
Import JS.

Lemma truthy_true (s : string) : truthy s = true ↔ s ≠ "".
Proof. destruct s; simpl; split; done. Qed.

Lemma truthy_false (s : string) : truthy s = false ↔ s = "".
Proof. destruct s; simpl; split; done. Qed.

(** The trimmed unit number that [normalizeUnitKey] computes. *)
Lemma normalizeUnitKey_unfold (u : unit) :
  DiffSnapshots.normalizeUnitKey u =
    let unitId := str_or_empty (unit_id u) in
    let unitNumber := trim (str_or_empty (unit_number u)) in
    if startsWith unitId "unit:" then Some unitId
    else if truthy unitNumber then Some ("unit:" +:+ unitNumber)
    else if truthy unitId then Some ("id:" +:+ unitId)
    else None.
Proof.
  unfold DiffSnapshots.normalizeUnitKey, str_or_empty.
  destruct (unit_id u), (unit_number u); reflexivity.
Qed.

(** C3.  Two raw records that differ only by whitespace around the unit
    number (both numbers are the same core [c] padded with whitespace)
    get the same key from [normalizeUnitKey], and the same number and
    key from [normalizeUnitNumber] and [normalizeUnitKeyFromNumber];
    ["217"] and [" 217 "] both give [unit:217]. *)
Theorem whitespace_padding_same_key (u : unit) (c a1 b1 a2 b2 : string) :
  all_space a1 = true → all_space b1 = true →
  all_space a2 = true → all_space b2 = true →
  let n1 := Some (a1 +:+ c +:+ b1) in
  let n2 := Some (a2 +:+ c +:+ b2) in
  DiffSnapshots.normalizeUnitKey (with_unit_number u n1) =
    DiffSnapshots.normalizeUnitKey (with_unit_number u n2) ∧
  ProspectPortal.normalizeUnitNumber n1 = ProspectPortal.normalizeUnitNumber n2 ∧
  ProspectPortal.normalizeUnitKeyFromNumber n1 =
    ProspectPortal.normalizeUnitKeyFromNumber n2 ∧
  DiffSnapshots.normalizeUnitKey (only_unit_number "217") = Some "unit:217" ∧
  DiffSnapshots.normalizeUnitKey (only_unit_number " 217 ") = Some "unit:217" ∧
  ProspectPortal.normalizeUnitKeyFromNumber (Some "217") = Some "unit:217" ∧
  ProspectPortal.normalizeUnitKeyFromNumber (Some " 217 ") = Some "unit:217".
Proof.
  intros Ha1 Hb1 Ha2 Hb2 n1 n2.
  assert (Htrim : trim (a1 +:+ c +:+ b1) = trim (a2 +:+ c +:+ b2))
    by (by rewrite !trim_pad).
  split_and!; try reflexivity.
  - rewrite !normalizeUnitKey_unfold. simpl. by rewrite Htrim.
  - unfold ProspectPortal.normalizeUnitNumber. simpl. by rewrite Htrim.
  - unfold ProspectPortal.normalizeUnitKeyFromNumber,
      ProspectPortal.normalizeUnitNumber. simpl. by rewrite Htrim.
Qed.

Lemma whitespace_padding_same_key_witness :
  DiffSnapshots.normalizeUnitKey (with_unit_number (only_unit_number "") (Some "217")) =
  DiffSnapshots.normalizeUnitKey (with_unit_number (only_unit_number "") (Some " 217 ")).
Proof.
  apply (whitespace_padding_same_key (only_unit_number "") "217" "" "" " " " ");
    reflexivity.
Defined.

(** [unit:123] parses back to [123]. *)
Lemma unitNumberFromKey_unit (n : string) :
  DiffSnapshots.unitNumberFromKey (Some ("unit:" +:+ n)) = or_null n.
Proof. reflexivity. Qed.

Lemma truthy_prefixed (p s : string) : p ≠ "" → truthy (p +:+ s) = true.
Proof. by destruct p. Qed.

(** The first operand of the unit number that [buildMap] stores. *)
Lemma entry_number (u : unit) (x : field) :
  or_else (match unit_number u with
           | Some s => Some (trim s)
           | None => None
           end) x =
  let n := trim (str_or_empty (unit_number u)) in
  if truthy n then Some n else x.
Proof. destruct (unit_number u); reflexivity. Qed.

(** C4.  [normalizeUnitKey], with the unit number that [buildMap] stores
    next to the key, applies the rules in order: a [unit_id] that is
    already a [unit:] key is used verbatim; otherwise a non-empty trimmed
    unit number [n] gives the key [unit:n] and the unit number [n];
    otherwise a non-empty [unit_id] gives the key [id:unit_id] and a null
    unit number; otherwise there is no key and the record is skipped. *)
Theorem normalizer_rules_in_order (u : unit) :
  let unitId := str_or_empty (unit_id u) in
  let n := trim (str_or_empty (unit_number u)) in
  (startsWith unitId "unit:" = true →
     DiffSnapshots.normalizeUnitKey u = Some unitId ∧
     ∃ e, DiffSnapshots.buildMap_entry u = Some (unitId, e)) ∧
  (startsWith unitId "unit:" = false → n ≠ "" →
     DiffSnapshots.normalizeUnitKey u = Some ("unit:" +:+ n) ∧
     DiffSnapshots.buildMap_entry u =
       Some ("unit:" +:+ n, DiffSnapshots.Entry (Some n) u)) ∧
  (startsWith unitId "unit:" = false → n = "" → unitId ≠ "" →
     DiffSnapshots.normalizeUnitKey u = Some ("id:" +:+ unitId) ∧
     DiffSnapshots.buildMap_entry u =
       Some ("id:" +:+ unitId, DiffSnapshots.Entry None u)) ∧
  (startsWith unitId "unit:" = false → n = "" → unitId = "" →
     DiffSnapshots.normalizeUnitKey u = None ∧
     DiffSnapshots.buildMap_entry u = None).
Proof.
  intros unitId n.
  unfold DiffSnapshots.buildMap_entry.
  rewrite normalizeUnitKey_unfold. fold unitId n. cbv zeta.
  split_and!.
  - intros Hpre. rewrite Hpre. split; [done |].
    assert (Ht : truthy unitId = true) by (by destruct unitId).
    rewrite Ht. simpl. eauto.
  - intros Hpre Hn. rewrite Hpre.
    apply truthy_true in Hn as Ht. rewrite Ht. split; [done |].
    rewrite truthy_prefixed by done. cbn [negb].
    rewrite entry_number. fold n. cbv zeta.
    rewrite Ht. unfold or_else. by rewrite Ht.
  - intros Hpre Hn Hid. rewrite Hpre, Hn.
    apply truthy_true in Hid as Ht. cbn [truthy]. rewrite Ht. split; [done |].
    rewrite truthy_prefixed by done. cbn [negb].
    rewrite entry_number. fold n. cbv zeta. by rewrite Hn.
  - intros Hpre Hn Hid. rewrite Hpre, Hn, Hid. done.
Qed.

Lemma normalizer_rules_in_order_witness :
  DiffSnapshots.normalizeUnitKey (only_unit_number " 217 ") = Some "unit:217" ∧
  DiffSnapshots.buildMap_entry (only_unit_number " 217 ") =
    Some ("unit:217", DiffSnapshots.Entry (Some "217") (only_unit_number " 217 ")).
Proof.
  apply (normalizer_rules_in_order (only_unit_number " 217 ")); [reflexivity | done].
Defined.

Lemma trimEnd_fixed_cons (c : ascii) (s : string) :
  trimEnd s = s → s ≠ "" → trimEnd (String c s) = String c s.
Proof. intros Hs Hne. rewrite trimEnd_cons; by rewrite Hs. Qed.

Lemma trim_unit_prefixed (n : string) :
  trimEnd n = n → n ≠ "" → trim ("unit:" +:+ n) = "unit:" +:+ n.
Proof.
  intros Hn Hne. unfold trim.
  change (trimStart ("unit:" +:+ n)) with ("unit:" +:+ n).
  change ("unit:" +:+ n) with
    (String "u" (String "n" (String "i" (String "t" (String ":" n))))).
  repeat (apply trimEnd_fixed_cons; [| done]). done.
Qed.

(** What [normalizeUnitKeyFromNumber] returns is a trimmed, non-empty
    string that starts with [unit:]. *)
Lemma normalizeUnitKeyFromNumber_Some (x : field) (k : string) :
  ProspectPortal.normalizeUnitKeyFromNumber x = Some k →
  trim k = k ∧ k ≠ "" ∧ startsWith k "unit:" = true.
Proof.
  unfold ProspectPortal.normalizeUnitKeyFromNumber,
    ProspectPortal.normalizeUnitNumber, or_null.
  set (n := trim (str_or_empty x)).
  destruct (truthy n) eqn:Ht; [| done]. rewrite Ht. cbn [negb].
  apply truthy_true in Ht.
  destruct (startsWith n "unit:") eqn:Hpre; intros [= <-].
  - split_and!; [apply trim_idem | done | done].
  - split_and!; [| done | done].
    apply trim_unit_prefixed; [apply trimEnd_idem | done].
Qed.

Lemma normalizeUnitKeyFromNumber_fixed (k : string) :
  trim k = k → k ≠ "" → startsWith k "unit:" = true →
  ProspectPortal.normalizeUnitKeyFromNumber (Some k) = Some k.
Proof.
  intros Htrim Hne Hpre.
  unfold ProspectPortal.normalizeUnitKeyFromNumber,
    ProspectPortal.normalizeUnitNumber, or_null, str_or_empty. simpl.
  rewrite Htrim. apply truthy_true in Hne. rewrite Hne. simpl.
  by rewrite Hne, Hpre.
Qed.

(** The units [scrapeProspectPortalUnits] persists carry their key in
    [unit_key] and in [unit_id]. *)
Lemma canonical_unit_key (r : ProspectPortal.extracted) (u : unit) :
  ProspectPortal.canonical_unit r = Some u →
  ∃ k, unit_key u = Some k ∧ unit_id u = Some k ∧
       ProspectPortal.normalizeUnitKeyFromNumber
         (ProspectPortal.normalizeUnitNumber (ProspectPortal.r_unit_number r)) = Some k.
Proof.
  unfold ProspectPortal.canonical_unit.
  destruct (ProspectPortal.normalizeUnitKeyFromNumber _) as [k |] eqn:E; [| done].
  destruct (negb (truthy k)); [done |]. intros [= <-]. eauto.
Qed.

Lemma canonical_units_from (rows : list ProspectPortal.extracted)
    (st : list unit * list string) (u : unit) :
  u ∈ (ProspectPortal.canonical_units st rows).1 →
  u ∈ st.1 ∨ ∃ r, r ∈ rows ∧ ProspectPortal.canonical_unit r = Some u.
Proof.
  unfold ProspectPortal.canonical_units.
  revert st. induction rows as [| r rows IH]; intros st; simpl; [by left |].
  intros Hu. apply IH in Hu as [Hu | (r' & Hr' & Hc)].
  - destruct st as [units seen]. unfold ProspectPortal.canonical_step in Hu.
    destruct (ProspectPortal.canonical_unit r) as [u' |] eqn:E; [| by left].
    destruct (set_has _ seen); [by left |].
    simpl in Hu. apply elem_of_app in Hu as [Hu | Hu%list_elem_of_singleton].
    + by left.
    + subst. right. exists r. split; [left | done].
  - right. exists r'. split; [by right | done].
Qed.

(** C10.  Normalizing a canonical [unit:] key again returns it
    unchanged: [normalizeUnitKeyFromNumber] is idempotent (and
    ["unit:217"] stays ["unit:217"]), [normalizeUnitKey] returns a
    [unit_id] that is a [unit:] key verbatim, and every unit that
    [scrapeProspectPortalUnits] persists keeps its [unit_key] when it is
    read back and normalized by either script. *)
Theorem canonical_key_idempotent :
  (∀ (x : field) (k : string),
     ProspectPortal.normalizeUnitKeyFromNumber x = Some k →
     ProspectPortal.normalizeUnitKeyFromNumber (Some k) = Some k) ∧
  ProspectPortal.normalizeUnitKeyFromNumber (Some "unit:217") = Some "unit:217" ∧
  (∀ (u : unit) (k : string),
     unit_id u = Some k → startsWith k "unit:" = true →
     DiffSnapshots.normalizeUnitKey u = Some k) ∧
  (∀ (rows : list ProspectPortal.extracted) (u : unit),
     u ∈ (ProspectPortal.canonical_units ([], []) rows).1 →
     ∃ k, unit_key u = Some k ∧
          DiffSnapshots.normalizeUnitKey u = Some k ∧
          ProspectPortal.normalizeUnitKeyFromNumber (unit_key u) = Some k ∧
          unit_key (ProspectPortal.rekey u) = Some k).
Proof.
  split_and!.
  - intros x k (? & ? & ?)%normalizeUnitKeyFromNumber_Some.
    by apply normalizeUnitKeyFromNumber_fixed.
  - reflexivity.
  - intros u k Hid Hpre. rewrite normalizeUnitKey_unfold, Hid. simpl.
    by rewrite Hpre.
  - intros rows u [Hu | (r & _ & Hc)]%canonical_units_from;
      [by apply elem_of_nil in Hu |].
    apply canonical_unit_key in Hc as (k & Hk & Hid & Hn).
    apply normalizeUnitKeyFromNumber_Some in Hn as (Htrim & Hne & Hpre).
    exists k. split_and!; [done | | |].
    + rewrite normalizeUnitKey_unfold, Hid. simpl. by rewrite Hpre.
    + rewrite Hk. by apply normalizeUnitKeyFromNumber_fixed.
    + unfold ProspectPortal.rekey. simpl. rewrite Hk. simpl.
      apply truthy_true in Hne. rewrite Hne. simpl. by rewrite Hne.
Qed.

Lemma canonical_key_idempotent_witness :
  ProspectPortal.normalizeUnitKeyFromNumber (Some "unit:217") = Some "unit:217".
Proof.
  apply (proj1 canonical_key_idempotent (Some " 217 ") "unit:217"). reflexivity.
Defined.

End KeyNormalizer.

(* ===================================================================== *)
(** * The canonical unit builders *)
(* ===================================================================== *)

Section Builders.
Import JS.

Lemma map_get_map_set {V} (k k' : string) (v : V) (m : list (string * V)) :
  map_get k (map_set k' v m) = if String.eqb k' k then Some v else map_get k m.
Proof.
  induction m as [| [k0 v0] m IH]; simpl.
  - done.
  - destruct (String.eqb k0 k') eqn:E0; simpl.
    + apply String.eqb_eq in E0 as ->. by destruct (String.eqb k' k).
    + rewrite IH. destruct (String.eqb k0 k) eqn:E1; [| done].
      apply String.eqb_eq in E1 as ->. rewrite String.eqb_sym in E0.
      by rewrite E0.
Qed.

(** [buildMap]: the value under a key is the one of the last record
    with that key. *)
Lemma buildMap_last_wins (units : list unit) (m : list (string * DiffSnapshots.entry))
    (k : string) :
  map_get k (fold_left DiffSnapshots.buildMap_step units m) =
    match last (entries_for k units) with
    | Some e => Some e
    | None => map_get k m
    end.
Proof.
  revert m. induction units as [| u units IH]; intros m; simpl; [done |].
  rewrite IH. unfold DiffSnapshots.buildMap_step.
  destruct (DiffSnapshots.buildMap_entry u) as [[k' e] |]; [| done].
  rewrite map_get_map_set.
  destruct (String.eqb k' k); [| done].
  rewrite last_cons. by destruct (last (entries_for k units)).
Qed.

Lemma buildMap_skip (u : unit) (before after : list unit) :
  DiffSnapshots.buildMap_entry u = None →
  DiffSnapshots.buildMap (before ++ u :: after) = DiffSnapshots.buildMap (before ++ after).
Proof.
  intros Hu. unfold DiffSnapshots.buildMap. rewrite !fold_left_app. simpl.
  unfold DiffSnapshots.buildMap_step at 2. by rewrite Hu.
Qed.

(** C5.  A raw record with no [unit:] key in [unit_id], an empty trimmed
    unit number and an empty or missing [unit_id] makes no entry: the
    unit map built from a list with the record is the map built from
    the list without it, so the record changes neither side of any
    diff.  An extracted row with an empty trimmed unit number makes no
    unit in [scrapeProspectPortalUnits] either. *)
Theorem unkeyable_record_dropped (u : unit) (r : ProspectPortal.extracted)
    (before after other : list unit)
    (rows1 rows2 : list ProspectPortal.extracted) (st : list unit * list string) :
  str_or_empty (unit_id u) = "" →
  trim (str_or_empty (unit_number u)) = "" →
  trim (str_or_empty (ProspectPortal.r_unit_number r)) = "" →
  DiffSnapshots.normalizeUnitKey u = None ∧
  DiffSnapshots.buildMap (before ++ u :: after) = DiffSnapshots.buildMap (before ++ after) ∧
  DiffSnapshots.diffKeys (DiffSnapshots.buildMap (before ++ u :: after))
                         (DiffSnapshots.buildMap other) =
    DiffSnapshots.diffKeys (DiffSnapshots.buildMap (before ++ after))
                           (DiffSnapshots.buildMap other) ∧
  DiffSnapshots.diffKeys (DiffSnapshots.buildMap other)
                         (DiffSnapshots.buildMap (before ++ u :: after)) =
    DiffSnapshots.diffKeys (DiffSnapshots.buildMap other)
                           (DiffSnapshots.buildMap (before ++ after)) ∧
  ProspectPortal.canonical_unit r = None ∧
  ProspectPortal.canonical_units st (rows1 ++ r :: rows2) =
    ProspectPortal.canonical_units st (rows1 ++ rows2).
Proof.
  intros Hid Hnum Hrow.
  assert (Hkey : DiffSnapshots.normalizeUnitKey u = None).
  { rewrite normalizeUnitKey_unfold. cbv zeta. by rewrite Hid, Hnum. }
  assert (Hentry : DiffSnapshots.buildMap_entry u = None).
  { unfold DiffSnapshots.buildMap_entry. by rewrite Hkey. }
  assert (Hcan : ProspectPortal.canonical_unit r = None).
  { unfold ProspectPortal.canonical_unit, ProspectPortal.normalizeUnitKeyFromNumber,
      ProspectPortal.normalizeUnitNumber. by rewrite Hrow. }
  split_and!; try done.
  - by apply buildMap_skip.
  - by rewrite buildMap_skip.
  - by rewrite buildMap_skip.
  - unfold ProspectPortal.canonical_units. rewrite !fold_left_app. simpl.
    unfold ProspectPortal.canonical_step at 2.
    destruct (fold_left _ rows1 st) as [units seen]. by rewrite Hcan.
Qed.

Lemma unkeyable_record_dropped_witness :
  DiffSnapshots.buildMap [only_unit_number "101"; only_unit_number "  "; only_unit_number "102"] =
  DiffSnapshots.buildMap [only_unit_number "101"; only_unit_number "102"].
Proof.
  apply (unkeyable_record_dropped (only_unit_number "  ")
           (ProspectPortal.Extracted (Some " ") None None None None)
           [only_unit_number "101"] [only_unit_number "102"] [] [] [] ([], []));
    reflexivity.
Defined.

(** ** Loops that keep the first record of a key *)

Section KeepFirst.
Context {A B : Type} (item : A → option B) (key : B → string).

Lemma first_with_cons (k : string) (b : B) (l : list B) :
  first_with key k (b :: l) =
    if String.eqb (key b) k then Some b else first_with key k l.
Proof. reflexivity. Qed.

Lemma first_with_app (k : string) (l1 l2 : list B) :
  first_with key k (l1 ++ l2) =
    match first_with key k l1 with
    | Some b => Some b
    | None => first_with key k l2
    end.
Proof.
  unfold first_with. induction l1 as [| b l1 IH]; simpl; [done |].
  by destruct (String.eqb (key b) k).
Qed.

Lemma first_with_None (k : string) (l : list B) :
  first_with key k l = None ↔ k ∉ map key l.
Proof.
  unfold first_with. induction l as [| b l IH]; simpl.
  - split; [intros _; apply not_elem_of_nil | done].
  - rewrite not_elem_of_cons. destruct (String.eqb (key b) k) eqn:E.
    + apply String.eqb_eq in E. split; [done | intros [? _]; congruence].
    + apply String.eqb_neq in E. rewrite IH. split; [| tauto].
      intros ?. split; [congruence | done].
Qed.

Lemma keep_first_step_ok (st : list B * list string) (a : A) :
  seen_ok key st → seen_ok key (keep_first_step item key st a).
Proof.
  intros [Hseen Hnd]. unfold keep_first_step.
  destruct (item a) as [b |]; [| done].
  destruct (set_has (key b) st.2) eqn:E; [done |].
  assert (Hfresh : key b ∉ map key st.1).
  { rewrite <- Hseen, <- set_has_elem. congruence. }
  split; simpl.
  - intros k. rewrite set_add_elem, map_app, elem_of_app, Hseen. simpl.
    rewrite list_elem_of_singleton. tauto.
  - rewrite map_app. apply NoDup_app. split_and!; [done | | apply NoDup_singleton].
    intros k Hk ->%list_elem_of_singleton. done.
Qed.

Lemma keep_first_ok (l : list A) (st : list B * list string) :
  seen_ok key st → seen_ok key (fold_left (keep_first_step item key) l st).
Proof.
  revert st. induction l as [| a l IH]; intros st Hst; simpl; [done |].
  by apply IH, keep_first_step_ok.
Qed.

(** The record kept for a key is the first one the loop met. *)
Lemma keep_first_find (l : list A) (st : list B * list string) (k : string) :
  seen_ok key st →
  first_with key k (fold_left (keep_first_step item key) l st).1 =
    match first_with key k st.1 with
    | Some b => Some b
    | None => first_with key k (omap item l)
    end.
Proof.
  revert st. induction l as [| a l IH]; intros st Hst; simpl.
  - by destruct (first_with key k st.1).
  - rewrite IH by by apply keep_first_step_ok.
    unfold keep_first_step. destruct (item a) as [b |]; [| done].
    destruct (set_has (key b) st.2) eqn:E; simpl.
    + apply set_has_elem, Hst in E.
      destruct (String.eqb (key b) k) eqn:Ek; [| done].
      apply String.eqb_eq in Ek. subst k.
      destruct (first_with key (key b) st.1) eqn:F; [done |].
      by apply first_with_None in F.
    + rewrite first_with_app.
      destruct (first_with key k st.1); [done |].
      rewrite ?first_with_cons. by destruct (String.eqb (key b) k).
Qed.
End KeepFirst.

Lemma seen_ok_empty {B} (key : B → string) : seen_ok key ([], []).
Proof. split; [done | apply NoDup_nil_2]. Qed.

Lemma dedupe_units_keep_first (units : list unit) (st : list unit * list string) :
  RentCafe.dedupe_units st units =
    fold_left (keep_first_step rentcafe_item RentCafe.dedupe_key) units st.
Proof.
  unfold RentCafe.dedupe_units. revert st.
  induction units as [| u units IH]; intros st; simpl; [done |].
  rewrite IH. f_equal. destruct st as [all seen].
  unfold RentCafe.dedupe_step, keep_first_step, rentcafe_item. simpl.
  by destruct (negb (truthy (RentCafe.dedupe_key u))).
Qed.

Lemma first_with_rentcafe_item (k : string) (units : list unit) :
  k ≠ "" →
  first_with RentCafe.dedupe_key k (omap rentcafe_item units) =
    first_with RentCafe.dedupe_key k units.
Proof.
  intros Hk. induction units as [| u units IH]; [done |].
  change (omap rentcafe_item (u :: units)) with
    (match rentcafe_item u with
     | Some y => y :: omap rentcafe_item units
     | None => omap rentcafe_item units
     end).
  unfold rentcafe_item at 1. rewrite (first_with_cons _ k u units).
  destruct (truthy (RentCafe.dedupe_key u)) eqn:E; simpl.
  - by rewrite IH.
  - apply truthy_false in E. rewrite E, IH.
    destruct (String.eqb "" k) eqn:Ek; [| done].
    apply String.eqb_eq in Ek. done.
Qed.

Lemma canonical_units_keep_first (rows : list ProspectPortal.extracted)
    (st : list unit * list string) :
  ProspectPortal.canonical_units st rows =
    fold_left (keep_first_step ProspectPortal.canonical_unit prospectportal_key)
              rows st.
Proof.
  unfold ProspectPortal.canonical_units. revert st.
  induction rows as [| r rows IH]; intros st; simpl; [done |].
  rewrite IH. f_equal. by destruct st as [units seen].
Qed.

(** C8, as the code has it.  For every key [k]: the cross-page loop of
    [scrapeRentCafeUrls] and the loop of [scrapeProspectPortalUnits]
    keep the first-seen record of [k] and no other record of [k], while
    [buildMap] holds under [k] the value made from the last record of
    [k]. *)
Theorem duplicates_first_in_scrapers_last_in_buildMap
    (units : list unit) (rows : list ProspectPortal.extracted) (k : string) :
  k ≠ "" →
  first_with RentCafe.dedupe_key k (RentCafe.dedupe_units ([], []) units).1 =
    first_with RentCafe.dedupe_key k units ∧
  NoDup (map RentCafe.dedupe_key (RentCafe.dedupe_units ([], []) units).1) ∧
  first_with prospectportal_key k (ProspectPortal.canonical_units ([], []) rows).1 =
    first_with prospectportal_key k (omap ProspectPortal.canonical_unit rows) ∧
  NoDup (map prospectportal_key (ProspectPortal.canonical_units ([], []) rows).1) ∧
  map_get k (DiffSnapshots.buildMap units) = last (entries_for k units).
Proof.
  intros Hk. split_and!.
  - rewrite dedupe_units_keep_first, keep_first_find by apply seen_ok_empty.
    simpl. by apply first_with_rentcafe_item.
  - rewrite dedupe_units_keep_first.
    apply (keep_first_ok rentcafe_item RentCafe.dedupe_key units ([], [])),
      seen_ok_empty.
  - rewrite canonical_units_keep_first, keep_first_find by apply seen_ok_empty.
    done.
  - rewrite canonical_units_keep_first.
    apply (keep_first_ok ProspectPortal.canonical_unit prospectportal_key rows ([], [])),
      seen_ok_empty.
  - unfold DiffSnapshots.buildMap. rewrite buildMap_last_wins.
    by destruct (last (entries_for k units)).
Qed.

Lemma duplicates_first_in_scrapers_last_in_buildMap_witness :
  map_get "unit:217"
    (DiffSnapshots.buildMap
       [raw_unit (Some "unit:217") (Some "217") (Some "Available Now");
        raw_unit (Some "unit:217") (Some "217B") None]) =
  last (entries_for "unit:217"
       [raw_unit (Some "unit:217") (Some "217") (Some "Available Now");
        raw_unit (Some "unit:217") (Some "217B") None]).
Proof.
  apply (duplicates_first_in_scrapers_last_in_buildMap _ [] "unit:217"). done.
Defined.

(** C8 as stated fails for [buildMap]: of two records with the key
    [unit:217], the map holds the fields of the second. *)
Lemma buildMap_keeps_last_record :
  ¬ (∀ (first later : unit) (k : string) (e : DiffSnapshots.entry),
       DiffSnapshots.buildMap_entry first = Some (k, e) →
       DiffSnapshots.normalizeUnitKey later = Some k →
       map_get k (DiffSnapshots.buildMap [first; later]) = Some e).
Proof.
  intros H.
  specialize (H (raw_unit (Some "unit:217") (Some "217") (Some "Available Now"))
                (raw_unit (Some "unit:217") (Some "217B") None)
                "unit:217" _ eq_refl eq_refl).
  vm_compute in H. discriminate H.
Qed.

End Builders.

(* ===================================================================== *)
(** * The event writers *)
(* ===================================================================== *)

Section EventWriter.
Import JS Supabase.

Lemma filter_matches_app (f : event → bool) (l rows : list event) :
  Forall (fun e => f e = true) rows →
  List.filter f (List.filter (fun e => negb (f e)) l ++ rows) = rows ∧
  List.filter (fun e => negb (f e)) (List.filter (fun e => negb (f e)) l ++ rows) =
    List.filter (fun e => negb (f e)) l.
Proof.
  intros Hrows. rewrite !List.filter_app.
  assert (H1 : List.filter f (List.filter (fun e => negb (f e)) l) = []).
  { clear. induction l as [| e l IH]; simpl; [done |].
    destruct (f e) eqn:E; simpl; [done | by rewrite E]. }
  assert (H2 : List.filter f rows = rows).
  { clear -Hrows.
    induction Hrows as [| e rows He _ IH]; simpl; [done | by rewrite He, IH]. }
  assert (H3 : List.filter (fun e => negb (f e)) rows = []).
  { clear -Hrows.
    induction Hrows as [| e rows He _ IH]; simpl; [done | by rewrite He]. }
  assert (H4 : List.filter (fun e => negb (f e)) (List.filter (fun e => negb (f e)) l) =
               List.filter (fun e => negb (f e)) l).
  { clear. induction l as [| e l IH]; simpl; [done |].
    destruct (f e) eqn:E; simpl; [done |]. by rewrite E, IH. }
  by rewrite H1, H2, H3, H4, app_nil_r.
Qed.

Lemma event_matches_refl (p : string) (d : date) (k : string) (n : field)
    (t : event_type) (s : string) :
  event_matches p d s (Event p d k n t s) = true.
Proof.
  unfold event_matches. simpl. by rewrite !String.eqb_refl, Nat.eqb_refl.
Qed.

Lemma all_match_map (p : string) (d : date) (s : string) (t : event_type)
    (number : string → field) (keys : list string) :
  Forall (fun e => event_matches p d s e = true)
         (map (fun k => Event p d k (number k) t s) keys).
Proof.
  apply Forall_forall. intros e (k & -> & _)%list_elem_of_fmap.
  apply event_matches_refl.
Qed.

Lemma writeEvents_rows_match (cfg : DiffSnapshots.env) (p : string) (d : date)
    (appearedKeys disappearedKeys : list string)
    (currMap : list (string * DiffSnapshots.entry)) :
  Forall (fun e => event_matches p d (DiffSnapshots.EVENT_SOURCE cfg) e = true)
         (DiffSnapshots.event_rows cfg p d appearedKeys disappearedKeys currMap).
Proof. apply Forall_app. split; apply all_match_map. Qed.

Lemma main_events_match (p s : string) (d : date) (prevUnitsRaw unitsToday : list unit) :
  Forall (fun e => event_matches p d s e = true)
         (ProspectPortal.main_events p s d prevUnitsRaw unitsToday).
Proof.
  unfold ProspectPortal.main_events.
  destruct (ProspectPortal.diffKeys _ _) as [a b].
  apply Forall_app. split; apply all_match_map.
Qed.

(** [writeEvents] deletes the rows of its tuple, then inserts its rows. *)
Lemma writeEvents_replaces (cfg : DiffSnapshots.env) (p : string) (d : date)
    (appearedKeys disappearedKeys : list string)
    (currMap : list (string * DiffSnapshots.entry)) :
  replaces p d (DiffSnapshots.EVENT_SOURCE cfg)
    (DiffSnapshots.event_rows cfg p d appearedKeys disappearedKeys currMap)
    (DiffSnapshots.writeEvents cfg p d appearedKeys disappearedKeys currMap).
Proof.
  intros w Hw. unfold DiffSnapshots.writeEvents.
  set (rows := DiffSnapshots.event_rows _ _ _ _ _ _).
  unfold bind, delete_events, insert_events, request, ret. simpl.
  rewrite Hw. simpl.
  destruct rows as [| e rows]; simpl.
  - do 2 eexists. split; [done |]. split; [by rewrite app_nil_r | done].
  - rewrite Hw. simpl. do 2 eexists. split; [done |]. done.
Qed.

Lemma replaceEventsForDay_replaces (p : string) (d : date) (s : string)
    (events : list event) :
  replaces p d s events (ProspectPortal.replaceEventsForDay p d s events).
Proof.
  intros w Hw. unfold ProspectPortal.replaceEventsForDay.
  unfold bind, delete_events, insert_events, request, ret. simpl.
  rewrite Hw. simpl.
  destruct events as [| e events]; simpl.
  - do 2 eexists. split; [done |]. split; [by rewrite app_nil_r | done].
  - rewrite Hw. simpl. do 2 eexists. split; [done |]. done.
Qed.

(** Rows stored for another source are among the rows of other tuples. *)
Lemma rows_of_other_source (p : string) (d : date) (s s' : string) (w w' : world) :
  s' ≠ s →
  rows_not_of p d s w' = rows_not_of p d s w →
  rows_of p d s' w' = rows_of p d s' w.
Proof.
  intros Hs Heq. unfold rows_of, rows_not_of in *.
  assert (Hsub : ∀ l, List.filter (event_matches p d s') l =
                      List.filter (event_matches p d s')
                        (List.filter (fun e => negb (event_matches p d s e)) l)).
  { induction l as [| e l IH]; simpl; [done |].
    destruct (event_matches p d s e) eqn:E; simpl.
    - destruct (event_matches p d s' e) eqn:E'; [| done].
      unfold event_matches in E, E'.
      apply andb_true_iff in E as [_ E]. apply andb_true_iff in E' as [_ E'].
      apply String.eqb_eq in E, E'. congruence.
    - by rewrite IH. }
  by rewrite (Hsub (unit_events w')), (Hsub (unit_events w)), Heq.
Qed.

(** Running a replacing step once or many times leaves the same rows. *)
Lemma rerun_replaces {A} (p : string) (d : date) (s : string) (rows : list event)
    (c : M A) (n : nat) (w : world) :
  replaces p d s rows c →
  Forall (fun e => event_matches p d s e = true) rows →
  no_faults w →
  ∃ w', rerun (S n) c w = (Ok (), w') ∧
        rows_of p d s w' = rows ∧
        rows_not_of p d s w' = rows_not_of p d s w ∧
        unit_events w' = rows_not_of p d s w ++ rows.
Proof.
  intros Hc Hrows. revert w. induction n as [| n IH]; intros w Hw.
  - destruct (Hc w Hw) as (a & w' & Hrun & Hev & _).
    exists w'. unfold rows_of, rows_not_of in *.
    simpl. unfold bind, ret. rewrite Hrun, Hev.
    destruct (filter_matches_app (event_matches p d s) (unit_events w) rows Hrows)
      as [H1 H2].
    by rewrite H1, H2.
  - destruct (Hc w Hw) as (a & w1 & Hrun & Hev & Hw1).
    destruct (IH w1 Hw1) as (w' & Hrest & Hof & Hnot & Hall).
    exists w'. change (rerun (S (S n)) c) with (c ;;; rerun (S n) c).
    unfold bind at 1. rewrite Hrun, Hrest.
    assert (Hnot1 : rows_not_of p d s w1 = rows_not_of p d s w).
    { unfold rows_not_of. rewrite Hev.
      by destruct (filter_matches_app (event_matches p d s) (unit_events w) rows Hrows). }
    by rewrite Hall, Hnot, Hnot1.
Qed.

(** C2.  On a store that answers its requests, running the event writer
    once or any number of times more with the same diff leaves, for the
    (property, day, source) tuple, exactly the rows of that diff, and
    leaves every row of another tuple, so every row of another source,
    as it was.  This holds for [writeEvents] of the diff script and for
    [replaceEventsForDay] as [main] of the ProspectPortal scraper calls
    it. *)
Theorem event_replacement_idempotent
    (cfg : DiffSnapshots.env) (propertyId : string) (eventDate : date)
    (appearedKeys disappearedKeys : list string)
    (currMap : list (string * DiffSnapshots.entry))
    (EVENT_SOURCE : string) (prevUnitsRaw unitsToday : list unit)
    (w : world) (n : nat) :
  no_faults w →
  let rows := DiffSnapshots.event_rows cfg propertyId eventDate
                appearedKeys disappearedKeys currMap in
  let events := ProspectPortal.main_events propertyId EVENT_SOURCE eventDate
                  prevUnitsRaw unitsToday in
  (∃ w', rerun (S n) (DiffSnapshots.writeEvents cfg propertyId eventDate
                        appearedKeys disappearedKeys currMap) w = (Ok (), w') ∧
         rows_of propertyId eventDate (DiffSnapshots.EVENT_SOURCE cfg) w' = rows ∧
         rows_not_of propertyId eventDate (DiffSnapshots.EVENT_SOURCE cfg) w' =
           rows_not_of propertyId eventDate (DiffSnapshots.EVENT_SOURCE cfg) w ∧
         ∀ s', s' ≠ DiffSnapshots.EVENT_SOURCE cfg →
               rows_of propertyId eventDate s' w' = rows_of propertyId eventDate s' w) ∧
  (∃ w', rerun (S n) (ProspectPortal.replaceEventsForDay propertyId eventDate
                        EVENT_SOURCE events) w = (Ok (), w') ∧
         rows_of propertyId eventDate EVENT_SOURCE w' = events ∧
         rows_not_of propertyId eventDate EVENT_SOURCE w' =
           rows_not_of propertyId eventDate EVENT_SOURCE w ∧
         ∀ s', s' ≠ EVENT_SOURCE →
               rows_of propertyId eventDate s' w' = rows_of propertyId eventDate s' w).
Proof.
  intros Hw rows events. split.
  - destruct (rerun_replaces propertyId eventDate (DiffSnapshots.EVENT_SOURCE cfg)
                rows _ n w (writeEvents_replaces cfg propertyId eventDate
                              appearedKeys disappearedKeys currMap)
                (writeEvents_rows_match _ _ _ _ _ _) Hw)
      as (w' & Hrun & Hof & Hnot & _).
    exists w'. split_and!; try done.
    intros s' Hs'. by apply (rows_of_other_source _ _ (DiffSnapshots.EVENT_SOURCE cfg)).
  - destruct (rerun_replaces propertyId eventDate EVENT_SOURCE events _ n w
                (replaceEventsForDay_replaces propertyId eventDate EVENT_SOURCE events)
                (main_events_match _ _ _ _ _) Hw)
      as (w' & Hrun & Hof & Hnot & _).
    exists w'. split_and!; try done.
    intros s' Hs'. by apply (rows_of_other_source _ _ EVENT_SOURCE).
Qed.

(** ** The unit number of an event row *)

Lemma map_get_is_Some {V} (k : string) (m : list (string * V)) :
  k ∈ map_keys m → ∃ v, map_get k m = Some v.
Proof.
  unfold map_keys. induction m as [| [k' v'] m IH]; simpl.
  - by intros ?%elem_of_nil.
  - intros [-> | Hk]%elem_of_cons.
    + rewrite String.eqb_refl. eauto.
    + destruct (String.eqb k' k); eauto.
Qed.

Lemma diffKeys_appeared_in_curr {V W} (prevMap : list (string * V))
    (currMap : list (string * W)) (k : string) :
  k ∈ (DiffSnapshots.diffKeys prevMap currMap).1 → ∃ v, map_get k currMap = Some v.
Proof.
  simpl. intros [_ Hk]%list_elem_of_filter.
  by apply map_get_is_Some, new_Set_elem.
Qed.

Lemma diffKeys_disappeared_in_prev {V W} (prevMap : list (string * V))
    (currMap : list (string * W)) (k : string) :
  k ∈ (DiffSnapshots.diffKeys prevMap currMap).2 → ∃ v, map_get k prevMap = Some v.
Proof.
  simpl. intros [_ Hk]%list_elem_of_filter.
  by apply map_get_is_Some, new_Set_elem.
Qed.

Lemma unitNumberFromKey_not_empty (k : field) :
  DiffSnapshots.unitNumberFromKey k ≠ Some "".
Proof.
  unfold DiffSnapshots.unitNumberFromKey, or_null.
  destruct k as [s |]; [| done]. destruct (truthy s); [| done].
  destruct (startsWith s "unit:"); [| done].
  by destruct (slice 5 s).
Qed.

(** [x || y || null] is [x || y] when [y] is never the empty string. *)
Lemma or_else_null (a b : field) : b ≠ Some "" → or_else (or_else a b) None = or_else a b.
Proof.
  intros Hb. unfold or_else.
  destruct a as [s |].
  - destruct (truthy s) eqn:E; [by rewrite E |].
    destruct b as [t |]; [| done]. destruct (truthy t) eqn:Et; [done |].
    apply truthy_false in Et. by subst.
  - destruct b as [t |]; [| done]. destruct (truthy t) eqn:Et; [done |].
    apply truthy_false in Et. by subst.
Qed.

(** C6, as the code has it.  Take the maps and the key sets [main] of a
    diff script computes from the previous and the current units.  In
    every event row of an appeared key, both diff scripts put the unit
    number of the key's entry in the current map and, when that is null
    or empty, the number parsed out of the key.  In a row of a
    disappeared key the second diff script does the same with the
    previous map, and the first diff script puts the number parsed out
    of the key.  The RentCafe runner parses the key for both kinds of
    row, and the ProspectPortal scraper looks the key up among today's
    units before it parses the key.  Parsing [unit:n] gives [n]. *)
Theorem event_unit_number_sources
    (cfg : DiffSnapshots.env) (propertyId S : string) (d : date)
    (prevUnits currUnits : list unit) (r : event) :
  let prevMap := DiffSnapshots.buildMap prevUnits in
  let currMap := DiffSnapshots.buildMap currUnits in
  let keys := DiffSnapshots.diffKeys prevMap currMap in
  let k := ev_unit_key r in
  (r ∈ DiffSnapshots.event_rows cfg propertyId d keys.1 keys.2 currMap →
     match ev_type r with
     | appeared =>
         ∃ e, map_get k currMap = Some e ∧
              ev_unit_number r =
                or_else (DiffSnapshots.e_unit_number e)
                        (DiffSnapshots.unitNumberFromKey (Some k))
     | disappeared =>
         ev_unit_number r = DiffSnapshots.unitNumberFromKey (Some k)
     end) ∧
  (r ∈ DiffSnapshotsV2.event_rows S propertyId d keys.1 keys.2 currMap prevMap →
     ∃ e, map_get k (match ev_type r with
                     | appeared => currMap
                     | disappeared => prevMap
                     end) = Some e ∧
          ev_unit_number r =
            or_else (DiffSnapshots.e_unit_number e)
                    (DiffSnapshots.unitNumberFromKey (Some k))) ∧
  (r ∈ RentCafe.event_rows S propertyId d
         (RentCafe.diffUnitKeys prevUnits currUnits).1
         (RentCafe.diffUnitKeys prevUnits currUnits).2 →
     ev_unit_number r = RentCafe.event_number k) ∧
  (r ∈ ProspectPortal.main_events propertyId S d prevUnits currUnits →
     ev_unit_number r =
       or_else (map_get k (ProspectPortal.unitKeyToNumber currUnits))
               (ProspectPortal.unitNumberFromUnitKey (Some k))) ∧
  (∀ n, n ≠ "" →
     DiffSnapshots.unitNumberFromKey (Some ("unit:" +:+ n)) = Some n ∧
     RentCafe.event_number ("unit:" +:+ n) = Some n ∧
     ProspectPortal.unitNumberFromUnitKey (Some ("unit:" +:+ n)) = Some n).
Proof.
  intros prevMap currMap keys k. split_and!.
  - intros [(k' & -> & Hk)%list_elem_of_fmap | (k' & -> & Hk)%list_elem_of_fmap]%elem_of_app;
      subst k; cbn [ev_type ev_unit_key ev_unit_number].
    + rewrite or_else_null by apply unitNumberFromKey_not_empty.
      destruct (diffKeys_appeared_in_curr prevMap currMap k' Hk) as [e He].
      exists e. by rewrite He.
    + apply (or_else_null None (DiffSnapshots.unitNumberFromKey (Some k'))),
        unitNumberFromKey_not_empty.
  - intros [(k' & -> & Hk)%list_elem_of_fmap | (k' & -> & Hk)%list_elem_of_fmap]%elem_of_app;
      subst k; cbn [ev_type ev_unit_key ev_unit_number];
      rewrite or_else_null by apply unitNumberFromKey_not_empty.
    + destruct (diffKeys_appeared_in_curr prevMap currMap k' Hk) as [e He].
      exists e. by rewrite He.
    + destruct (diffKeys_disappeared_in_prev prevMap currMap k' Hk) as [e He].
      exists e. by rewrite He.
  - by intros [(k' & -> & Hk)%list_elem_of_fmap | (k' & -> & Hk)%list_elem_of_fmap]%elem_of_app.
  - unfold ProspectPortal.main_events.
    destruct (ProspectPortal.diffKeys _ _) as [a b].
    by intros [(k' & -> & Hk)%list_elem_of_fmap | (k' & -> & Hk)%list_elem_of_fmap]%elem_of_app.
  - intros n Hn%truthy_true. split_and!.
    + rewrite unitNumberFromKey_unit. unfold or_null. by rewrite Hn.
    + reflexivity.
    + unfold ProspectPortal.unitNumberFromUnitKey.
      rewrite truthy_prefixed by done. simpl.
      change ("" +:+ n) with n. unfold or_null. by rewrite Hn.
Qed.

Lemma event_unit_number_sources_witness :
  ∃ e, map_get "unit:103" (DiffSnapshots.buildMap [unit_102; unit_103]) = Some e ∧
       Some "103" =
         or_else (DiffSnapshots.e_unit_number e)
                 (DiffSnapshots.unitNumberFromKey (Some "unit:103")).
Proof.
  apply (proj1 (event_unit_number_sources diff_cfg "p1" "snapshot" 20
                  [unit_101; unit_102] [unit_102; unit_103]
                  (Event "p1" 20 "unit:103" (Some "103") appeared "snapshot"))).
  vm_compute. apply list_elem_of_here.
Defined.

(** C6 as stated fails for the first diff script: the row of a
    disappeared key does not take the unit number of the key's unit in
    the previous snapshot ([217A]) but the number in the key ([217]). *)
Lemma disappeared_number_ignores_previous_snapshot :
  ¬ (∀ (prevUnits currUnits : list unit) (r : event) (e : DiffSnapshots.entry),
       let prevMap := DiffSnapshots.buildMap prevUnits in
       let currMap := DiffSnapshots.buildMap currUnits in
       let keys := DiffSnapshots.diffKeys prevMap currMap in
       r ∈ DiffSnapshots.event_rows diff_cfg "p1" 20 keys.1 keys.2 currMap →
       ev_type r = disappeared →
       map_get (ev_unit_key r) prevMap = Some e →
       ev_unit_number r =
         or_else (DiffSnapshots.e_unit_number e)
                 (DiffSnapshots.unitNumberFromKey (Some (ev_unit_key r)))).
Proof.
  intros H.
  specialize (H [unit_217A] []
                (Event "p1" 20 "unit:217" (Some "217") disappeared "snapshot")
                (DiffSnapshots.Entry (Some "217A") unit_217A)).
  assert (Hin : Event "p1" 20 "unit:217" (Some "217") disappeared "snapshot" ∈
                DiffSnapshots.event_rows diff_cfg "p1" 20
                  (DiffSnapshots.diffKeys (DiffSnapshots.buildMap [unit_217A])
                                          (DiffSnapshots.buildMap [])).1
                  (DiffSnapshots.diffKeys (DiffSnapshots.buildMap [unit_217A])
                                          (DiffSnapshots.buildMap [])).2
                  (DiffSnapshots.buildMap [])).
  { vm_compute. apply list_elem_of_here. }
  specialize (H Hin eq_refl eq_refl). vm_compute in H. discriminate H.
Qed.

Lemma event_replacement_idempotent_witness :
  ∃ w', rerun 3 (DiffSnapshots.writeEvents diff_cfg "p1" 20 ["unit:103"] ["unit:101"]
                   (DiffSnapshots.buildMap [unit_102; unit_103]))
          (healthy_world []
             [Event "p1" 20 "unit:999" None appeared "snapshot";
              Event "p1" 20 "unit:101" (Some "101") appeared "scan"] [] (fun _ => None))
        = (Ok (), w') ∧
        rows_of "p1" 20 "snapshot" w' =
          [Event "p1" 20 "unit:103" (Some "103") appeared "snapshot";
           Event "p1" 20 "unit:101" (Some "101") disappeared "snapshot"] ∧
        rows_of "p1" 20 "scan" w' =
          [Event "p1" 20 "unit:101" (Some "101") appeared "scan"].
Proof.
  destruct (event_replacement_idempotent diff_cfg "p1" 20 ["unit:103"] ["unit:101"]
              (DiffSnapshots.buildMap [unit_102; unit_103]) "snapshot" [] []
              (healthy_world []
                 [Event "p1" 20 "unit:999" None appeared "snapshot";
                  Event "p1" 20 "unit:101" (Some "101") appeared "scan"] []
                 (fun _ => None)) 2)
    as [(w' & Hrun & Hrows & _ & Hother) _].
  - intros t. reflexivity.
  - exists w'. split; [exact Hrun |]. split; [exact Hrows |].
    rewrite (Hother "scan"); [reflexivity | discriminate].
Defined.

End EventWriter.

(* ===================================================================== *)
(** * The run orchestrators *)
(* ===================================================================== *)

Section Orchestrator.
Import JS Supabase.

Lemma bind_ok {A B} (c : M A) (k : A → M B) (w w' : world) (a : A) :
  c w = (Ok a, w') → (x <- c ;; k x) w = k a w'.
Proof. intros H. unfold bind. by rewrite H. Qed.

Lemma request_ok {A} (q : world → A * world) (w : world) :
  no_faults w → request q w = (Ok (q w).1, tick (q w).2).
Proof. intros Hw. unfold request. rewrite Hw. by destruct (q w). Qed.

Lemma elem_of_upsert_row (x r : snapshot) (t : list snapshot) :
  r ∈ upsert_row x t → r = x ∨ r ∈ t.
Proof.
  induction t as [| y t IH]; simpl.
  - intros ->%list_elem_of_singleton. by left.
  - destruct (_ && _).
    + intros [-> | Hr]%elem_of_cons; [by left | right; by right].
    + intros [-> | Hr]%elem_of_cons; [right; left | ].
      destruct (IH Hr) as [-> | ?]; [by left | right; by right].
Qed.

Lemma filter_nil_forall {A} (f : A → bool) (l : list A) :
  (∀ x, x ∈ l → f x = false) → List.filter f l = [].
Proof.
  induction l as [| x l IH]; intros H; simpl; [done |].
  rewrite (H x) by left. apply IH. intros y Hy. apply H. by right.
Qed.

Lemma filter_not_in_empty (l : list string) :
  filter (fun k => negb (set_has k [])) l = l.
Proof.
  induction l as [| k l IH]; [done |].
  rewrite filter_cons_True by done. by rewrite IH.
Qed.

(** Against an empty baseline every current key appeared and nothing
    disappeared. *)
Lemma diffUnitKeys_empty_baseline (units : list unit) :
  RentCafe.diffUnitKeys [] units =
    (new_Set (filter_Boolean (map RentCafe.unitKeyForEvents units)), []).
Proof. unfold RentCafe.diffUnitKeys. simpl. by rewrite filter_not_in_empty. Qed.

(** A property with no snapshot before [today] has none after today's
    snapshot is upserted either. *)
Lemma no_previous_after_upsert (id : string) (today : date) (units : list unit)
    (t : list snapshot) :
  (∀ r, r ∈ t → s_property_id r = id → (today <= snapshot_date r)%nat) →
  List.filter (fun r => String.eqb (s_property_id r) id && Nat.ltb (snapshot_date r) today)
              (upsert_row (Snapshot id today units) t) = [].
Proof.
  intros Hnone. apply filter_nil_forall. intros r Hr.
  apply elem_of_upsert_row in Hr as [-> | Hr]; simpl.
  - rewrite Nat.ltb_irrefl. apply andb_false_r.
  - destruct (String.eqb (s_property_id r) id) eqn:E; [| done].
    apply String.eqb_eq in E. simpl. apply Nat.ltb_ge. by apply Hnone.
Qed.

Lemma scrape_loop_ok (urls : list string) (st : list unit * list string) (w : world) :
  (∀ url, url ∈ urls → is_Some (web w url)) →
  RentCafe.scrape_loop urls st w =
    (Ok (fold_left (fun st url => RentCafe.dedupe_units st (default [] (web w url)))
                   urls st), w).
Proof.
  revert st. induction urls as [| url urls IH]; intros st Hpages; simpl; [done |].
  destruct (Hpages url) as [units Hurl]; [left |].
  unfold bind, open_page. rewrite Hurl. simpl.
  apply IH. intros url' Hin. apply Hpages. by right.
Qed.

Lemma scrapeRentCafeUrls_ok (urls : list string) (w : world) :
  (∀ url, url ∈ urls → is_Some (web w url)) →
  RentCafe.scrapeRentCafeUrls urls w = (Ok (scraped_units (web w) urls), w).
Proof.
  intros Hpages. unfold RentCafe.scrapeRentCafeUrls.
  by rewrite (bind_ok _ _ _ _ _ (scrape_loop_ok urls ([], []) w Hpages)).
Qed.

Lemma rentcafe_writeEvents_replaces (cfg : RentCafe.env) (p : string) (d : date)
    (appearedKeys disappearedKeys : list string) :
  replaces p d (RentCafe.EVENT_SOURCE cfg)
    (RentCafe.event_rows (RentCafe.EVENT_SOURCE cfg) p d appearedKeys disappearedKeys)
    (RentCafe.writeEvents cfg p d appearedKeys disappearedKeys).
Proof.
  intros w Hw. unfold RentCafe.writeEvents.
  set (rows := RentCafe.event_rows _ _ _ _ _).
  unfold bind, delete_events, insert_events, request, ret. simpl.
  rewrite Hw. simpl.
  destruct rows as [| e rows]; simpl.
  - do 2 eexists. split; [done |]. split; [by rewrite app_nil_r | done].
  - rewrite Hw. simpl. do 2 eexists. split; [done |]. done.
Qed.

(** The run of the RentCafe pipeline for a property with no snapshot
    before [today]. *)
Lemma runOneProperty_first_run (cfg : RentCafe.env) (id : string)
    (urls : list string) (w : world) :
  let today := default (RentCafe.todayYYYYMMDDLocal cfg) (RentCafe.SNAPSHOT_DATE cfg) in
  let units := scraped_units (web w) urls in
  let keys := new_Set (filter_Boolean (map RentCafe.unitKeyForEvents units)) in
  no_faults w →
  urls ≠ [] →
  (∀ url, url ∈ urls → is_Some (web w url)) →
  (∀ r, r ∈ unit_snapshots w → s_property_id r = id → (today <= snapshot_date r)%nat) →
  ∃ w', RentCafe.runOneProperty cfg id urls w = (Ok (), w') ∧
        unit_events w' =
          rows_not_of id today (RentCafe.EVENT_SOURCE cfg) w ++
          RentCafe.event_rows (RentCafe.EVENT_SOURCE cfg) id today keys [].
Proof.
  intros today units keys Hw Hurls Hpages Hnone.
  unfold RentCafe.runOneProperty. fold today.
  destruct urls as [| url urls]; [done |]. cbn [List.length Nat.eqb].
  unfold bind at 1. cbn [log]. unfold bind at 1.
  rewrite scrapeRentCafeUrls_ok by done.
  cbn [web]. fold units.
  unfold RentCafe.upsertSnapshot, upsert_snapshot.
  unfold bind at 1. rewrite request_ok by done. cbn [fst snd].
  unfold bind at 1. cbn [log tick set_snapshots unit_snapshots unit_events properties
                         web faults clock console].
  unfold bind at 1. unfold RentCafe.getPreviousSnapshot.
  rewrite request_ok by done.
  cbn [fst snd tick set_snapshots unit_snapshots unit_events properties
       web faults clock console].
  rewrite no_previous_after_upsert by done. cbn [order_desc fold_right take head].
  rewrite diffUnitKeys_empty_baseline. fold keys.
  match goal with
  | |- ∃ w', bind _ _ ?w2 = _ ∧ _ =>
      destruct (rentcafe_writeEvents_replaces cfg id today keys [] w2 Hw)
        as (n & w3 & Hrun & Hev & _)
  end.
  unfold bind at 1. rewrite Hrun. cbn [log].
  eexists. split; [done |]. cbn [unit_events]. by rewrite Hev.
Qed.

Lemma length_insert_desc (r : snapshot) (l : list snapshot) :
  List.length (insert_desc r l) = S (List.length l).
Proof.
  induction l as [| x l IH]; simpl; [done |].
  destruct (Nat.leb _ _); simpl; [done | by rewrite IH].
Qed.

Lemma length_order_desc (l : list snapshot) :
  List.length (order_desc l) = List.length l.
Proof.
  unfold order_desc. induction l as [| x l IH]; simpl; [done |].
  by rewrite length_insert_desc, IH.
Qed.

Lemma length_filter_le {A} (f : A → bool) (l : list A) :
  (List.length (List.filter f l) <= List.length l)%nat.
Proof.
  induction l as [| x l IH]; simpl; [done |].
  destruct (f x); simpl; lia.
Qed.

(** The guard [snaps.length < 2] of the diff script: a property with at
    most one snapshot is skipped, and no event row is written. *)
Lemma main_try_skips (cfg : DiffSnapshots.env) (p : string) (w : world) :
  no_faults w →
  (List.length (List.filter (fun r => String.eqb (s_property_id r) p)
                            (unit_snapshots w)) <= 1)%nat →
  ∃ w', DiffSnapshots.main_try cfg p w = (Ok 0, w') ∧
        unit_events w' = unit_events w ∧
        console w' = console w ++ [LogSkip p].
Proof.
  intros Hw Hone. unfold DiffSnapshots.main_try, DiffSnapshots.getLastTwoSnapshots.
  unfold bind at 1. rewrite request_ok by done. cbn [fst snd].
  set (q := List.filter _ (unit_snapshots w)) in *.
  set (q' := match DiffSnapshots.SNAPSHOT_DATE cfg with
             | Some d => List.filter (fun r => Nat.leb (snapshot_date r) d) q
             | None => q
             end).
  assert (Hq' : (List.length (order_desc q') <= 1)%nat).
  { rewrite length_order_desc. subst q'.
    destruct (DiffSnapshots.SNAPSHOT_DATE cfg); [| done].
    etrans; [apply length_filter_le | done]. }
  destruct (order_desc q') as [| latest [| prev rest]]; simpl in Hq'; [| | lia].
  - eexists. split; [reflexivity |]. done.
  - eexists. split; [reflexivity |]. done.
Qed.

(** C7, as the code has it.  In the RentCafe runner, a property with no
    snapshot before the day of the run is diffed against an empty
    baseline: the run returns, every key of the current units is written
    as an appeared row and no disappeared row is written.  The diff
    script instead skips a property that has fewer than two snapshots
    and writes no row for it. *)
Theorem first_run_against_empty_baseline
    (cfg : RentCafe.env) (dcfg : DiffSnapshots.env) (id : string)
    (urls : list string) (w : world) :
  let today := default (RentCafe.todayYYYYMMDDLocal cfg) (RentCafe.SNAPSHOT_DATE cfg) in
  let units := scraped_units (web w) urls in
  let keys := new_Set (filter_Boolean (map RentCafe.unitKeyForEvents units)) in
  no_faults w →
  urls ≠ [] →
  (∀ url, url ∈ urls → is_Some (web w url)) →
  (∀ r, r ∈ unit_snapshots w → s_property_id r = id → (today <= snapshot_date r)%nat) →
  RentCafe.diffUnitKeys [] units = (keys, []) ∧
  (∃ w', RentCafe.runOneProperty cfg id urls w = (Ok (), w') ∧
         rows_of id today (RentCafe.EVENT_SOURCE cfg) w' =
           map (fun k => Event id today k (RentCafe.event_number k) appeared
                               (RentCafe.EVENT_SOURCE cfg)) keys) ∧
  ((List.length (List.filter (fun r => String.eqb (s_property_id r) id)
                             (unit_snapshots w)) <= 1)%nat →
   ∃ w', DiffSnapshots.main_try dcfg id w = (Ok 0, w') ∧
         unit_events w' = unit_events w ∧
         console w' = console w ++ [LogSkip id]).
Proof.
  intros today units keys Hw Hurls Hpages Hnone. split_and!.
  - apply diffUnitKeys_empty_baseline.
  - destruct (runOneProperty_first_run cfg id urls w Hw Hurls Hpages Hnone)
      as (w' & Hrun & Hev).
    exists w'. split; [done |]. unfold rows_of, rows_not_of in *. rewrite Hev.
    fold today units keys.
    destruct (filter_matches_app (event_matches id today (RentCafe.EVENT_SOURCE cfg))
                (unit_events w)
                (RentCafe.event_rows (RentCafe.EVENT_SOURCE cfg) id today keys []))
      as [H1 _].
    { apply Forall_app. split; apply all_match_map. }
    rewrite H1. unfold RentCafe.event_rows. simpl. by rewrite app_nil_r.
  - by apply main_try_skips.
Qed.

Lemma first_run_against_empty_baseline_witness :
  ∃ w', RentCafe.runOneProperty rentcafe_cfg "p2" (p_urls property_2)
          (healthy_world [] [] [property_1; property_2] both_pages_up) = (Ok (), w') ∧
        rows_of "p2" 20 "snapshot" w' =
          [Event "p2" 20 "unit:102" (Some "102") appeared "snapshot";
           Event "p2" 20 "unit:103" (Some "103") appeared "snapshot"].
Proof.
  apply (first_run_against_empty_baseline rentcafe_cfg diff_cfg "p2" (p_urls property_2)
           (healthy_world [] [] [property_1; property_2] both_pages_up)).
  - intros t. reflexivity.
  - done.
  - intros url ->%list_elem_of_singleton. by eexists.
  - intros r Hr. by apply elem_of_nil in Hr.
Defined.

(** C7 as stated fails for the diff script: a property whose only
    snapshot holds [unit:101] is skipped, and no appeared row is
    written for [unit:101]. *)
Lemma diff_script_skips_first_snapshot :
  let w := healthy_world [Snapshot "p1" 20 [unit_101]] [] [] (fun _ => None) in
  map_keys (DiffSnapshots.buildMap [unit_101]) = ["unit:101"] ∧
  (DiffSnapshots.main diff_cfg w).1 = Ok () ∧
  unit_events (DiffSnapshots.main diff_cfg w).2 = [] ∧
  console (DiffSnapshots.main diff_cfg w).2 = [LogSkip "p1"; LogDone 0].
Proof. vm_compute. done. Qed.

(** C9 fails in the all-properties mode of the RentCafe runner: the
    page of the first property does not open, [main] throws, and the
    second property, whose run alone returns, is never started. *)
Theorem rentcafe_batch_stops_at_first_failure :
  let w := healthy_world [] [] [property_1; property_2] first_page_down in
  (RentCafe.main rentcafe_cfg w).1 = Throw "page.goto: Timeout" ∧
  console (RentCafe.main rentcafe_cfg w).2 = [LogProperty "p1"] ∧
  unit_snapshots (RentCafe.main rentcafe_cfg w).2 = [] ∧
  unit_events (RentCafe.main rentcafe_cfg w).2 = [] ∧
  (RentCafe.runOneProperty rentcafe_cfg "p2" (p_urls property_2) w).1 = Ok () ∧
  unit_snapshots (RentCafe.runOneProperty rentcafe_cfg "p2" (p_urls property_2) w).2 =
    [Snapshot "p2" 20 [unit_102; unit_103]].
Proof. vm_compute. done. Qed.

(** ** The batch loop of the diff script *)

(** The [try] block for one property prints one line about the
    property and returns, or throws without printing. *)
Lemma main_try_console (cfg : DiffSnapshots.env) (p : string) (w : world) :
  match DiffSnapshots.main_try cfg p w with
  | (Ok _, w') => ∃ l, console w' = console w ++ [l] ∧ line_property l = Some p
  | (Throw _, w') => console w' = console w
  end.
Proof.
  unfold DiffSnapshots.main_try, DiffSnapshots.getLastTwoSnapshots.
  unfold bind at 1. unfold request at 1.
  destruct (faults w (clock w)) as [e |] eqn:F0; [done |].
  cbn [fst snd]. set (snaps := take 2 _).
  destruct snaps as [| latest [| prev rest]].
  - by eexists.
  - by eexists.
  - destruct (DiffSnapshots.diffKeys _ _) as [a d].
    unfold DiffSnapshots.writeEvents. set (rows := DiffSnapshots.event_rows _ _ _ _ _ _).
    unfold bind at 1. unfold bind at 1. unfold delete_events, request at 1.
    cbn [tick faults clock].
    destruct (faults w (S (clock w))) as [e |] eqn:F1; [done |].
    destruct rows as [| r rows]; cbn [List.length Nat.eqb].
    + by eexists.
    + unfold bind at 1. unfold insert_events, request at 1.
      cbn [tick set_events faults clock].
      destruct (faults w (S (S (clock w)))) as [e |] eqn:F2; [done |].
      by eexists.
Qed.

Lemma main_try_outcome (cfg : DiffSnapshots.env) (p : string) (w : world) :
  (∃ n w' l, DiffSnapshots.main_try cfg p w = (Ok n, w') ∧
             console w' = console w ++ [l] ∧ line_property l = Some p) ∨
  (∃ e w', DiffSnapshots.main_try cfg p w = (Throw e, w') ∧ console w' = console w).
Proof.
  pose proof (main_try_console cfg p w) as H.
  destruct (DiffSnapshots.main_try cfg p w) as [[n | e] w'].
  - left. destruct H as (l & ? & ?). by exists n, w', l.
  - right. by exists e, w'.
Qed.

(** The loop never throws, and prints one line about each property, in
    order, whatever the store answers. *)
Lemma main_loop_isolates_failures (cfg : DiffSnapshots.env) (props : list string)
    (total : nat) (w : world) :
  ∃ n w' lines, DiffSnapshots.main_loop cfg props total w = (Ok n, w') ∧
                console w' = console w ++ lines ∧
                map line_property lines = map Some props.
Proof.
  revert total w. induction props as [| p props IH]; intros total w.
  - exists total, w, []. by rewrite app_nil_r.
  - cbn [DiffSnapshots.main_loop]. unfold bind at 1, try_catch.
    destruct (main_try_outcome cfg p w)
      as [(n & w1 & l & Hrun & Hcon & Hl) | (e & w1 & Hrun & Hcon)]; rewrite Hrun.
    + destruct (IH (total + n) w1) as (n' & w' & lines & Hloop & Hcon' & Hlines).
      exists n', w', (l :: lines). rewrite Hloop. split; [done |].
      rewrite Hcon', Hcon, <- app_assoc. simpl. by rewrite Hl, Hlines.
    + unfold bind at 1. cbn [log ret].
      match goal with
      | |- context [DiffSnapshots.main_loop cfg props ?t ?w2] =>
          destruct (IH t w2) as (n' & w' & lines & Hloop & Hcon' & Hlines)
      end.
      exists n', w', (LogError p e :: lines). rewrite Hloop. split; [done |].
      rewrite Hcon'. cbn [console]. rewrite Hcon, <- app_assoc. simpl.
      by rewrite Hlines.
Qed.

(** X11.  Once the list of properties is read, [main] of the diff script
    returns: a failure in one property is printed for that property
    and the loop goes on to the next one. *)
Lemma diff_main_isolates_failures (cfg : DiffSnapshots.env) (props : list string)
    (w w1 : world) :
  DiffSnapshots.getPropertiesToProcess cfg w = (Ok props, w1) →
  ∃ w' lines total,
    DiffSnapshots.main cfg w = (Ok (), w') ∧
    console w' = console w1 ++ lines ++ [LogDone total] ∧
    map line_property lines = map Some props.
Proof.
  intros Hprops. unfold DiffSnapshots.main.
  rewrite (bind_ok _ _ _ _ _ Hprops).
  destruct (main_loop_isolates_failures cfg props 0 w1)
    as (n & w' & lines & Hloop & Hcon & Hlines).
  rewrite (bind_ok _ _ _ _ _ Hloop). cbn [log].
  do 3 eexists. split; [reflexivity |]. cbn [console].
  by rewrite Hcon, <- app_assoc.
Qed.

End Orchestrator.

(* ===================================================================== *)
(** * URL lists of a property row *)
(* ===================================================================== *)

Section UrlLists.
Import JS.

Lemma split_on_not_nil (c : ascii) (s : string) : split_on c s ≠ [].
Proof.
  destruct s as [| a s]; simpl; [done |].
  destruct (Ascii.eqb a c); [done |]. by destruct (split_on c s).
Qed.

Lemma split_on_no_sep (c : ascii) (s x : string) :
  x ∈ split_on c s → has_char c x = false.
Proof.
  revert x. induction s as [| a s IH]; intros x; simpl.
  - by intros ->%list_elem_of_singleton.
  - destruct (Ascii.eqb a c) eqn:E.
    + intros [-> | Hx]%elem_of_cons; [done | by apply IH].
    + destruct (split_on c s) as [| piece pieces] eqn:Es.
      * intros ->%list_elem_of_singleton. simpl. by rewrite E.
      * intros [-> | Hx]%elem_of_cons.
        -- simpl. rewrite E. apply IH. left.
        -- apply IH. by right.
Qed.

Lemma has_char_trimStart (c : ascii) (s : string) :
  has_char c (trimStart s) = true → has_char c s = true.
Proof.
  induction s as [| a s IH]; simpl; [done |].
  destruct (is_space a); [| done].
  intros H. rewrite (IH H). apply orb_true_r.
Qed.

Lemma has_char_trimEnd (c : ascii) (s : string) :
  has_char c (trimEnd s) = true → has_char c s = true.
Proof.
  induction s as [| a s IH]; simpl; [done |].
  destruct (trimEnd s) as [| b t] eqn:E.
  - destruct (is_space a); simpl; [done |].
    rewrite orb_false_r. intros ->. done.
  - simpl in *. destruct (Ascii.eqb a c); [done |]. simpl. apply IH.
Qed.

Lemma trim_no_new_char (c : ascii) (s : string) :
  has_char c s = false → has_char c (trim s) = false.
Proof.
  intros Hs. destruct (has_char c (trim s)) eqn:E; [| done].
  apply has_char_trimEnd, has_char_trimStart in E. congruence.
Qed.

(** X1.  Every URL [parseCsvUrls] returns is non-empty, trimmed and free of
    commas, and no URL is returned twice; so is every URL that
    [normalizeUrlListFromRow] returns. *)
Theorem parseCsvUrls_clean (raw : field) (row : RentCafe.url_row) :
  NoDup (RentCafe.parseCsvUrls raw) ∧
  Forall clean_url (RentCafe.parseCsvUrls raw) ∧
  NoDup (RentCafe.normalizeUrlListFromRow row) ∧
  Forall clean_url (RentCafe.normalizeUrlListFromRow row).
Proof.
  assert (Hclean : ∀ raw, NoDup (RentCafe.parseCsvUrls raw) ∧
                          Forall clean_url (RentCafe.parseCsvUrls raw)).
  { clear. intros raw. unfold RentCafe.parseCsvUrls. split; [apply new_Set_NoDup |].
    apply Forall_forall. intros x Hx. rewrite new_Set_elem in Hx.
    rewrite list_elem_of_In, filter_In, <- list_elem_of_In in Hx.
    destruct Hx as [Hx Ht]. apply list_elem_of_fmap in Hx as (y & -> & Hy).
    split_and!.
    - by apply truthy_true.
    - apply trim_idem.
    - by apply trim_no_new_char, (split_on_no_sep _ _ _ Hy). }
  split_and!; try apply Hclean.
Qed.

Lemma split_on_no_char (c : ascii) (x : string) :
  has_char c x = false → split_on c x = [x].
Proof.
  induction x as [| a x IH]; simpl; [done |].
  intros [Ha Hx]%orb_false_iff. rewrite Ha, (IH Hx). done.
Qed.

Lemma split_on_app (c : ascii) (x rest : string) :
  has_char c x = false →
  split_on c (x +:+ String c rest) = x :: split_on c rest.
Proof.
  induction x as [| a x IH]; simpl.
  - intros _. change ("" +:+ String c rest) with (String c rest). simpl.
    by rewrite Ascii.eqb_refl.
  - intros [Ha Hx]%orb_false_iff.
    change (String a x +:+ String c rest) with (String a (x +:+ String c rest)).
    simpl. by rewrite Ha, (IH Hx).
Qed.

Lemma split_on_join (c : ascii) (l : list string) :
  l ≠ [] → Forall (fun x => has_char c x = false) l →
  split_on c (join_with c l) = l.
Proof.
  intros Hne Hl. induction Hl as [| x l Hx Hl IH]; [done |].
  destruct l as [| y r].
  - by apply split_on_no_char.
  - change (join_with c (x :: y :: r)) with (x +:+ String c (join_with c (y :: r))).
    rewrite split_on_app by done. by rewrite IH.
Qed.

Lemma fold_set_add_fresh (l s : list string) :
  NoDup (s ++ l) → fold_left (fun s k => set_add k s) l s = s ++ l.
Proof.
  revert s. induction l as [| k l IH]; intros s Hnd; simpl.
  - by rewrite app_nil_r.
  - assert (Hk : set_has k s = false).
    { destruct (set_has k s) eqn:E; [| done].
      apply set_has_elem in E. apply NoDup_app in Hnd as (_ & Hdis & _).
      exfalso. apply (Hdis k E). left. }
    assert (Hadd : set_add k s = s ++ [k]) by (unfold set_add; by rewrite Hk).
    rewrite Hadd, IH; rewrite <- app_assoc; done.
Qed.

Lemma new_Set_NoDup_id (l : list string) : NoDup l → new_Set l = l.
Proof. intros Hl. unfold new_Set. by rewrite fold_set_add_fresh. Qed.

(** X2.  A list of distinct clean URLs, joined with commas, is read back by
    [parseCsvUrls] as it was, in the same order. *)
Theorem parseCsvUrls_join (urls : list string) :
  NoDup urls → Forall clean_url urls →
  RentCafe.parseCsvUrls (Some (join_with "," urls)) = urls.
Proof.
  intros Hnd Hclean. unfold RentCafe.parseCsvUrls.
  assert (Hstr : str_or_empty (or_else (Some (join_with "," urls)) (Some "")) =
                 join_with "," urls).
  { unfold or_else. destruct (truthy (join_with "," urls)) eqn:E; [done |].
    apply truthy_false in E. by rewrite E. }
  rewrite Hstr. destruct urls as [| x l]; [done |].
  rewrite split_on_join; [| done |].
  - assert (Hmap : map trim (x :: l) = x :: l).
    { clear -Hclean. induction Hclean as [| y l' [_ [Hy _]] _ IH]; simpl; [done |].
      by rewrite Hy, IH. }
    assert (Hfil : List.filter truthy (x :: l) = x :: l).
    { clear -Hclean. induction Hclean as [| y l' [Hy _] _ IH]; simpl; [done |].
      apply truthy_true in Hy. by rewrite Hy, IH. }
    rewrite Hmap, Hfil. by apply new_Set_NoDup_id.
  - eapply Forall_impl; [exact Hclean |]. by intros y (_ & _ & Hy).
Qed.

Lemma parseCsvUrls_join_witness :
  RentCafe.parseCsvUrls
    (Some (join_with "," ["https://a.example/one"; "https://a.example/two"])) =
  ["https://a.example/one"; "https://a.example/two"].
Proof.
  apply parseCsvUrls_join.
  - repeat (apply NoDup_cons; split; [by rewrite ?elem_of_cons, ?elem_of_nil; intuition discriminate |]).
    apply NoDup_nil_2.
  - repeat constructor; vm_compute; done.
Defined.

End UrlLists.

(* ===================================================================== *)
(** * The snapshot table *)
(* ===================================================================== *)

Section SnapshotTable.
Import JS Supabase.

Lemma has_key_spec (k : string * date) (r : snapshot) :
  has_key k r = true ↔ snapshot_key r = k.
Proof.
  unfold has_key, snapshot_key. destruct k as [id d]. simpl.
  rewrite andb_true_iff, String.eqb_eq, Nat.eqb_eq. split.
  - by intros [-> ->].
  - by intros [= -> ->].
Qed.

Lemma upsert_row_unfold (r x : snapshot) (t : list snapshot) :
  upsert_row r (x :: t) =
    if has_key (snapshot_key r) x then r :: t else x :: upsert_row r t.
Proof. reflexivity. Qed.

Lemma upsert_row_keys (r : snapshot) (t : list snapshot) :
  map snapshot_key (upsert_row r t) =
    if bool_decide (snapshot_key r ∈ map snapshot_key t)
    then map snapshot_key t
    else map snapshot_key t ++ [snapshot_key r].
Proof.
  induction t as [| x t IH]; [done |].
  rewrite upsert_row_unfold. destruct (has_key (snapshot_key r) x) eqn:E.
  - apply has_key_spec in E. simpl. rewrite E.
    rewrite bool_decide_eq_true_2 by left. done.
  - assert (Hne : snapshot_key x ≠ snapshot_key r).
    { intros H. apply has_key_spec in H. congruence. }
    simpl. rewrite IH. case_bool_decide as H1; case_bool_decide as H2; try done.
    + exfalso. apply H2. by right.
    + exfalso. apply elem_of_cons in H2 as [? | ?]; [congruence | done].
Qed.

Lemma upsert_row_unique (r : snapshot) (t : list snapshot) :
  keys_unique t → keys_unique (upsert_row r t).
Proof.
  unfold keys_unique. intros Ht. rewrite upsert_row_keys.
  case_bool_decide as H; [done |].
  apply NoDup_app. split_and!; [done | | apply NoDup_singleton].
  intros k Hk ->%list_elem_of_singleton. done.
Qed.

Lemma upsert_row_others (r : snapshot) (t : list snapshot) :
  List.filter (fun x => negb (has_key (snapshot_key r) x)) (upsert_row r t) =
  List.filter (fun x => negb (has_key (snapshot_key r) x)) t.
Proof.
  assert (Hr : has_key (snapshot_key r) r = true) by by apply has_key_spec.
  induction t as [| x t IH].
  - simpl. by rewrite Hr.
  - rewrite upsert_row_unfold. destruct (has_key (snapshot_key r) x) eqn:E; simpl.
    + by rewrite Hr, E.
    + by rewrite E, IH.
Qed.

Lemma upsert_row_own (r : snapshot) (t : list snapshot) :
  keys_unique t →
  List.filter (has_key (snapshot_key r)) (upsert_row r t) = [r].
Proof.
  assert (Hr : has_key (snapshot_key r) r = true) by by apply has_key_spec.
  unfold keys_unique. induction t as [| x t IH]; intros Ht.
  - simpl. by rewrite Hr.
  - apply NoDup_cons in Ht as [Hx Ht].
    rewrite upsert_row_unfold. destruct (has_key (snapshot_key r) x) eqn:E; simpl.
    + rewrite Hr. f_equal. apply has_key_spec in E.
      apply filter_nil_forall. intros y Hy.
      destruct (has_key (snapshot_key r) y) eqn:Ey; [| done].
      apply has_key_spec in Ey. exfalso. apply Hx. rewrite E, <- Ey.
      by apply list_elem_of_fmap_2.
    + rewrite E. by apply IH.
Qed.

Lemma upsert_row_idem (r : snapshot) (t : list snapshot) :
  upsert_row r (upsert_row r t) = upsert_row r t.
Proof.
  assert (Hr : has_key (snapshot_key r) r = true) by by apply has_key_spec.
  induction t as [| x t IH].
  - change (upsert_row r []) with [r]. by rewrite upsert_row_unfold, Hr.
  - rewrite upsert_row_unfold. destruct (has_key (snapshot_key r) x) eqn:E.
    + rewrite upsert_row_unfold. by rewrite Hr.
    + rewrite upsert_row_unfold. by rewrite E, IH.
Qed.

(** X3.  The upsert keeps one row per property and day.  On a table that
    has at most one row per (property, day), [upsertSnapshot] returns
    when the store answers; afterwards the table still has at most one
    row per key, its only row for the key holds the units just written,
    and the rows of every other key and all event rows are as before.
    When the store answers with an error the call throws and both tables
    are unchanged. *)
Theorem upsertSnapshot_overwrites (id : string) (d : date) (units : list unit)
    (w : world) :
  keys_unique (unit_snapshots w) →
  match faults w (clock w) with
  | None =>
      ∃ w', RentCafe.upsertSnapshot id d units w = (Ok (), w') ∧
            keys_unique (unit_snapshots w') ∧
            List.filter (has_key (id, d)) (unit_snapshots w') = [Snapshot id d units] ∧
            List.filter (fun x => negb (has_key (id, d) x)) (unit_snapshots w') =
              List.filter (fun x => negb (has_key (id, d) x)) (unit_snapshots w) ∧
            unit_events w' = unit_events w
  | Some e =>
      ∃ w', RentCafe.upsertSnapshot id d units w = (Throw e, w') ∧
            unit_snapshots w' = unit_snapshots w ∧
            unit_events w' = unit_events w
  end.
Proof.
  intros Hu. unfold RentCafe.upsertSnapshot, upsert_snapshot, request.
  destruct (faults w (clock w)) as [e |].
  - by eexists.
  - eexists. split; [reflexivity |]. simpl. split_and!.
    + by apply upsert_row_unique.
    + by apply (upsert_row_own (Snapshot id d units)).
    + apply (upsert_row_others (Snapshot id d units)).
    + done.
Qed.

Lemma upsertSnapshot_overwrites_witness :
  ∃ w', RentCafe.upsertSnapshot "p1" 20 [unit_102]
          (healthy_world [Snapshot "p1" 19 [unit_101]; Snapshot "p1" 20 [unit_101]]
                         [] [] (fun _ => None)) = (Ok (), w') ∧
        keys_unique (unit_snapshots w') ∧
        List.filter (has_key ("p1", 20)) (unit_snapshots w') = [Snapshot "p1" 20 [unit_102]] ∧
        List.filter (fun x => negb (has_key ("p1", 20) x)) (unit_snapshots w') =
          [Snapshot "p1" 19 [unit_101]] ∧
        unit_events w' = [].
Proof.
  apply (upsertSnapshot_overwrites "p1" 20 [unit_102]
           (healthy_world [Snapshot "p1" 19 [unit_101]; Snapshot "p1" 20 [unit_101]]
                          [] [] (fun _ => None))).
  unfold keys_unique. simpl.
  repeat (apply NoDup_cons; split;
          [by rewrite ?elem_of_cons, ?elem_of_nil; intuition discriminate |]).
  apply NoDup_nil_2.
Defined.

(** ** Ordering by date *)

Lemma elem_of_insert_desc (r x : snapshot) (l : list snapshot) :
  x ∈ insert_desc r l ↔ x = r ∨ x ∈ l.
Proof.
  induction l as [| y l IH]; simpl.
  - rewrite list_elem_of_singleton, elem_of_nil. tauto.
  - destruct (Nat.leb _ _).
    + rewrite !elem_of_cons. tauto.
    + rewrite !elem_of_cons, IH. tauto.
Qed.

Lemma elem_of_order_desc (x : snapshot) (l : list snapshot) :
  x ∈ order_desc l ↔ x ∈ l.
Proof.
  unfold order_desc. induction l as [| y l IH]; simpl; [done |].
  rewrite elem_of_insert_desc, elem_of_cons, IH. done.
Qed.

Lemma insert_desc_newest_first (r : snapshot) (l : list snapshot) :
  newest_first l → newest_first (insert_desc r l).
Proof.
  unfold newest_first. induction l as [| y l IH]; intros Hl; simpl.
  - repeat constructor.
  - apply StronglySorted_inv in Hl as [Hl Hy].
    destruct (Nat.leb (snapshot_date y) (snapshot_date r)) eqn:E.
    + apply Nat.leb_le in E. constructor.
      * by constructor.
      * constructor; [done |].
        eapply Forall_impl; [exact Hy |]. simpl. intros z Hz. lia.
    + apply Nat.leb_gt in E. constructor; [by apply IH |].
      apply Forall_forall. intros z Hz. apply elem_of_insert_desc in Hz as [-> | Hz].
      * lia.
      * rewrite Forall_forall in Hy. by apply Hy.
Qed.

Lemma order_desc_newest_first (l : list snapshot) : newest_first (order_desc l).
Proof.
  unfold order_desc. induction l as [| y l IH]; simpl.
  - constructor.
  - by apply insert_desc_newest_first.
Qed.

(** The first row of a list ordered newest first is a newest row. *)
Lemma head_newest (l : list snapshot) (r : snapshot) :
  newest_first l → head l = Some r →
  r ∈ l ∧ ∀ x, x ∈ l → (snapshot_date x <= snapshot_date r)%nat.
Proof.
  destruct l as [| y l]; [done |]. intros Hl [= ->].
  apply StronglySorted_inv in Hl as [_ Hy]. split; [left |].
  intros x [-> | Hx]%elem_of_cons; [done |].
  rewrite Forall_forall in Hy. by apply Hy.
Qed.

Lemma head_take_1 {A} (l : list A) : head (take 1 l) = head l.
Proof. by destruct l. Qed.

Lemma elem_of_List_filter {A} (f : A → bool) (x : A) (l : list A) :
  x ∈ List.filter f l ↔ x ∈ l ∧ f x = true.
Proof. by rewrite !list_elem_of_In, filter_In. Qed.

(** X4.  The baseline of the RentCafe runner is the newest snapshot of the
    property that is strictly older than the day of the run.  When the
    store answers, [getPreviousSnapshot] returns a row of the property
    dated before [today] such that no other row of the property dated
    before [today] is newer, or [null] when the property has no row
    dated before [today]; it changes neither table. *)
Theorem getPreviousSnapshot_newest_before (id : string) (today : date) (w : world) :
  no_faults w →
  ∃ prev w', RentCafe.getPreviousSnapshot id today w = (Ok prev, w') ∧
    unit_snapshots w' = unit_snapshots w ∧
    unit_events w' = unit_events w ∧
    match prev with
    | Some r =>
        r ∈ unit_snapshots w ∧ s_property_id r = id ∧
        (snapshot_date r < today)%nat ∧
        ∀ x, x ∈ unit_snapshots w → s_property_id x = id →
             (snapshot_date x < today)%nat →
             (snapshot_date x <= snapshot_date r)%nat
    | None =>
        ∀ x, x ∈ unit_snapshots w → s_property_id x = id →
             (today <= snapshot_date x)%nat
    end.
Proof.
  intros Hw. unfold RentCafe.getPreviousSnapshot.
  rewrite request_ok by done. cbn [fst snd].
  set (q := List.filter _ (unit_snapshots w)).
  assert (Hq : ∀ x, x ∈ q ↔ x ∈ unit_snapshots w ∧ s_property_id x = id ∧
                              (snapshot_date x < today)%nat).
  { intros x. subst q. rewrite elem_of_List_filter, andb_true_iff,
      String.eqb_eq, Nat.ltb_lt. tauto. }
  do 2 eexists. split; [reflexivity |]. split; [done |]. split; [done |].
  rewrite head_take_1.
  destruct (head (order_desc q)) as [r |] eqn:Hhead.
  - destruct (head_newest _ _ (order_desc_newest_first q) Hhead) as [Hr Hmax].
    apply elem_of_order_desc, Hq in Hr as (? & ? & ?).
    split_and!; try done.
    intros x Hx Hid Hlt. apply Hmax, elem_of_order_desc, Hq. done.
  - intros x Hx Hid. destruct (decide (today <= snapshot_date x)%nat); [done |].
    assert (Hin : x ∈ order_desc q) by (apply elem_of_order_desc, Hq; split_and!; [done..| lia]).
    destruct (order_desc q); [by apply elem_of_nil in Hin | done].
Qed.

Lemma getPreviousSnapshot_newest_before_witness :
  ∃ w', RentCafe.getPreviousSnapshot "p1" 20
          (healthy_world [Snapshot "p1" 18 [unit_101]; Snapshot "p1" 19 [unit_102];
                          Snapshot "p1" 20 [unit_103]; Snapshot "p2" 19 []]
                         [] [] (fun _ => None)) =
        (Ok (Some (Snapshot "p1" 19 [unit_102])), w').
Proof.
  destruct (getPreviousSnapshot_newest_before "p1" 20
              (healthy_world [Snapshot "p1" 18 [unit_101]; Snapshot "p1" 19 [unit_102];
                              Snapshot "p1" 20 [unit_103]; Snapshot "p2" 19 []]
                             [] [] (fun _ => None)))
    as (prev & w' & Hrun & _).
  - intros t. reflexivity.
  - exists w'. rewrite Hrun. vm_compute in Hrun. by injection Hrun as <- _.
Defined.

(** X5.  The diff script compares the two newest snapshots of a property.
    When the store answers, [getLastTwoSnapshots] returns at most two
    rows, newest first, all chosen among the rows of the property (not
    newer than [SNAPSHOT_DATE] when that is set); every row it leaves
    out is no newer than the rows it returns, and it returns fewer than
    two rows only when there are no more to choose from. *)
Theorem getLastTwoSnapshots_two_newest (cfg : DiffSnapshots.env) (p : string)
    (w : world) :
  no_faults w →
  ∃ snaps w', DiffSnapshots.getLastTwoSnapshots cfg p w = (Ok snaps, w') ∧
    unit_snapshots w' = unit_snapshots w ∧
    unit_events w' = unit_events w ∧
    (List.length snaps <= 2)%nat ∧
    newest_first snaps ∧
    (∀ r, r ∈ snaps → selected cfg p w r) ∧
    (∀ x, selected cfg p w x →
          x ∈ snaps ∨
          (List.length snaps = 2 ∧
           ∀ r, r ∈ snaps → (snapshot_date x <= snapshot_date r)%nat)).
Proof.
  intros Hw. unfold DiffSnapshots.getLastTwoSnapshots.
  rewrite request_ok by done. cbn [fst snd].
  set (q := match DiffSnapshots.SNAPSHOT_DATE cfg with
            | Some d => List.filter _ _
            | None => _
            end).
  assert (Hq : ∀ x, x ∈ q ↔ selected cfg p w x).
  { intros x. subst q. unfold selected.
    destruct (DiffSnapshots.SNAPSHOT_DATE cfg) as [d |].
    - rewrite !elem_of_List_filter, String.eqb_eq, Nat.leb_le. tauto.
    - rewrite elem_of_List_filter, String.eqb_eq. tauto. }
  pose proof (order_desc_newest_first q) as Hsorted.
  rewrite <- (take_drop 2 (order_desc q)) in Hsorted.
  do 2 eexists. split; [reflexivity |]. split_and!; try done.
  - rewrite length_take. lia.
  - by apply StronglySorted_app_1_l in Hsorted.
  - intros r Hr. apply Hq, elem_of_order_desc.
    rewrite <- (take_drop 2 (order_desc q)). apply elem_of_app. by left.
  - intros x Hx. apply Hq, elem_of_order_desc in Hx.
    rewrite <- (take_drop 2 (order_desc q)) in Hx.
    apply elem_of_app in Hx as [Hx | Hx]; [by left | right]. split.
    + rewrite length_take.
      assert (drop 2 (order_desc q) ≠ []) by (intros E; rewrite E in Hx; by apply elem_of_nil in Hx).
      destruct (order_desc q) as [| a [| b l]]; simpl in *; try done.
    + intros r Hr. by apply (StronglySorted_app_1_elem_of _ _ _ r x Hsorted).
Qed.

End SnapshotTable.

(* ===================================================================== *)
(** * What a failing store leaves behind *)
(* ===================================================================== *)

Section FailureWindows.
Import JS Supabase.

Lemma filter_matches_nil (f : event → bool) (l : list event) :
  List.filter f (List.filter (fun e => negb (f e)) l) = [].
Proof.
  apply filter_nil_forall. intros x [_ Hx]%elem_of_List_filter.
  by apply negb_true_iff in Hx.
Qed.

Lemma filter_negb_idem (f : event → bool) (l : list event) :
  List.filter (fun e => negb (f e)) (List.filter (fun e => negb (f e)) l) =
  List.filter (fun e => negb (f e)) l.
Proof.
  induction l as [| e l IH]; simpl; [done |].
  destruct (f e) eqn:E; simpl; [done |]. by rewrite E, IH.
Qed.

(** X6.  The delete and the insert of [writeEvents] are two requests.  When
    the delete fails, the call throws and the event table is unchanged.
    When the delete is answered and the insert fails, the call throws,
    the rows the tuple had before are gone, none of the new rows is
    stored, and the rows of the other tuples are unchanged. *)
Theorem writeEvents_failure_window (cfg : DiffSnapshots.env) (p : string) (d : date)
    (appearedKeys disappearedKeys : list string)
    (currMap : list (string * DiffSnapshots.entry)) (w : world) (e : string) :
  let run := DiffSnapshots.writeEvents cfg p d appearedKeys disappearedKeys currMap in
  let src := DiffSnapshots.EVENT_SOURCE cfg in
  (faults w (clock w) = Some e →
     (run w).1 = Throw e ∧ unit_events (run w).2 = unit_events w) ∧
  (faults w (clock w) = None → faults w (S (clock w)) = Some e →
   appearedKeys ++ disappearedKeys ≠ [] →
     (run w).1 = Throw e ∧
     rows_of p d src (run w).2 = [] ∧
     rows_not_of p d src (run w).2 = rows_not_of p d src w).
Proof.
  intros run src. subst run. unfold DiffSnapshots.writeEvents.
  set (rows := DiffSnapshots.event_rows _ _ _ _ _ _).
  unfold bind, delete_events, insert_events, request. split.
  - intros F0. rewrite F0. done.
  - intros F0 F1 Hkeys. rewrite F0.
    assert (Hrows : Nat.eqb (List.length rows) 0 = false).
    { subst rows. unfold DiffSnapshots.event_rows.
      rewrite length_app, !length_map, <- length_app.
      destruct (appearedKeys ++ disappearedKeys); done. }
    rewrite Hrows. simpl. rewrite F1. simpl.
    unfold rows_of, rows_not_of. simpl.
    split_and!; [done | apply filter_matches_nil | apply filter_negb_idem].
Qed.

Lemma writeEvents_failure_window_witness :
  let w := World [] [Event "p1" 20 "unit:999" (Some "999") appeared "snapshot";
                     Event "p1" 20 "unit:101" (Some "101") appeared "scan"]
                 [] (fun _ => None) second_request_fails 0 [] in
  let run := DiffSnapshots.writeEvents diff_cfg "p1" 20 ["unit:103"] []
               (DiffSnapshots.buildMap [unit_103]) in
  (run w).1 = Throw "insert failed" ∧
  rows_of "p1" 20 "snapshot" (run w).2 = [] ∧
  rows_not_of "p1" 20 "snapshot" (run w).2 =
    [Event "p1" 20 "unit:101" (Some "101") appeared "scan"].
Proof.
  apply (writeEvents_failure_window diff_cfg "p1" 20 ["unit:103"] []
           (DiffSnapshots.buildMap [unit_103])
           (World [] [Event "p1" 20 "unit:999" (Some "999") appeared "snapshot";
                      Event "p1" 20 "unit:101" (Some "101") appeared "scan"]
                  [] (fun _ => None) second_request_fails 0 []) "insert failed");
    [reflexivity | reflexivity | discriminate].
Defined.

End FailureWindows.

(* ===================================================================== *)
(** * One run of the RentCafe runner *)
(* ===================================================================== *)

Section RentCafeRun.
Import JS Supabase.

Lemma scrape_loop_world (urls : list string) (st : list unit * list string) (w : world) :
  (RentCafe.scrape_loop urls st w).2 = w.
Proof.
  revert st. induction urls as [| url urls IH]; intros st; simpl; [done |].
  unfold bind, open_page. destruct (web w url); [apply IH | done].
Qed.

Lemma scrapeRentCafeUrls_world (urls : list string) (w : world) :
  (RentCafe.scrapeRentCafeUrls urls w).2 = w.
Proof.
  unfold RentCafe.scrapeRentCafeUrls, bind.
  pose proof (scrape_loop_world urls ([], []) w) as H.
  destruct (RentCafe.scrape_loop urls ([], []) w) as [[st | e] w']; simpl in *; by subst.
Qed.

Lemma scrape_loop_page_down (urls : list string) (st : list unit * list string)
    (w : world) (url : string) :
  url ∈ urls → web w url = None →
  (RentCafe.scrape_loop urls st w).1 = Throw "page.goto: Timeout".
Proof.
  revert st. induction urls as [| u urls IH]; intros st Hin Hdown.
  - by apply elem_of_nil in Hin.
  - simpl. unfold bind, open_page. destruct (web w u) as [units |] eqn:E; [| done].
    apply elem_of_cons in Hin as [-> | Hin]; [congruence |]. by apply IH.
Qed.

(** X7.  A page that does not open stops the run before the store is asked
    anything: [runOneProperty] throws, no request is made, and both
    tables are as they were. *)
Theorem runOneProperty_page_down (cfg : RentCafe.env) (id : string)
    (urls : list string) (url : string) (w : world) :
  url ∈ urls → web w url = None →
  ∃ w', RentCafe.runOneProperty cfg id urls w = (Throw "page.goto: Timeout", w') ∧
        unit_snapshots w' = unit_snapshots w ∧
        unit_events w' = unit_events w ∧
        clock w' = clock w.
Proof.
  intros Hin Hdown. unfold RentCafe.runOneProperty.
  destruct urls as [| u urls]; [by apply elem_of_nil in Hin |].
  cbn [List.length Nat.eqb]. unfold bind at 1. cbn [log]. unfold bind at 1.
  set (w0 := World _ _ _ _ _ _ _).
  pose proof (scrapeRentCafeUrls_world (u :: urls) w0) as Hworld.
  assert (Hthrow : (RentCafe.scrapeRentCafeUrls (u :: urls) w0).1 =
                   Throw "page.goto: Timeout").
  { unfold RentCafe.scrapeRentCafeUrls, bind.
    pose proof (scrape_loop_page_down (u :: urls) ([], []) w0 url Hin Hdown) as H.
    destruct (RentCafe.scrape_loop (u :: urls) ([], []) w0) as [[st | e] w1];
      simpl in *; congruence. }
  destruct (RentCafe.scrapeRentCafeUrls (u :: urls) w0) as [[units | e] w1];
    simpl in *; [done |]. subst. injection Hthrow as ->. by eexists.
Qed.

Lemma runOneProperty_page_down_witness :
  ∃ w', RentCafe.runOneProperty rentcafe_cfg "p1" (p_urls property_1)
          (healthy_world [] [] [property_1; property_2] first_page_down) =
        (Throw "page.goto: Timeout", w') ∧
        unit_snapshots w' = [] ∧ unit_events w' = [] ∧ clock w' = 0.
Proof.
  apply (runOneProperty_page_down rentcafe_cfg "p1" (p_urls property_1)
           "https://first.example/availability"
           (healthy_world [] [] [property_1; property_2] first_page_down)).
  - apply list_elem_of_here.
  - reflexivity.
Defined.

Lemma filter_before_upsert (id : string) (today : date) (units : list unit)
    (t : list snapshot) :
  List.filter (fun r => String.eqb (s_property_id r) id && Nat.ltb (snapshot_date r) today)
              (upsert_row (Snapshot id today units) t) =
  List.filter (fun r => String.eqb (s_property_id r) id && Nat.ltb (snapshot_date r) today)
              t.
Proof.
  set (f := fun r => String.eqb (s_property_id r) id && Nat.ltb (snapshot_date r) today).
  assert (Hkey : ∀ x, has_key (id, today) x = true → f x = false).
  { intros x [Hid Hd]%andb_true_iff. apply Nat.eqb_eq in Hd. simpl in Hd.
    subst f. simpl. rewrite Hd, Nat.ltb_irrefl. apply andb_false_r. }
  assert (HS : f (Snapshot id today units) = false).
  { apply Hkey. by apply has_key_spec. }
  induction t as [| x t IH].
  - simpl. by rewrite HS.
  - rewrite upsert_row_unfold.
    change (snapshot_key (Snapshot id today units)) with (id, today).
    destruct (has_key (id, today) x) eqn:E; simpl.
    + by rewrite HS, (Hkey x E).
    + by rewrite IH.
Qed.

(** [writeEvents] changes the event table only. *)
Lemma rentcafe_writeEvents_frame (cfg : RentCafe.env) (p : string) (d : date)
    (appearedKeys disappearedKeys : list string) (w : world) :
  let w' := (RentCafe.writeEvents cfg p d appearedKeys disappearedKeys w).2 in
  unit_snapshots w' = unit_snapshots w ∧ web w' = web w ∧ faults w' = faults w ∧
  properties w' = properties w ∧ console w' = console w.
Proof.
  unfold RentCafe.writeEvents.
  set (rows := RentCafe.event_rows _ _ _ _ _).
  unfold bind, delete_events, insert_events, request, ret.
  destruct (faults w (clock w)); [done |]. simpl.
  destruct (Nat.eqb (List.length rows) 0); [done |]. simpl.
  destruct (faults w (S (clock w))); done.
Qed.

(** One run of the pipeline on a store that answers, with pages that
    open: the snapshot of the day is upserted and the rows of the day
    are replaced by the diff against the baseline. *)
Lemma runOneProperty_ok (cfg : RentCafe.env) (id : string) (urls : list string)
    (w : world) :
  let today := default (RentCafe.todayYYYYMMDDLocal cfg) (RentCafe.SNAPSHOT_DATE cfg) in
  let units := scraped_units (web w) urls in
  let keys := RentCafe.diffUnitKeys (rentcafe_baseline id today (unit_snapshots w)) units in
  no_faults w →
  urls ≠ [] →
  (∀ url, url ∈ urls → is_Some (web w url)) →
  ∃ w', RentCafe.runOneProperty cfg id urls w = (Ok (), w') ∧
        unit_snapshots w' = upsert_row (Snapshot id today units) (unit_snapshots w) ∧
        unit_events w' =
          rows_not_of id today (RentCafe.EVENT_SOURCE cfg) w ++
          RentCafe.event_rows (RentCafe.EVENT_SOURCE cfg) id today keys.1 keys.2 ∧
        web w' = web w ∧ faults w' = faults w.
Proof.
  intros today units keys Hw Hurls Hpages.
  unfold RentCafe.runOneProperty. fold today.
  destruct urls as [| url urls]; [done |]. cbn [List.length Nat.eqb].
  unfold bind at 1. cbn [log]. unfold bind at 1.
  rewrite scrapeRentCafeUrls_ok by done.
  cbn [web]. fold units.
  unfold RentCafe.upsertSnapshot, upsert_snapshot.
  unfold bind at 1. rewrite request_ok by done. cbn [fst snd].
  unfold bind at 1. cbn [log tick set_snapshots unit_snapshots unit_events properties
                         web faults clock console].
  unfold bind at 1. unfold RentCafe.getPreviousSnapshot.
  rewrite request_ok by done.
  cbn [fst snd tick set_snapshots unit_snapshots unit_events properties
       web faults clock console].
  rewrite filter_before_upsert, head_take_1.
  fold (rentcafe_baseline id today (unit_snapshots w)). fold keys.
  destruct keys as [a d] eqn:Hkeys. cbn [fst snd].
  match goal with
  | |- ∃ w', bind _ _ ?w2 = _ ∧ _ =>
      destruct (rentcafe_writeEvents_replaces cfg id today a d w2 Hw)
        as (n & w3 & Hrun & Hev & _);
      destruct (rentcafe_writeEvents_frame cfg id today a d w2)
        as (Hsnaps & Hweb & Hfaults & _)
  end.
  rewrite Hrun in Hsnaps, Hweb, Hfaults. cbn [snd] in Hsnaps, Hweb, Hfaults.
  unfold bind at 1. rewrite Hrun. cbn [log].
  eexists. split; [done |]. cbn [unit_events unit_snapshots web faults].
  by rewrite Hev, Hsnaps, Hweb, Hfaults.
Qed.

(** X8.  Running the RentCafe pipeline a second time on the same day, with
    the same pages and a store that answers, changes nothing: the
    snapshot table and the event table after the second run are those
    after the first. *)
Theorem runOneProperty_rerun_same_day (cfg : RentCafe.env) (id : string)
    (urls : list string) (w : world) :
  no_faults w →
  urls ≠ [] →
  (∀ url, url ∈ urls → is_Some (web w url)) →
  ∃ w1 w2, RentCafe.runOneProperty cfg id urls w = (Ok (), w1) ∧
           RentCafe.runOneProperty cfg id urls w1 = (Ok (), w2) ∧
           unit_snapshots w2 = unit_snapshots w1 ∧
           unit_events w2 = unit_events w1.
Proof.
  intros Hw Hurls Hpages.
  destruct (runOneProperty_ok cfg id urls w Hw Hurls Hpages)
    as (w1 & Hrun1 & Hsn1 & Hev1 & Hweb1 & Hf1).
  assert (Hw1 : no_faults w1) by (intros t; by rewrite Hf1).
  assert (Hpages1 : ∀ url, url ∈ urls → is_Some (web w1 url))
    by (intros url Hin; rewrite Hweb1; by apply Hpages).
  destruct (runOneProperty_ok cfg id urls w1 Hw1 Hurls Hpages1)
    as (w2 & Hrun2 & Hsn2 & Hev2 & _).
  exists w1, w2. split; [done |]. split; [done |].
  set (today := default (RentCafe.todayYYYYMMDDLocal cfg) (RentCafe.SNAPSHOT_DATE cfg)) in *.
  rewrite Hweb1 in Hsn2, Hev2.
  assert (Hbase : rentcafe_baseline id today (unit_snapshots w1) =
                  rentcafe_baseline id today (unit_snapshots w)).
  { unfold rentcafe_baseline. by rewrite Hsn1, filter_before_upsert. }
  rewrite Hbase in Hev2. split.
  - by rewrite Hsn2, Hsn1, upsert_row_idem.
  - rewrite Hev2, Hev1. f_equal. unfold rows_not_of. rewrite Hev1.
    apply filter_matches_app. apply Forall_app. split; apply all_match_map.
Qed.

Lemma runOneProperty_rerun_same_day_witness :
  ∃ w1 w2,
    RentCafe.runOneProperty rentcafe_cfg "p2" (p_urls property_2)
      (healthy_world [Snapshot "p2" 19 [unit_101; unit_102]] [] [] both_pages_up) =
      (Ok (), w1) ∧
    RentCafe.runOneProperty rentcafe_cfg "p2" (p_urls property_2) w1 = (Ok (), w2) ∧
    unit_snapshots w2 = unit_snapshots w1 ∧
    unit_events w2 = unit_events w1.
Proof.
  apply (runOneProperty_rerun_same_day rentcafe_cfg "p2" (p_urls property_2)
           (healthy_world [Snapshot "p2" 19 [unit_101; unit_102]] [] [] both_pages_up)).
  - intros t. reflexivity.
  - done.
  - intros url ->%list_elem_of_singleton. by eexists.
Defined.

Lemma rentcafe_writeEvents_others (cfg : RentCafe.env) (p : string) (d : date)
    (appearedKeys disappearedKeys : list string) (w : world) :
  rows_not_of p d (RentCafe.EVENT_SOURCE cfg)
    (RentCafe.writeEvents cfg p d appearedKeys disappearedKeys w).2 =
  rows_not_of p d (RentCafe.EVENT_SOURCE cfg) w.
Proof.
  unfold RentCafe.writeEvents.
  set (rows := RentCafe.event_rows _ _ _ _ _).
  assert (Hrows : Forall (fun e => event_matches p d (RentCafe.EVENT_SOURCE cfg) e = true) rows)
    by (apply Forall_app; split; apply all_match_map).
  unfold bind, delete_events, insert_events, request, ret, rows_not_of.
  destruct (faults w (clock w)); [done |]. simpl.
  destruct (Nat.eqb (List.length rows) 0); simpl; [apply filter_negb_idem |].
  destruct (faults w (S (clock w))); simpl; [apply filter_negb_idem |].
  by apply filter_matches_app.
Qed.

(** X9.  Whatever the pages and the store do, one run of the pipeline for a
    property changes no snapshot row other than the one of that property
    for the day of the run, and no event row other than those of that
    property, that day and the run's source. *)
Theorem runOneProperty_touches_own_rows (cfg : RentCafe.env) (id : string)
    (urls : list string) (w : world) :
  let today := default (RentCafe.todayYYYYMMDDLocal cfg) (RentCafe.SNAPSHOT_DATE cfg) in
  ∃ o w', RentCafe.runOneProperty cfg id urls w = (o, w') ∧
    List.filter (fun x => negb (has_key (id, today) x)) (unit_snapshots w') =
      List.filter (fun x => negb (has_key (id, today) x)) (unit_snapshots w) ∧
    rows_not_of id today (RentCafe.EVENT_SOURCE cfg) w' =
      rows_not_of id today (RentCafe.EVENT_SOURCE cfg) w.
Proof.
  intros today. unfold RentCafe.runOneProperty. fold today.
  destruct urls as [| url urls]; cbn [List.length Nat.eqb].
  { unfold bind, log. by do 2 eexists. }
  unfold bind at 1. cbn [log]. unfold bind at 1.
  set (w0 := World _ _ _ _ _ _ _).
  pose proof (scrapeRentCafeUrls_world (url :: urls) w0) as Hworld.
  destruct (RentCafe.scrapeRentCafeUrls (url :: urls) w0) as [[units | e] w1];
    simpl in Hworld; subst w1; [| by do 2 eexists].
  unfold RentCafe.upsertSnapshot, upsert_snapshot.
  unfold bind at 1. unfold request at 1. subst w0. cbn [faults clock].
  destruct (faults w (clock w)) as [e |]; [by do 2 eexists |].
  cbn [fst snd]. unfold bind at 1. cbn [log tick set_snapshots unit_snapshots unit_events
                                         properties web faults clock console].
  unfold bind at 1. unfold RentCafe.getPreviousSnapshot, request at 1.
  cbn [faults clock].
  destruct (faults w (S (clock w))) as [e |].
  { do 2 eexists. split; [reflexivity |]. cbn [tick unit_snapshots unit_events].
    split; [apply (upsert_row_others (Snapshot id today units)) | done]. }
  cbn [fst snd]. set (prevUnits := match head _ with Some r => units_json r | None => [] end).
  destruct (RentCafe.diffUnitKeys prevUnits units) as [a d].
  unfold bind at 1.
  match goal with
  | |- context [RentCafe.writeEvents cfg id today a d ?w2] =>
      pose proof (rentcafe_writeEvents_others cfg id today a d w2) as Hothers;
      destruct (rentcafe_writeEvents_frame cfg id today a d w2) as (Hsnaps & _);
      destruct (RentCafe.writeEvents cfg id today a d w2) as [[n | e] w3]
  end; cbn [snd] in *.
  - do 2 eexists. split; [reflexivity |]. unfold rows_not_of in *.
    cbn [log unit_snapshots unit_events] in *.
    rewrite Hsnaps, Hothers. cbn [tick set_snapshots unit_snapshots unit_events].
    split; [apply (upsert_row_others (Snapshot id today units)) | done].
  - do 2 eexists. split; [reflexivity |]. unfold rows_not_of in *.
    rewrite Hsnaps, Hothers. cbn [tick set_snapshots unit_snapshots unit_events].
    split; [apply (upsert_row_others (Snapshot id today units)) | done].
Qed.

End RentCafeRun.

(* ===================================================================== *)
(** * The run of the diff script *)
(* ===================================================================== *)

Section DiffScriptRun.
Import JS Supabase.

Lemma filter_other_source_delete (p : string) (d : date) (src : string) (l : list event) :
  List.filter (fun e => negb (String.eqb (source e) src))
              (List.filter (fun e => negb (event_matches p d src e)) l) =
  List.filter (fun e => negb (String.eqb (source e) src)) l.
Proof.
  induction l as [| e l IH]; simpl; [done |].
  destruct (event_matches p d src e) eqn:E; simpl.
  - unfold event_matches in E. apply andb_true_iff in E as [_ E]. by rewrite E.
  - by rewrite IH.
Qed.

Lemma filter_other_source_insert (src : string) (l rows : list event) :
  Forall (fun e => source e = src) rows →
  List.filter (fun e => negb (String.eqb (source e) src)) (l ++ rows) =
  List.filter (fun e => negb (String.eqb (source e) src)) l.
Proof.
  intros Hrows. rewrite List.filter_app.
  assert (H : List.filter (fun e => negb (String.eqb (source e) src)) rows = []).
  { apply filter_nil_forall. intros e He. rewrite Forall_forall in Hrows.
    rewrite (Hrows e He), String.eqb_refl. done. }
  by rewrite H, app_nil_r.
Qed.

Lemma event_rows_source (cfg : DiffSnapshots.env) (p : string) (d : date)
    (appearedKeys disappearedKeys : list string)
    (currMap : list (string * DiffSnapshots.entry)) :
  Forall (fun e => source e = DiffSnapshots.EVENT_SOURCE cfg)
         (DiffSnapshots.event_rows cfg p d appearedKeys disappearedKeys currMap).
Proof.
  apply Forall_app. split; apply Forall_forall;
    by intros e (k & -> & _)%list_elem_of_fmap.
Qed.

(** [writeEvents] never changes a snapshot or an event row of another
    source, whatever the store answers. *)
Lemma writeEvents_frame (cfg : DiffSnapshots.env) (p : string) (d : date)
    (appearedKeys disappearedKeys : list string)
    (currMap : list (string * DiffSnapshots.entry)) (w : world) :
  let w' := (DiffSnapshots.writeEvents cfg p d appearedKeys disappearedKeys currMap w).2 in
  unit_snapshots w' = unit_snapshots w ∧
  rows_not_from (DiffSnapshots.EVENT_SOURCE cfg) w' =
    rows_not_from (DiffSnapshots.EVENT_SOURCE cfg) w.
Proof.
  unfold DiffSnapshots.writeEvents.
  pose proof (event_rows_source cfg p d appearedKeys disappearedKeys currMap) as Hsrc.
  set (rows := DiffSnapshots.event_rows _ _ _ _ _ _) in *.
  unfold bind, delete_events, insert_events, request, ret, rows_not_from.
  destruct (faults w (clock w)); [done |]. simpl.
  destruct (Nat.eqb (List.length rows) 0); simpl;
    [split; [done | apply filter_other_source_delete] |].
  destruct (faults w (S (clock w))); simpl;
    [split; [done | apply filter_other_source_delete] |].
  split; [done |].
  by rewrite filter_other_source_insert, filter_other_source_delete.
Qed.

Lemma main_try_frame (cfg : DiffSnapshots.env) (p : string) (w : world) :
  match DiffSnapshots.main_try cfg p w with
  | (_, w') =>
      unit_snapshots w' = unit_snapshots w ∧
      rows_not_from (DiffSnapshots.EVENT_SOURCE cfg) w' =
        rows_not_from (DiffSnapshots.EVENT_SOURCE cfg) w
  end.
Proof.
  unfold DiffSnapshots.main_try, DiffSnapshots.getLastTwoSnapshots.
  unfold bind at 1. unfold request at 1.
  destruct (faults w (clock w)) as [e |]; [done |].
  cbn [fst snd]. set (snaps := take 2 _).
  destruct snaps as [| latest [| prev rest]]; [done | done |].
  destruct (DiffSnapshots.diffKeys _ _) as [a d].
  unfold bind at 1.
  match goal with
  | |- context [DiffSnapshots.writeEvents cfg p ?dt a d ?m ?w2] =>
      destruct (writeEvents_frame cfg p dt a d m w2) as [Hsn Hev];
      destruct (DiffSnapshots.writeEvents cfg p dt a d m w2) as [[n | e] w3]
  end; cbn [snd] in *.
  - unfold bind, log, ret, rows_not_from in *. cbn [snd unit_snapshots unit_events] in *.
    by rewrite Hsn, Hev.
  - unfold rows_not_from in *. by rewrite Hsn, Hev.
Qed.

Lemma main_loop_frame (cfg : DiffSnapshots.env) (props : list string) (total : nat)
    (w : world) :
  match DiffSnapshots.main_loop cfg props total w with
  | (_, w') =>
      unit_snapshots w' = unit_snapshots w ∧
      rows_not_from (DiffSnapshots.EVENT_SOURCE cfg) w' =
        rows_not_from (DiffSnapshots.EVENT_SOURCE cfg) w
  end.
Proof.
  revert total w. induction props as [| p props IH]; intros total w; [done |].
  cbn [DiffSnapshots.main_loop]. unfold bind at 1, try_catch.
  pose proof (main_try_frame cfg p w) as Htry.
  destruct (DiffSnapshots.main_try cfg p w) as [[n | e] w1]; destruct Htry as [Hsn Hev].
  - specialize (IH (total + n) w1).
    destruct (DiffSnapshots.main_loop cfg props (total + n) w1) as [o w2].
    destruct IH as [Hsn' Hev']. by rewrite Hsn', Hev', Hsn, Hev.
  - unfold bind at 1. cbn [log ret].
    match goal with
    | |- context [DiffSnapshots.main_loop cfg props ?t ?w2] =>
        specialize (IH t w2);
        destruct (DiffSnapshots.main_loop cfg props t w2) as [o w3]
    end.
    destruct IH as [Hsn' Hev']. rewrite Hsn', Hev'. unfold rows_not_from in *.
    cbn [unit_snapshots unit_events]. by rewrite Hsn, Hev.
Qed.

(** X10.  The diff script is a reader of snapshots and a writer of its own
    events: whatever the store answers, [main] leaves the snapshot table
    as it was and changes no event row of another source. *)
Theorem diff_main_only_writes_own_events (cfg : DiffSnapshots.env) (w : world) :
  ∃ o w', DiffSnapshots.main cfg w = (o, w') ∧
    unit_snapshots w' = unit_snapshots w ∧
    rows_not_from (DiffSnapshots.EVENT_SOURCE cfg) w' =
      rows_not_from (DiffSnapshots.EVENT_SOURCE cfg) w.
Proof.
  unfold DiffSnapshots.main. unfold bind at 1.
  assert (Hprops : ∀ o w1, DiffSnapshots.getPropertiesToProcess cfg w = (o, w1) →
                           unit_snapshots w1 = unit_snapshots w ∧
                           unit_events w1 = unit_events w).
  { unfold DiffSnapshots.getPropertiesToProcess.
    destruct (truthy (DiffSnapshots.PROPERTY_ID cfg)).
    - by intros o w1 [= <- <-].
    - unfold bind, request, ret. destruct (faults w (clock w)); by intros o w1 [= <- <-]. }
  destruct (DiffSnapshots.getPropertiesToProcess cfg w) as [[props | e] w1] eqn:E;
    destruct (Hprops _ _ eq_refl) as [Hsn Hev].
  - unfold bind at 1.
    pose proof (main_loop_frame cfg props 0 w1) as Hloop.
    destruct (DiffSnapshots.main_loop cfg props 0 w1) as [[n | e] w2];
      destruct Hloop as [Hsn' Hev'].
    + do 2 eexists. split; [reflexivity |]. unfold rows_not_from in *.
      cbn [unit_snapshots unit_events]. by rewrite Hsn', Hev', Hsn, Hev.
    + do 2 eexists. split; [reflexivity |]. unfold rows_not_from in *.
      by rewrite Hsn', Hev', Hsn, Hev.
  - do 2 eexists. split; [reflexivity |]. unfold rows_not_from. by rewrite Hsn, Hev.
Qed.

Lemma diff_main_isolates_failures_witness :
  let w := World [Snapshot "p1" 19 [unit_101]; Snapshot "p1" 20 [unit_102];
                  Snapshot "p2" 20 [unit_103]]
                 [] [] (fun _ => None) (request_fails 1) 0 [] in
  ∃ w' lines total,
    DiffSnapshots.main diff_cfg w = (Ok (), w') ∧
    console w' = [] ++ lines ++ [LogDone total] ∧
    map line_property lines = [Some "p1"; Some "p2"].
Proof.
  apply (diff_main_isolates_failures diff_cfg ["p1"; "p2"]
           (World [Snapshot "p1" 19 [unit_101]; Snapshot "p1" 20 [unit_102];
                   Snapshot "p2" 20 [unit_103]]
                  [] [] (fun _ => None) (request_fails 1) 0 [])
           (World [Snapshot "p1" 19 [unit_101]; Snapshot "p1" 20 [unit_102];
                   Snapshot "p2" 20 [unit_103]]
                  [] [] (fun _ => None) (request_fails 1) 1 [])).
  reflexivity.
Defined.

(** [writeEvents] on a store that answers: it returns the number of rows
    it built, which is the number of keys it was given. *)
Lemma writeEvents_ok (cfg : DiffSnapshots.env) (p : string) (d : date)
    (appearedKeys disappearedKeys : list string)
    (currMap : list (string * DiffSnapshots.entry)) (w : world) :
  no_faults w →
  ∃ w', DiffSnapshots.writeEvents cfg p d appearedKeys disappearedKeys currMap w =
          (Ok (List.length appearedKeys + List.length disappearedKeys), w') ∧
        unit_events w' =
          rows_not_of p d (DiffSnapshots.EVENT_SOURCE cfg) w ++
          DiffSnapshots.event_rows cfg p d appearedKeys disappearedKeys currMap ∧
        console w' = console w.
Proof.
  intros Hw. unfold DiffSnapshots.writeEvents.
  assert (Hlen : List.length (DiffSnapshots.event_rows cfg p d appearedKeys
                                disappearedKeys currMap) =
                 List.length appearedKeys + List.length disappearedKeys).
  { unfold DiffSnapshots.event_rows. by rewrite length_app, !length_map. }
  set (rows := DiffSnapshots.event_rows _ _ _ _ _ _) in *.
  unfold bind, delete_events, insert_events, request, ret. simpl.
  rewrite Hw. simpl. rewrite <- Hlen.
  destruct rows as [| e rows]; simpl.
  - eexists. split; [done |]. split; [by rewrite app_nil_r | done].
  - rewrite Hw. simpl. eexists. split; [done |]. done.
Qed.

(** X12.  For a property with two or more snapshots to choose from and a
    store that answers, the [try] block of [main] replaces the event
    rows of the newest snapshot's day by the diff between the second
    newest and the newest snapshot, leaves the rows of every other tuple
    alone, and reports as inserted the number of appeared plus
    disappeared keys. *)
Theorem main_try_writes_latest_diff (cfg : DiffSnapshots.env) (p : string)
    (latest prev : snapshot) (rest : list snapshot) (w w1 : world) :
  no_faults w →
  DiffSnapshots.getLastTwoSnapshots cfg p w = (Ok (latest :: prev :: rest), w1) →
  let keys := DiffSnapshots.diffKeys (DiffSnapshots.buildMap (units_json prev))
                                     (DiffSnapshots.buildMap (units_json latest)) in
  let d := snapshot_date latest in
  let n := List.length keys.1 + List.length keys.2 in
  ∃ w', DiffSnapshots.main_try cfg p w = (Ok n, w') ∧
        rows_of p d (DiffSnapshots.EVENT_SOURCE cfg) w' =
          DiffSnapshots.event_rows cfg p d keys.1 keys.2
            (DiffSnapshots.buildMap (units_json latest)) ∧
        rows_not_of p d (DiffSnapshots.EVENT_SOURCE cfg) w' =
          rows_not_of p d (DiffSnapshots.EVENT_SOURCE cfg) w ∧
        console w' = console w ++ [LogDiff p d (List.length keys.1) (List.length keys.2) n].
Proof.
  intros Hw Hget keys d n. subst d n.
  assert (Hw1 : w1 = tick w).
  { unfold DiffSnapshots.getLastTwoSnapshots in Hget.
    rewrite request_ok in Hget by done. by injection Hget as _ <-. }
  unfold DiffSnapshots.main_try. rewrite (bind_ok _ _ _ _ _ Hget).
  fold keys. destruct keys as [a dis] eqn:Hkeys. cbn [fst snd] in *.
  destruct (writeEvents_ok cfg p (snapshot_date latest) a dis
              (DiffSnapshots.buildMap (units_json latest)) w1)
    as (w2 & Hrun & Hev & Hcon); [by subst |].
  rewrite (bind_ok _ _ _ _ _ Hrun). unfold bind, log, ret.
  eexists. split; [reflexivity |].
  unfold rows_of, rows_not_of in *. cbn [unit_events console]. rewrite Hev, Hcon.
  assert (Hsame : unit_events w1 = unit_events w) by by subst.
  assert (Hcon1 : console w1 = console w) by by subst.
  rewrite Hsame, Hcon1.
  destruct (filter_matches_app
              (event_matches p (snapshot_date latest) (DiffSnapshots.EVENT_SOURCE cfg))
              (unit_events w)
              (DiffSnapshots.event_rows cfg p (snapshot_date latest) a dis
                 (DiffSnapshots.buildMap (units_json latest)))
              (writeEvents_rows_match _ _ _ _ _ _)) as [H1 H2].
  by rewrite H1, H2.
Qed.

Lemma main_try_writes_latest_diff_witness :
  let w := healthy_world [Snapshot "p1" 19 [unit_101; unit_102];
                          Snapshot "p1" 20 [unit_102; unit_103]] [] [] (fun _ => None) in
  ∃ w', DiffSnapshots.main_try diff_cfg "p1" w = (Ok 2, w') ∧
        rows_of "p1" 20 "snapshot" w' =
          [Event "p1" 20 "unit:103" (Some "103") appeared "snapshot";
           Event "p1" 20 "unit:101" (Some "101") disappeared "snapshot"].
Proof.
  destruct (main_try_writes_latest_diff diff_cfg "p1"
              (Snapshot "p1" 20 [unit_102; unit_103])
              (Snapshot "p1" 19 [unit_101; unit_102]) []
              (healthy_world [Snapshot "p1" 19 [unit_101; unit_102];
                              Snapshot "p1" 20 [unit_102; unit_103]] [] []
                             (fun _ => None))
              (World [Snapshot "p1" 19 [unit_101; unit_102];
                      Snapshot "p1" 20 [unit_102; unit_103]] [] []
                     (fun _ => None) (fun _ => None) 1 []))
    as (w' & Hrun & Hrows & _).
  - intros t. reflexivity.
  - reflexivity.
  - exists w'. split; [exact Hrun | exact Hrows].
Defined.

End DiffScriptRun.

(* ===================================================================== *)
(** * More on the unit map and the diff *)
(* ===================================================================== *)

Section UnitMap.
Import JS.

Lemma set_add_cons (k k' : string) (l : list string) :
  set_add k (k' :: l) = if String.eqb k' k then k' :: l else k' :: set_add k l.
Proof.
  unfold set_add. simpl. rewrite (String.eqb_sym k k').
  destruct (String.eqb k' k); simpl; [done |]. by destruct (set_has k l).
Qed.

Lemma map_keys_map_set {V} (k : string) (v : V) (m : list (string * V)) :
  map_keys (map_set k v m) = set_add k (map_keys m).
Proof.
  unfold map_keys. induction m as [| [k' v'] m IH]; [done |].
  cbn [map_set]. rewrite fmap_cons, set_add_cons. cbn [fst].
  destruct (String.eqb k' k) eqn:E.
  - apply String.eqb_eq in E. by subst.
  - by rewrite fmap_cons, IH.
Qed.

Lemma buildMap_keys_fold (units : list unit) (m : list (string * DiffSnapshots.entry)) :
  map_keys (fold_left DiffSnapshots.buildMap_step units m) =
  fold_left (fun s k => set_add k s) (keys_met units) (map_keys m).
Proof.
  unfold keys_met. revert m. induction units as [| u units IH]; intros m; [done |].
  simpl. rewrite IH. unfold DiffSnapshots.buildMap_step.
  destruct (DiffSnapshots.buildMap_entry u) as [[k e] |]; [| done].
  simpl. by rewrite map_keys_map_set.
Qed.

(** X13.  The unit map has one entry per distinct key, and its keys come in
    the order in which the keys are first met in the unit list. *)
Theorem buildMap_keys_first_seen (units : list unit) :
  map_keys (DiffSnapshots.buildMap units) = new_Set (keys_met units) ∧
  NoDup (map_keys (DiffSnapshots.buildMap units)).
Proof.
  assert (H : map_keys (DiffSnapshots.buildMap units) = new_Set (keys_met units))
    by apply buildMap_keys_fold.
  split; [done |]. rewrite H. apply new_Set_NoDup.
Qed.

Lemma elem_of_entries_for (k : string) (e : DiffSnapshots.entry) (units : list unit) :
  e ∈ entries_for k units ↔ ∃ u, u ∈ units ∧ DiffSnapshots.buildMap_entry u = Some (k, e).
Proof.
  unfold entries_for. rewrite list_elem_of_omap. split.
  - intros (u & Hu & He). exists u. split; [done |].
    destruct (DiffSnapshots.buildMap_entry u) as [[k' e'] |]; [| done].
    destruct (String.eqb k' k) eqn:E; [| done].
    apply String.eqb_eq in E. by simplify_eq.
  - intros (u & Hu & He). exists u. split; [done |].
    by rewrite He, String.eqb_refl.
Qed.

Lemma buildMap_entry_shape (u : unit) (k : string) (e : DiffSnapshots.entry) :
  DiffSnapshots.buildMap_entry u = Some (k, e) →
  DiffSnapshots.normalizeUnitKey u = Some k ∧ k ≠ "" ∧
  DiffSnapshots.e_raw e = u ∧ DiffSnapshots.e_unit_number e ≠ Some "".
Proof.
  assert (Hnum : ∀ key,
            or_else (or_else (match unit_number u with
                              | Some s => Some (trim s)
                              | None => None
                              end)
                             (DiffSnapshots.unitNumberFromKey (Some key))) None ≠ Some "").
  { intros key. rewrite or_else_null by apply unitNumberFromKey_not_empty.
    rewrite entry_number. cbv zeta.
    destruct (truthy (trim (str_or_empty (unit_number u)))) eqn:E.
    - intros [= H]. by rewrite H in E.
    - apply unitNumberFromKey_not_empty. }
  unfold DiffSnapshots.buildMap_entry.
  destruct (DiffSnapshots.normalizeUnitKey u) as [key |]; [| done].
  destruct (truthy key) eqn:Ht; [| done]. cbn [negb].
  specialize (Hnum key). set (num := or_else _ None) in *.
  intros [= <- <-]. split_and!; [done | by apply truthy_true | done | done].
Qed.

(** X14.  Looking a key up in the unit map gives an entry exactly when a unit
    of the list has that key.  The entry found was built from a unit of
    the list with that key and holds that unit as [raw]; its
    [unit_number] is null or a non-empty string, never the empty
    string. *)
Theorem buildMap_lookup (units : list unit) (k : string) :
  (is_Some (map_get k (DiffSnapshots.buildMap units)) ↔
   ∃ u, u ∈ units ∧ DiffSnapshots.normalizeUnitKey u = Some k) ∧
  (∀ e, map_get k (DiffSnapshots.buildMap units) = Some e →
        DiffSnapshots.e_raw e ∈ units ∧
        DiffSnapshots.normalizeUnitKey (DiffSnapshots.e_raw e) = Some k ∧
        DiffSnapshots.e_unit_number e ≠ Some "").
Proof.
  assert (Hget : map_get k (DiffSnapshots.buildMap units) = last (entries_for k units)).
  { unfold DiffSnapshots.buildMap. rewrite buildMap_last_wins.
    by destruct (last (entries_for k units)). }
  rewrite Hget. split.
  - split.
    + intros [e He]. apply last_Some_elem_of, elem_of_entries_for in He as (u & Hu & He).
      exists u. split; [done |]. by apply buildMap_entry_shape in He as [? _].
    + intros (u & Hu & Hk).
      assert (Hentry : ∃ e, DiffSnapshots.buildMap_entry u = Some (k, e)).
      { unfold DiffSnapshots.buildMap_entry. rewrite Hk.
        assert (Ht : truthy k = true).
        { rewrite normalizeUnitKey_unfold in Hk. cbv zeta in Hk.
          destruct (startsWith _ _) eqn:E1.
          - injection Hk as <-. by destruct (str_or_empty (unit_id u)).
          - destruct (truthy (trim _)); [by injection Hk as <- |].
            destruct (truthy (str_or_empty (unit_id u))); [by injection Hk as <- | done]. }
        rewrite Ht. simpl. eauto. }
      destruct Hentry as [e He].
      apply last_is_Some. intros Hnil.
      assert (Hin : e ∈ entries_for k units) by (apply elem_of_entries_for; eauto).
      rewrite Hnil in Hin. by apply elem_of_nil in Hin.
  - intros e He. apply last_Some_elem_of, elem_of_entries_for in He as (u & Hu & He).
    apply buildMap_entry_shape in He as (Hk & _ & Hraw & Hnum). by subst.
Qed.

Lemma list_to_set_nil_inv (l : list string) :
  list_to_set l =@{gset string} ∅ → l = [].
Proof.
  destruct l as [| x l]; [done |]. intros H. exfalso.
  apply (not_elem_of_empty (C := gset string) x). rewrite <- H.
  apply elem_of_list_to_set. left.
Qed.

Lemma no_difference_iff (a b : list string) :
  (filter (fun k => negb (set_has k (new_Set a))) (new_Set b),
   filter (fun k => negb (set_has k (new_Set b))) (new_Set a)) = ([], []) ↔
  list_to_set a =@{gset string} list_to_set b.
Proof.
  destruct (set_difference_correct a b) as (Happ & Hdis & _). simpl in Happ, Hdis.
  split.
  - intros [= H1 H2]. rewrite H1 in Happ. rewrite H2 in Hdis. simpl in Happ, Hdis.
    apply set_eq. intros x. split; intros Hx.
    + destruct (decide (x ∈ (list_to_set b : gset string))); [done |].
      exfalso. apply (not_elem_of_empty (C := gset string) x). rewrite Hdis.
      by apply elem_of_difference.
    + destruct (decide (x ∈ (list_to_set a : gset string))); [done |].
      exfalso. apply (not_elem_of_empty (C := gset string) x). rewrite Happ.
      by apply elem_of_difference.
  - intros Heq. rewrite Heq in Happ, Hdis.
    assert (He : list_to_set b ∖ list_to_set b =@{gset string} ∅).
    { apply set_eq. intros x. rewrite elem_of_difference. split; [tauto |].
      intros Hx. by apply not_elem_of_empty in Hx. }
    rewrite He in Happ, Hdis.
    apply list_to_set_nil_inv in Happ, Hdis. by rewrite Happ, Hdis.
Qed.

(** X15.  A diff reports nothing exactly when the two unit lists have the same
    set of keys; a change of price, availability or any other field
    that leaves the keys alone produces no event.  This holds for the
    diff of the diff script, of the RentCafe runner and of the
    ProspectPortal scraper. *)
Theorem diff_empty_iff_same_keys (prev curr : list unit) :
  (DiffSnapshots.diffKeys (DiffSnapshots.buildMap prev) (DiffSnapshots.buildMap curr)
     = ([], []) ↔ map_key_set prev = map_key_set curr) ∧
  (RentCafe.diffUnitKeys prev curr = ([], []) ↔
     rentcafe_key_set prev = rentcafe_key_set curr) ∧
  (ProspectPortal.diffKeys prev curr = ([], []) ↔
     prospectportal_key_set prev = prospectportal_key_set curr).
Proof. split_and!; apply no_difference_iff. Qed.

(** X16.  With no current units every key of the baseline is reported as
    disappeared, each once and in baseline order, and nothing as
    appeared. *)
Theorem empty_current_all_disappeared (prev : list unit) :
  DiffSnapshots.diffKeys (DiffSnapshots.buildMap prev) (DiffSnapshots.buildMap []) =
    ([], map_keys (DiffSnapshots.buildMap prev)) ∧
  RentCafe.diffUnitKeys prev [] =
    ([], new_Set (filter_Boolean (map RentCafe.unitKeyForEvents prev))) ∧
  ProspectPortal.diffKeys prev [] =
    ([], new_Set (filter_Boolean (map unit_key prev))).
Proof.
  split_and!.
  - unfold DiffSnapshots.diffKeys. simpl. rewrite filter_not_in_empty.
    f_equal. apply new_Set_NoDup_id. unfold DiffSnapshots.buildMap.
    rewrite buildMap_keys_fold. apply new_Set_NoDup.
  - unfold RentCafe.diffUnitKeys. simpl. by rewrite filter_not_in_empty.
  - unfold ProspectPortal.diffKeys. simpl. by rewrite filter_not_in_empty.
Qed.

End UnitMap.

(* ===================================================================== *)
(** * Keys across the scripts *)
(* ===================================================================== *)

Section KeysAcrossScripts.
Import JS.

(** X17.  "Normalize keys so all platforms match": for the same raw unit
    number the SightMap scraper and the ProspectPortal scraper compute
    the same unit number, and the same key unless the trimmed number
    itself starts with [unit:], which only the ProspectPortal scraper
    leaves without a second prefix. *)
Theorem adapters_agree_on_keys (x : field) :
  SightMap.normalizeUnitNumber x = ProspectPortal.normalizeUnitNumber x ∧
  (startsWith (trim (str_or_empty x)) "unit:" = false →
     SightMap.normalizeUnitKeyFromUnitNumber x =
       ProspectPortal.normalizeUnitKeyFromNumber x) ∧
  (startsWith (trim (str_or_empty x)) "unit:" = true →
     SightMap.normalizeUnitKeyFromUnitNumber x =
       Some ("unit:" +:+ trim (str_or_empty x)) ∧
     ProspectPortal.normalizeUnitKeyFromNumber x = Some (trim (str_or_empty x))).
Proof.
  unfold SightMap.normalizeUnitKeyFromUnitNumber, SightMap.normalizeUnitNumber,
    ProspectPortal.normalizeUnitKeyFromNumber, ProspectPortal.normalizeUnitNumber, or_null.
  set (n := trim (str_or_empty x)). split_and!; [done | |].
  - intros Hpre. destruct (truthy n) eqn:E; [| done]. by rewrite E, Hpre.
  - intros Hpre. assert (E : truthy n = true) by by destruct n.
    by rewrite E, E, Hpre.
Qed.

Lemma adapters_agree_on_keys_witness :
  SightMap.normalizeUnitKeyFromUnitNumber (Some " 01077 ") =
  ProspectPortal.normalizeUnitKeyFromNumber (Some " 01077 ").
Proof.
  apply (proj1 (proj2 (adapters_agree_on_keys (Some " 01077 ")))). reflexivity.
Defined.

Lemma elem_of_extractUnits (payload : option (list SightMap.api_unit)) (u : unit) :
  u ∈ SightMap.extractUnits payload →
  ∃ a n, unit_number u = Some n ∧ n ≠ "" ∧
         SightMap.normalizeUnitNumber (SightMap.u_unit_number a) = Some n ∧
         unit_key u = SightMap.normalizeUnitKeyFromUnitNumber (Some n) ∧
         unit_id u = Some (SightMap.u_id a).
Proof.
  unfold SightMap.extractUnits. destruct payload as [units |];
    [| by intros ?%elem_of_nil].
  rewrite elem_of_List_filter. intros [(a & -> & Ha)%list_elem_of_fmap Hn].
  cbn [unit_number unit_key unit_id] in *.
  destruct (SightMap.normalizeUnitNumber (SightMap.u_unit_number a)) as [n |] eqn:E;
    [| done].
  exists a, n. apply truthy_true in Hn as Hne. split_and!; done.
Qed.

(** X18.  Every unit [extractUnits] returns has a non-empty, trimmed unit
    number [n] and the key [unit:n]; and when its id does not start with
    [unit:], the diff script computes that same key for it from the
    snapshot. *)
Theorem extractUnits_keys (payload : option (list SightMap.api_unit)) (u : unit) :
  u ∈ SightMap.extractUnits payload →
  ∃ n, unit_number u = Some n ∧ n ≠ "" ∧ trim n = n ∧
       unit_key u = Some ("unit:" +:+ n) ∧
       (startsWith (str_or_empty (unit_id u)) "unit:" = false →
        DiffSnapshots.normalizeUnitKey u = unit_key u).
Proof.
  intros (a & n & Hnum & Hne & Hnorm & Hkey & Hid)%elem_of_extractUnits.
  assert (Htrim : trim n = n).
  { unfold SightMap.normalizeUnitNumber, or_null in Hnorm.
    destruct (truthy _); [| done]. injection Hnorm as <-. apply trim_idem. }
  assert (Hk : unit_key u = Some ("unit:" +:+ n)).
  { rewrite Hkey. unfold SightMap.normalizeUnitKeyFromUnitNumber,
      SightMap.normalizeUnitNumber, or_null. change (str_or_empty (Some n)) with n.
    rewrite Htrim. apply truthy_true in Hne. by rewrite Hne, Hne. }
  exists n. split_and!; try done.
  intros Hpre. rewrite normalizeUnitKey_unfold. cbv zeta.
  rewrite Hpre, Hnum. change (str_or_empty (Some n)) with n. rewrite Htrim.
  apply truthy_true in Hne. by rewrite Hne, Hk.
Qed.

Lemma extractUnits_keys_witness :
  ∃ n, Some "01077" = Some n ∧ n ≠ "" ∧ trim n = n ∧
       Some "unit:01077" = Some ("unit:" +:+ n).
Proof.
  destruct (extractUnits_keys
              (Some [SightMap.ApiUnit "945458" (Some " 01077 ") (Some "2026-01-05");
                     SightMap.ApiUnit "945459" None None])
              (Unit (Some "unit:01077") (Some "945458") (Some "01077")
                    (Some "2026-01-05") None None None))
    as (n & H1 & H2 & H3 & H4 & _).
  - vm_compute. apply list_elem_of_here.
  - exists n. done.
Defined.

(** X19.  The RentCafe runner and the diff script give a unit the same key
    when its [unit_id] is a trimmed [unit:] id, as the RentCafe
    extraction writes it. *)
Theorem runner_and_diff_script_agree (u : unit) (k : string) :
  unit_id u = Some k → startsWith k "unit:" = true → trim k = k →
  RentCafe.unitKeyForEvents u = Some k ∧
  DiffSnapshots.normalizeUnitKey u = Some k.
Proof.
  intros Hid Hpre Htrim. split.
  - unfold RentCafe.unitKeyForEvents. rewrite Hid.
    assert (Ht : truthy k = true) by by destruct k.
    unfold or_else at 2. rewrite Ht. unfold or_else. rewrite Ht.
    change (str_or_empty (Some k)) with k. rewrite Htrim. unfold or_null. by rewrite Ht.
  - rewrite normalizeUnitKey_unfold, Hid. change (str_or_empty (Some k)) with k. cbv zeta.
    by rewrite Hpre.
Qed.

Lemma runner_and_diff_script_agree_witness :
  RentCafe.unitKeyForEvents unit_217A = Some "unit:217" ∧
  DiffSnapshots.normalizeUnitKey unit_217A = Some "unit:217".
Proof. apply (runner_and_diff_script_agree unit_217A "unit:217"); reflexivity. Defined.

(** X20.  A unit number turned into a key by [normalizeUnitKeyFromNumber] is
    read back from the key by [unitNumberFromUnitKey], unless the number
    itself starts with [unit:]. *)
Theorem number_key_number (x : field) (n : string) :
  ProspectPortal.normalizeUnitNumber x = Some n →
  startsWith n "unit:" = false →
  ProspectPortal.normalizeUnitKeyFromNumber x = Some ("unit:" +:+ n) ∧
  ProspectPortal.unitNumberFromUnitKey (ProspectPortal.normalizeUnitKeyFromNumber x) =
    Some n.
Proof.
  intros Hn Hpre.
  assert (Ht : truthy n = true).
  { unfold ProspectPortal.normalizeUnitNumber, or_null in Hn.
    destruct (truthy _) eqn:E; [| done]. by injection Hn as <-. }
  assert (Hkey : ProspectPortal.normalizeUnitKeyFromNumber x = Some ("unit:" +:+ n)).
  { unfold ProspectPortal.normalizeUnitKeyFromNumber. by rewrite Hn, Ht, Hpre. }
  split; [done |]. rewrite Hkey. unfold ProspectPortal.unitNumberFromUnitKey.
  rewrite truthy_prefixed by done. cbn [negb].
  change (startsWith ("unit:" +:+ n) "unit:") with true.
  change (slice 5 ("unit:" +:+ n)) with n. unfold or_null. by rewrite Ht.
Qed.

Lemma number_key_number_witness :
  ProspectPortal.unitNumberFromUnitKey
    (ProspectPortal.normalizeUnitKeyFromNumber (Some " 217 ")) = Some "217".
Proof. apply (number_key_number (Some " 217 ") "217"); reflexivity. Defined.

End KeysAcrossScripts.

(* ===================================================================== *)
(** * One run of the ProspectPortal scraper *)
(* ===================================================================== *)

Section ProspectPortalRun.
Import JS Supabase.

Lemma upsert_row_elem (r : snapshot) (t : list snapshot) : r ∈ upsert_row r t.
Proof.
  induction t as [| x t IH]; [left |].
  rewrite upsert_row_unfold. destruct (has_key _ x); [left | by right].
Qed.

(** After the upsert, the newest snapshot of the property dated [day] or
    before is the one just written. *)
Lemma baseline_after_upsert (id : string) (day : date) (units : list unit)
    (t : list snapshot) :
  keys_unique t →
  baseline_up_to id day (upsert_row (Snapshot id day units) t) = units.
Proof.
  intros Hu. unfold baseline_up_to.
  set (S := Snapshot id day units).
  set (f := fun r => String.eqb (s_property_id r) id && Nat.leb (snapshot_date r) day).
  set (q := List.filter f (upsert_row S t)).
  assert (HS : S ∈ q).
  { subst q. apply elem_of_List_filter. split; [apply upsert_row_elem |].
    subst f. simpl. by rewrite String.eqb_refl, Nat.leb_refl. }
  assert (Hq : ∀ x, x ∈ q → x = S ∨ (snapshot_date x < day)%nat).
  { intros x [Hx Hf]%elem_of_List_filter.
    destruct (has_key (id, day) x) eqn:E.
    - left. assert (Hin : x ∈ List.filter (has_key (snapshot_key S)) (upsert_row S t))
        by by apply elem_of_List_filter.
      rewrite upsert_row_own in Hin by done. by apply list_elem_of_singleton in Hin.
    - right. subst f. simpl in Hf. apply andb_true_iff in Hf as [Hid Hle].
      apply Nat.leb_le in Hle. unfold has_key in E. simpl in E. rewrite Hid in E.
      simpl in E. apply Nat.eqb_neq in E. lia. }
  destruct (head (order_desc q)) as [h |] eqn:Hhead.
  - destruct (head_newest _ _ (order_desc_newest_first q) Hhead) as [Hh Hmax].
    rewrite elem_of_order_desc in Hh.
    specialize (Hmax S). rewrite elem_of_order_desc in Hmax. specialize (Hmax HS).
    destruct (Hq h Hh) as [-> | Hlt]; [done |]. simpl in Hmax. lia.
  - rewrite <- elem_of_order_desc in HS. destruct (order_desc q); [| done].
    by apply elem_of_nil in HS.
Qed.

(** Diffing units that all have a key against themselves, as [main]
    does when the baseline is the snapshot it wrote itself, gives no
    event. *)
Lemma main_events_against_itself (p s : string) (d : date) (units : list unit) :
  Forall (fun u => ProspectPortal.field_truthy (unit_key u) = true) units →
  ProspectPortal.main_events p s d units units = [].
Proof.
  intros Hkeys. unfold ProspectPortal.main_events.
  assert (Hprev : map unit_key (ProspectPortal.prevUnits_of units) = map unit_key units).
  { unfold ProspectPortal.prevUnits_of.
    induction Hkeys as [| u l Hu _ IH]; [done |].
    assert (Hre : unit_key (ProspectPortal.rekey u) = unit_key u).
    { unfold ProspectPortal.rekey. cbn [unit_key].
      destruct (unit_key u) as [k |]; [| done]. simpl in Hu.
      unfold or_else at 2. rewrite Hu. unfold or_else. by rewrite Hu. }
    rewrite fmap_cons. rewrite filter_cons_True by (rewrite Hre, Hu; done).
    change (map unit_key (ProspectPortal.rekey u :: ?t)) with
      (unit_key (ProspectPortal.rekey u) :: map unit_key t).
    simpl. f_equal; [done | apply IH]. }
  assert (Hdiff : ProspectPortal.diffKeys (ProspectPortal.prevUnits_of units) units = ([], [])).
  { unfold ProspectPortal.diffKeys. rewrite Hprev. by apply no_difference_iff. }
  by rewrite Hdiff.
Qed.

(** One run of [main] on a store that answers. *)
Lemma prospectportal_main_ok (cfg : ProspectPortal.env) (unitsToday : list unit)
    (w : world) :
  let id := ProspectPortal.PROPERTY_ID cfg in
  let src := ProspectPortal.EVENT_SOURCE cfg in
  let day := default (ProspectPortal.todayYYYYMMDD cfg) (ProspectPortal.SNAPSHOT_DATE cfg) in
  no_faults w →
  unitsToday ≠ [] →
  ∃ w', ProspectPortal.main cfg unitsToday w = (Ok ProspectPortal.Finished, w') ∧
        unit_snapshots w' = upsert_row (Snapshot id day unitsToday) (unit_snapshots w) ∧
        unit_events w' =
          rows_not_of id day src w ++
          ProspectPortal.main_events id src day
            (baseline_up_to id day (unit_snapshots w)) unitsToday ∧
        faults w' = faults w.
Proof.
  intros id src day Hw Hne. unfold ProspectPortal.main. fold id src day.
  destruct unitsToday as [| u units]; [done |]. cbn [List.length Nat.eqb].
  set (unitsToday := u :: units).
  unfold bind at 1. unfold ProspectPortal.getLatestSnapshot.
  rewrite request_ok by done. cbn [fst snd]. rewrite head_take_1.
  fold (baseline_up_to id day (unit_snapshots w)).
  set (events := ProspectPortal.main_events _ _ _ _ _).
  unfold ProspectPortal.upsertSnapshot, upsert_snapshot.
  unfold bind at 1. rewrite request_ok by done. cbn [fst snd].
  match goal with
  | |- ∃ w', bind _ _ ?w2 = _ ∧ _ =>
      destruct (replaceEventsForDay_replaces id day src events w2 Hw)
        as (a & w3 & Hrun & Hev & Hw3);
      assert (Hframe : unit_snapshots w3 = unit_snapshots w2 ∧ faults w3 = faults w2)
  end.
  { revert Hrun. unfold ProspectPortal.replaceEventsForDay, bind, delete_events,
      insert_events, request, ret. simpl. rewrite Hw. simpl.
    destruct (Nat.eqb (List.length events) 0); simpl.
    - by intros [= _ <-].
    - rewrite Hw. simpl. by intros [= _ <-]. }
  destruct Hframe as [Hsn Hf].
  unfold bind at 1. rewrite Hrun. unfold ret.
  eexists. split; [reflexivity |]. rewrite Hsn, Hev, Hf. done.
Qed.

(** X21.  The ProspectPortal scraper diffs against the newest snapshot dated
    the day of the run or before, and writes the snapshot of the day
    before the next run reads it.  So a second run on the same day with
    the same units, all keyed, finds its own snapshot as the baseline:
    it reports no event and deletes the event rows the first run wrote
    for the day. *)
Theorem prospectportal_rerun_clears_events (cfg : ProspectPortal.env)
    (unitsToday : list unit) (w : world) :
  let id := ProspectPortal.PROPERTY_ID cfg in
  let src := ProspectPortal.EVENT_SOURCE cfg in
  let day := default (ProspectPortal.todayYYYYMMDD cfg) (ProspectPortal.SNAPSHOT_DATE cfg) in
  no_faults w →
  keys_unique (unit_snapshots w) →
  unitsToday ≠ [] →
  Forall (fun u => ProspectPortal.field_truthy (unit_key u) = true) unitsToday →
  ∃ w1 w2,
    ProspectPortal.main cfg unitsToday w = (Ok ProspectPortal.Finished, w1) ∧
    rows_of id day src w1 =
      ProspectPortal.main_events id src day
        (baseline_up_to id day (unit_snapshots w)) unitsToday ∧
    ProspectPortal.main cfg unitsToday w1 = (Ok ProspectPortal.Finished, w2) ∧
    rows_of id day src w2 = [] ∧
    unit_snapshots w2 = unit_snapshots w1.
Proof.
  intros id src day Hw Hu Hne Hkeys.
  destruct (prospectportal_main_ok cfg unitsToday w Hw Hne)
    as (w1 & Hrun1 & Hsn1 & Hev1 & Hf1).
  assert (Hw1 : no_faults w1) by (intros t; by rewrite Hf1).
  destruct (prospectportal_main_ok cfg unitsToday w1 Hw1 Hne)
    as (w2 & Hrun2 & Hsn2 & Hev2 & _).
  fold id src day in Hsn1, Hev1, Hsn2, Hev2.
  exists w1, w2. split_and!; try done.
  - unfold rows_of. rewrite Hev1.
    by destruct (filter_matches_app (event_matches id day src) (unit_events w) _
                   (main_events_match id src day
                      (baseline_up_to id day (unit_snapshots w)) unitsToday)).
  - unfold rows_of. rewrite Hev2, Hsn1, baseline_after_upsert by done.
    rewrite main_events_against_itself, app_nil_r by done.
    apply filter_matches_nil.
  - by rewrite Hsn2, Hsn1, upsert_row_idem.
Qed.

Lemma prospectportal_rerun_clears_events_witness :
  ∃ w1 w2,
    ProspectPortal.main prospectportal_cfg [canonical_102; canonical_103]
      (healthy_world [Snapshot "p1" 19 [canonical_102]] [] [] (fun _ => None)) =
      (Ok ProspectPortal.Finished, w1) ∧
    rows_of "p1" 20 "prospectportal" w1 =
      [Event "p1" 20 "unit:103" (Some "103") appeared "prospectportal"] ∧
    ProspectPortal.main prospectportal_cfg [canonical_102; canonical_103] w1 =
      (Ok ProspectPortal.Finished, w2) ∧
    rows_of "p1" 20 "prospectportal" w2 = [] ∧
    unit_snapshots w2 = unit_snapshots w1.
Proof.
  apply (prospectportal_rerun_clears_events prospectportal_cfg
           [canonical_102; canonical_103]
           (healthy_world [Snapshot "p1" 19 [canonical_102]] [] [] (fun _ => None))).
  - intros t. reflexivity.
  - unfold keys_unique. simpl. apply NoDup_singleton.
  - done.
  - repeat constructor.
Defined.

End ProspectPortalRun.

(* ===================================================================== *)
(** * What the diff script and the SightMap script ask of the network *)
(* ===================================================================== *)

Section Requests.
Import JS Supabase.

Lemma getLastTwoSnapshots_two_newest_witness :
  ∃ snaps w', DiffSnapshots.getLastTwoSnapshots diff_cfg "p1" four_snapshots = (Ok snaps, w') ∧
    unit_snapshots w' = unit_snapshots four_snapshots ∧
    unit_events w' = unit_events four_snapshots ∧
    (List.length snaps <= 2)%nat ∧
    newest_first snaps ∧
    (∀ r, r ∈ snaps → selected diff_cfg "p1" four_snapshots r) ∧
    (∀ x, selected diff_cfg "p1" four_snapshots x →
          x ∈ snaps ∨
          (List.length snaps = 2 ∧
           ∀ r, r ∈ snaps → (snapshot_date x <= snapshot_date r)%nat)).
Proof.
  apply (getLastTwoSnapshots_two_newest diff_cfg "p1" four_snapshots).
  intros t. reflexivity.
Defined.

(** X22.  Without [PROPERTY_ID] the diff script processes every property that
    has a snapshot among the first 10000 rows of the table, each once;
    with [PROPERTY_ID] it processes that property alone and asks the
    store nothing.  Neither way changes a table. *)
Theorem getPropertiesToProcess_each_property_once (cfg : DiffSnapshots.env)
    (w : world) :
  no_faults w →
  ∃ ids w', DiffSnapshots.getPropertiesToProcess cfg w = (Ok ids, w') ∧
    unit_snapshots w' = unit_snapshots w ∧
    unit_events w' = unit_events w ∧
    NoDup ids ∧
    if truthy (DiffSnapshots.PROPERTY_ID cfg)
    then ids = [DiffSnapshots.PROPERTY_ID cfg] ∧ w' = w
    else clock w' = S (clock w) ∧
         ∀ p, p ∈ ids ↔
              ∃ r, r ∈ take (100 * 100) (unit_snapshots w) ∧ s_property_id r = p.
Proof.
  intros Hw. unfold DiffSnapshots.getPropertiesToProcess.
  destruct (truthy (DiffSnapshots.PROPERTY_ID cfg)).
  - unfold ret. do 2 eexists. split; [reflexivity |].
    split_and!; try done. apply NoDup_singleton.
  - unfold bind. rewrite request_ok by done. cbn [fst snd]. unfold ret.
    do 2 eexists. split; [reflexivity |]. split_and!; try done.
    + apply new_Set_NoDup.
    + intros p. rewrite new_Set_elem.
      rewrite list_elem_of_fmap. split.
      * intros (r & -> & Hr). by exists r.
      * intros (r & Hr & <-). by exists r.
Qed.

Lemma getPropertiesToProcess_each_property_once_witness :
  ∃ ids w', DiffSnapshots.getPropertiesToProcess diff_cfg four_snapshots = (Ok ids, w') ∧
    unit_snapshots w' = unit_snapshots four_snapshots ∧
    unit_events w' = unit_events four_snapshots ∧
    NoDup ids ∧
    if truthy (DiffSnapshots.PROPERTY_ID diff_cfg)
    then ids = [DiffSnapshots.PROPERTY_ID diff_cfg] ∧ w' = four_snapshots
    else clock w' = S (clock four_snapshots) ∧
         ∀ p, p ∈ ids ↔
              ∃ r, r ∈ take (100 * 100) (unit_snapshots four_snapshots) ∧ s_property_id r = p.
Proof.
  apply (getPropertiesToProcess_each_property_once diff_cfg four_snapshots).
  intros t. reflexivity.
Defined.

(** X23.  [fetchSightmapLandingPage] asks at most three times.  It returns
    the first answer it gets and asks no more; when all three attempts
    fail it throws the error of the third.  It changes no table. *)
Theorem fetchSightmapLandingPage_three_attempts
    (payload : option (list SightMap.api_unit)) (w : world) :
  ∃ o w', SightMap.fetchSightmapLandingPage payload w = (o, w') ∧
    unit_snapshots w' = unit_snapshots w ∧
    unit_events w' = unit_events w ∧
    match faults w (clock w), faults w (1 + clock w), faults w (2 + clock w) with
    | None, _, _ => o = Ok payload ∧ clock w' = (1 + clock w)%nat
    | Some _, None, _ => o = Ok payload ∧ clock w' = (2 + clock w)%nat
    | Some _, Some _, None => o = Ok payload ∧ clock w' = (3 + clock w)%nat
    | Some _, Some _, Some e => o = Throw e ∧ clock w' = (3 + clock w)%nat
    end.
Proof.
  unfold SightMap.fetchSightmapLandingPage, SightMap.attempts_loop.
  unfold try_catch, request, throw. simpl.
  destruct (faults w (clock w)); simpl; [| by do 2 eexists].
  destruct (faults w (S (clock w))); simpl; [| by do 2 eexists].
  destruct (faults w (S (S (clock w)))); simpl; by do 2 eexists.
Qed.

End Requests.

(* ===================================================================== *)
(** * One run of the SightMap scraper *)
(* ===================================================================== *)

Section SightMapRun.
Import JS Supabase.

Lemma extractUnits_keyed (payload : option (list SightMap.api_unit)) :
  Forall keyed_by_number (SightMap.extractUnits payload).
Proof.
  apply Forall_forall.
  intros u (a & n & Hnum & Hne & Hnorm & Hkey & Hid)%elem_of_extractUnits.
  exists n. split_and!; try done.
  assert (Htrim : trim n = n).
  { unfold SightMap.normalizeUnitNumber, or_null in Hnorm.
    destruct (truthy _); [| done]. injection Hnorm as <-. apply trim_idem. }
  rewrite Hkey. unfold SightMap.normalizeUnitKeyFromUnitNumber,
    SightMap.normalizeUnitNumber, or_null. change (str_or_empty (Some n)) with n.
  rewrite Htrim. apply truthy_true in Hne. by rewrite Hne, Hne.
Qed.

Lemma keyToNum_snoc (units : list unit) (u : unit) :
  SightMap.keyToNum (units ++ [u]) =
  SightMap.keyToNum_step (SightMap.keyToNum units) u.
Proof. unfold SightMap.keyToNum. by rewrite fold_left_app. Qed.

(** For units keyed by their number the lookup holds, for a key, the
    number that follows [unit:] in the key, or nothing. *)
Lemma keyToNum_lookup (units : list unit) (k : string) :
  Forall keyed_by_number units →
  map_get k (SightMap.keyToNum units) = None ∨
  (map_get k (SightMap.keyToNum units) = Some (slice 5 k) ∧
   startsWith k "unit:" = true ∧ slice 5 k ≠ "").
Proof.
  induction units as [| u units IH] using rev_ind; intros Hall.
  - by left.
  - rewrite Forall_app, Forall_singleton in Hall. destruct Hall as [Hunits Hu].
    destruct Hu as (n & Hnum & Hne & Hkey).
    rewrite keyToNum_snoc. unfold SightMap.keyToNum_step. rewrite Hkey, Hnum.
    apply truthy_true in Hne as Ht.
    change (truthy ("unit:" +:+ n)) with true. rewrite Ht. cbn [andb].
    rewrite map_get_map_set.
    destruct (String.eqb ("unit:" +:+ n) k) eqn:E.
    + apply String.eqb_eq in E as <-. right.
      change (slice 5 ("unit:" +:+ n)) with n. done.
    + by apply IH.
Qed.

Lemma sightmap_event_number (units : list unit) (k : string) :
  Forall keyed_by_number units →
  SightMap.event_number (SightMap.keyToNum units) k = number_in_key k.
Proof.
  intros Hall. unfold SightMap.event_number, number_in_key.
  destruct (keyToNum_lookup units k Hall) as [-> | (-> & -> & Hne)]; [done |].
  unfold or_else. apply truthy_true in Hne. by rewrite Hne.
Qed.

(** A key the diff reports as appeared is the key of a unit of today. *)
Lemma appeared_key_of_unit (prevUnits currUnits : list unit) (k : string) :
  k ∈ (SightMap.diffUnits prevUnits currUnits).1 →
  ∃ u, u ∈ currUnits ∧ unit_key u = Some k.
Proof.
  unfold SightMap.diffUnits. cbn [fst].
  rewrite list_elem_of_filter, new_Set_elem. intros [_ Hk].
  unfold filter_Boolean in Hk. rewrite list_elem_of_omap in Hk.
  destruct Hk as (x & Hx & Hsome).
  rewrite list_elem_of_fmap in Hx. destruct Hx as (u & -> & Hu).
  exists u. split; [done |].
  destruct (unit_key u) as [s |]; [| done]. destruct (truthy s); [| done].
  by injection Hsome as <-.
Qed.

Lemma sightmap_main_events (id : string) (day : date) (prevUnits units : list unit) :
  Forall keyed_by_number units →
  SightMap.main_events id day "sightmap"
    (SightMap.diffUnits prevUnits units).1 (SightMap.diffUnits prevUnits units).2 units =
  map (fun k => Event id day k (Some (slice 5 k)) appeared "sightmap")
      (SightMap.diffUnits prevUnits units).1 ++
  map (fun k => Event id day k (number_in_key k) disappeared "sightmap")
      (SightMap.diffUnits prevUnits units).2.
Proof.
  intros Hall. unfold SightMap.main_events. cbv zeta. f_equal.
  - apply map_ext_in. intros k Hk%list_elem_of_In.
    rewrite sightmap_event_number by done.
    apply appeared_key_of_unit in Hk as (u & Hu & Hkey).
    rewrite Forall_forall in Hall. destruct (Hall u Hu) as (n & _ & _ & Hkey').
    rewrite Hkey in Hkey'. injection Hkey' as ->. done.
  - apply map_ext. intros k. by rewrite sightmap_event_number.
Qed.

Lemma fetch_ok (payload : option (list SightMap.api_unit)) (w : world) :
  no_faults w →
  SightMap.fetchSightmapLandingPage payload w = (Ok payload, tick w).
Proof.
  intros Hw. unfold SightMap.fetchSightmapLandingPage, SightMap.attempts_loop.
  unfold try_catch. by rewrite request_ok.
Qed.

Lemma no_faults_tick (w : world) : no_faults w → no_faults (tick w).
Proof. intros Hw t. apply Hw. Qed.

(** One run of [main] on a network that answers. *)
Lemma sightmap_main_ok (cfg : SightMap.env) (payload : option (list SightMap.api_unit))
    (w : world) :
  let id := SightMap.SIGHTMAP_PROPERTY_ID cfg in
  let day := default (SightMap.todayYYYYMMDD cfg) (SightMap.SNAPSHOT_DATE cfg) in
  let units := SightMap.extractUnits payload in
  let keys := SightMap.diffUnits (baseline_up_to id day (unit_snapshots w)) units in
  no_faults w →
  units ≠ [] →
  ∃ w', SightMap.main cfg payload w = (Ok SightMap.Finished, w') ∧
        unit_snapshots w' = upsert_row (Snapshot id day units) (unit_snapshots w) ∧
        unit_events w' =
          rows_not_of id day "sightmap" w ++
          SightMap.main_events id day "sightmap" keys.1 keys.2 units ∧
        faults w' = faults w.
Proof.
  intros id day units keys Hw Hne. unfold SightMap.main. cbv zeta. fold id day.
  unfold bind at 1. rewrite fetch_ok by done. fold units.
  destruct (Nat.eqb (List.length units) 0) eqn:E.
  { by apply Nat.eqb_eq, length_zero_iff_nil in E. }
  clear E.
  unfold bind at 1. unfold SightMap.loadLatestSnapshotUnits.
  rewrite request_ok by by apply no_faults_tick. cbn [fst snd].
  rewrite head_take_1.
  change (unit_snapshots (tick w)) with (unit_snapshots w).
  fold (baseline_up_to id day (unit_snapshots w)). subst keys.
  destruct (SightMap.diffUnits _ units) as [appearedKeys disappearedKeys].
  cbn [fst snd].
  generalize (SightMap.main_events id day "sightmap" appearedKeys disappearedKeys units).
  intros events. clearbody units id day.
  unfold SightMap.upsertSnapshot, upsert_snapshot, SightMap.deleteEventsForDay,
    SightMap.insertEvents, delete_events, insert_events, bind, request, ret.
  simpl. repeat (rewrite Hw; simpl).
  destruct events as [| e events]; simpl.
  - rewrite app_nil_r. by eexists.
  - rewrite Hw. by eexists.
Qed.

(** X24.  When the API and the store answer and the payload has a unit with a
    number, the SightMap scraper stores the extracted units as the
    snapshot of the day and replaces the day's [sightmap] events by the
    diff against the newest snapshot dated that day or before: one
    appeared row per new key, carrying the number that follows [unit:]
    in the key, then one disappeared row per key that is gone.  The rows
    of other tuples are not changed. *)
Theorem sightmap_main_writes_diff (cfg : SightMap.env)
    (payload : option (list SightMap.api_unit)) (w : world) :
  let id := SightMap.SIGHTMAP_PROPERTY_ID cfg in
  let day := default (SightMap.todayYYYYMMDD cfg) (SightMap.SNAPSHOT_DATE cfg) in
  let units := SightMap.extractUnits payload in
  let keys := SightMap.diffUnits (baseline_up_to id day (unit_snapshots w)) units in
  no_faults w →
  units ≠ [] →
  ∃ w', SightMap.main cfg payload w = (Ok SightMap.Finished, w') ∧
        unit_snapshots w' = upsert_row (Snapshot id day units) (unit_snapshots w) ∧
        rows_of id day "sightmap" w' =
          map (fun k => Event id day k (Some (slice 5 k)) appeared "sightmap") keys.1 ++
          map (fun k => Event id day k (number_in_key k) disappeared "sightmap") keys.2 ∧
        rows_not_of id day "sightmap" w' = rows_not_of id day "sightmap" w.
Proof.
  intros id day units keys Hw Hne.
  destruct (sightmap_main_ok cfg payload w Hw Hne) as (w' & Hrun & Hsn & Hev & _).
  fold id day units keys in Hsn, Hev.
  subst keys. rewrite sightmap_main_events in Hev by apply extractUnits_keyed.
  exists w'. split_and!; try done.
  - unfold rows_of. rewrite Hev.
    apply filter_matches_app, Forall_app. split; apply all_match_map.
  - unfold rows_not_of at 1. rewrite Hev.
    apply filter_matches_app, Forall_app. split; apply all_match_map.
Qed.

Lemma sightmap_main_writes_diff_witness :
  let w := healthy_world
             [Snapshot "p1" 19
                [Unit (Some "unit:101") (Some "945457") (Some "101") None None None None;
                 Unit (Some "unit:102") (Some "945458") (Some "102") None None None None]]
             [] [] (fun _ => None) in
  ∃ w', SightMap.main sightmap_cfg payload_102_103 w = (Ok SightMap.Finished, w') ∧
        rows_of "p1" 20 "sightmap" w' =
          [Event "p1" 20 "unit:103" (Some "103") appeared "sightmap";
           Event "p1" 20 "unit:101" (Some "101") disappeared "sightmap"].
Proof.
  intros w.
  destruct (sightmap_main_writes_diff sightmap_cfg payload_102_103 w)
    as (w' & Hrun & _ & Hrows & _).
  - intros t. reflexivity.
  - done.
  - exists w'. split; [done |]. etransitivity; [exact Hrows | reflexivity].
Defined.

(** X25.  The SightMap scraper reads its baseline before it writes the
    snapshot of the day, and the baseline may be dated the day of the
    run.  So a second run on the same day with the same payload finds
    the snapshot of the first run as its baseline: it reports no event
    and deletes the event rows the first run wrote for the day. *)
Theorem sightmap_rerun_clears_events (cfg : SightMap.env)
    (payload : option (list SightMap.api_unit)) (w : world) :
  let id := SightMap.SIGHTMAP_PROPERTY_ID cfg in
  let day := default (SightMap.todayYYYYMMDD cfg) (SightMap.SNAPSHOT_DATE cfg) in
  no_faults w →
  keys_unique (unit_snapshots w) →
  SightMap.extractUnits payload ≠ [] →
  ∃ w1 w2,
    SightMap.main cfg payload w = (Ok SightMap.Finished, w1) ∧
    SightMap.main cfg payload w1 = (Ok SightMap.Finished, w2) ∧
    rows_of id day "sightmap" w2 = [] ∧
    unit_snapshots w2 = unit_snapshots w1.
Proof.
  intros id day Hw Hu Hne.
  destruct (sightmap_main_ok cfg payload w Hw Hne) as (w1 & Hrun1 & Hsn1 & _ & Hf1).
  assert (Hw1 : no_faults w1) by (intros t; by rewrite Hf1).
  destruct (sightmap_main_ok cfg payload w1 Hw1 Hne) as (w2 & Hrun2 & Hsn2 & Hev2 & _).
  fold id day in Hsn1, Hsn2, Hev2.
  exists w1, w2. split_and!; try done.
  - unfold rows_of. rewrite Hev2, Hsn1, baseline_after_upsert by done.
    assert (Hdiff : SightMap.diffUnits (SightMap.extractUnits payload)
                      (SightMap.extractUnits payload) = ([], [])).
    { unfold SightMap.diffUnits. by apply no_difference_iff. }
    rewrite Hdiff. cbn [fst snd]. unfold SightMap.main_events. cbn [map app].
    rewrite app_nil_r. apply filter_matches_nil.
  - by rewrite Hsn2, Hsn1, upsert_row_idem.
Qed.

Lemma sightmap_rerun_clears_events_witness :
  ∃ w1 w2,
    SightMap.main sightmap_cfg payload_102_103
      (healthy_world [] [] [] (fun _ => None)) = (Ok SightMap.Finished, w1) ∧
    SightMap.main sightmap_cfg payload_102_103 w1 = (Ok SightMap.Finished, w2) ∧
    rows_of "p1" 20 "sightmap" w2 = [] ∧
    unit_snapshots w2 = unit_snapshots w1.
Proof.
  apply (sightmap_rerun_clears_events sightmap_cfg payload_102_103
           (healthy_world [] [] [] (fun _ => None))).
  - intros t. reflexivity.
  - apply NoDup_nil_2.
  - done.
Defined.

(** X26.  A payload in which no unit has a unit number is never stored: the
    SightMap scraper stops with exit code 2 as soon as the API has
    answered, or throws the last error when the API fails three times;
    either way the snapshot table and the event table are untouched, so
    an empty scrape cannot report every unit as disappeared. *)
Theorem sightmap_no_units_writes_nothing (cfg : SightMap.env)
    (payload : option (list SightMap.api_unit)) (w : world) :
  SightMap.extractUnits payload = [] →
  ∃ o w', SightMap.main cfg payload w = (o, w') ∧
    unit_snapshots w' = unit_snapshots w ∧
    unit_events w' = unit_events w ∧
    match faults w (clock w), faults w (1 + clock w), faults w (2 + clock w) with
    | Some _, Some _, Some e => o = Throw e
    | _, _, _ => o = Ok (SightMap.Exit 2)
    end.
Proof.
  intros Hnone. unfold SightMap.main. cbv zeta.
  unfold SightMap.fetchSightmapLandingPage, SightMap.attempts_loop.
  unfold bind at 1. unfold try_catch, request, throw. cbn [plus].
  destruct (faults w (clock w)); cbn [tick faults clock];
    [| rewrite Hnone; by do 2 eexists].
  destruct (faults w (S (clock w))); cbn [tick faults clock];
    [| rewrite Hnone; by do 2 eexists].
  destruct (faults w (S (S (clock w)))); cbn [tick faults clock];
    [| rewrite Hnone]; by do 2 eexists.
Qed.

Lemma sightmap_no_units_writes_nothing_witness :
  ∃ o w', SightMap.main sightmap_cfg payload_no_numbers
            (healthy_world [Snapshot "p1" 19 [canonical_102]] [] [] (fun _ => None)) =
          (o, w') ∧
    unit_snapshots w' = [Snapshot "p1" 19 [canonical_102]] ∧
    unit_events w' = [] ∧
    o = Ok (SightMap.Exit 2).
Proof.
  apply (sightmap_no_units_writes_nothing sightmap_cfg payload_no_numbers
           (healthy_world [Snapshot "p1" 19 [canonical_102]] [] [] (fun _ => None))).
  reflexivity.
Defined.

End SightMapRun.
